(** * Scoring and filtering pipeline of the creative-analysis dashboards

    A shallow embedding of [app.py] and [app_advanced.py] and the
    properties of their cleaning, filtering and scoring code.

    Modelling conventions.
    - A Python [str] is a [string] whose characters stand for code points
      below 256; column names written in other scripts are kept as the
      bytes of their literal and are only ever compared for equality.
    - A float64 is [Fin q] for an exact rational [q], or one of the three
      special values.  Binary rounding and overflow of finite values are
      not modelled: a decimal literal denotes the rational it spells.
    - pandas aligns series on their index.  Every binary operation of the
      two scripts is between series built on the same index, so a series
      is its list of values and alignment is positional; the index lives
      in the data frame.
    - Library functions (pandas, str methods) are modelled from their
      documented behaviour, with the arguments the scripts pass.
    - Streamlit is the presentation layer: a widget call returns the
      value the user chose, after the checks it makes on the bounds and
      the default it is given, and the display calls are left out.  The
      frame is the one [read_csv_auto] returned. *)

From Stdlib Require Import List String Ascii Bool Arith ZArith QArith Qpower Lia.
From Stdlib Require Import Sorting.Permutation Sorting.Sorted.
Import ListNotations.

Local Open Scope string_scope.
Local Open Scope list_scope.
Local Open Scope nat_scope.

(** ** Python: exceptions and str methods *)

Module Py.

Inductive exn : Type :=
| ValueError
| KeyError
| TypeError
| OverflowError
| StreamlitAPIException.

Inductive result (A : Type) : Type :=
| Ok (a : A)
| Raise (e : exn).
Arguments Ok {A} a.
Arguments Raise {A} e.

Definition bind {A B : Type} (m : result A) (k : A -> result B) : result B :=
  match m with
  | Ok a => k a
  | Raise e => Raise e
  end.

Fixpoint mapM {A B : Type} (f : A -> result B) (l : list A) : result (list B) :=
  match l with
  | [] => Ok []
  | x :: l' =>
      bind (f x) (fun y => bind (mapM f l') (fun ys => Ok (y :: ys)))
  end.

(** [str.isspace] on one character, for code points below 256. *)
Definition isspace (c : ascii) : bool :=
  let n := nat_of_ascii c in
  ((9 <=? n) && (n <=? 13)) || ((28 <=? n) && (n <=? 32))
  || (n =? 133) || (n =? 160).

(** [s.replace(old, new)] for a one-character [old]. *)
Fixpoint str_replace (old : ascii) (new : string) (s : string) : string :=
  match s with
  | EmptyString => EmptyString
  | String c s' =>
      if Ascii.eqb c old then (new ++ str_replace old new s')%string
      else String c (str_replace old new s')
  end.

Fixpoint lstrip (s : string) : string :=
  match s with
  | EmptyString => EmptyString
  | String c s' => if isspace c then lstrip s' else s
  end.

(** [rstrip] keeps a character when it is not a space or when something
    is left after it. *)
Fixpoint rstrip (s : string) : string :=
  match s with
  | EmptyString => EmptyString
  | String c s' =>
      match rstrip s' with
      | EmptyString => if isspace c then EmptyString else String c EmptyString
      | r => String c r
      end
  end.

(** [s.strip()] *)
Definition strip (s : string) : string := rstrip (lstrip s).

End Py.

Import Py.

Declare Scope py_scope.
Notation "x <- m ;; k" := (bind m (fun x => k))
  (at level 61, m at next level, right associativity) : py_scope.
Notation "' pat <- m ;; k" := (bind m (fun x => match x with pat => k end))
  (at level 61, pat pattern, m at next level, right associativity) : py_scope.
Local Open Scope py_scope.

(** ** float64 *)

Module Float.

(** float64 values; [NaN] is how pandas stores a missing number. *)
Inductive float64 : Type :=
| Fin (q : Q)
| PInf
| NInf
| NaN.

Definition isna (x : float64) : bool :=
  match x with NaN => true | _ => false end.

Definition Qltb (x y : Q) : bool := negb (Qle_bool y x).

(** IEEE comparisons: anything against NaN is false. *)
Definition flt (x y : float64) : bool :=
  match x, y with
  | NaN, _ | _, NaN => false
  | NInf, NInf => false
  | NInf, _ => true
  | _, NInf => false
  | PInf, _ => false
  | Fin _, PInf => true
  | Fin a, Fin b => Qltb a b
  end.

Definition fle (x y : float64) : bool :=
  match x, y with
  | NaN, _ | _, NaN => false
  | NInf, _ => true
  | _, NInf => false
  | _, PInf => true
  | PInf, Fin _ => false
  | Fin a, Fin b => Qle_bool a b
  end.

Definition fgt (x y : float64) : bool := flt y x.
Definition fge (x y : float64) : bool := fle y x.

Definition feqb (x y : float64) : bool :=
  match x, y with
  | Fin a, Fin b => Qeq_bool a b
  | PInf, PInf => true
  | NInf, NInf => true
  | _, _ => false
  end.

Definition fadd (x y : float64) : float64 :=
  match x, y with
  | NaN, _ | _, NaN => NaN
  | PInf, NInf | NInf, PInf => NaN
  | PInf, _ | _, PInf => PInf
  | NInf, _ | _, NInf => NInf
  | Fin a, Fin b => Fin (Qred (a + b)%Q)
  end.

Definition fhalf (x : float64) : float64 :=
  match x with
  | Fin a => Fin (Qred (a / 2)%Q)
  | other => other
  end.

Definition of_int (n : Z) : float64 := Fin (inject_Z n).

(** The larger of two numbers that are not NaN. *)
Definition fmax (x y : float64) : float64 := if flt x y then y else x.

Definition is_finite (x : float64) : bool :=
  match x with Fin _ => true | _ => false end.

(** [int(x)] of a float: the integer part, an error when there is none. *)
Definition int_of_float (x : float64) : result Z :=
  match x with
  | Fin q => Ok (Z.quot (Qnum q) (Zpos (Qden q)))
  | PInf | NInf => Raise OverflowError
  | NaN => Raise ValueError
  end.

End Float.

Import Float.

(** ** Text to number *)

Module Numeric.

Definition is_digit (c : ascii) : bool :=
  let n := nat_of_ascii c in (48 <=? n) && (n <=? 57).

Definition digit_val (c : ascii) : Z := (Z.of_nat (nat_of_ascii c) - 48)%Z.

(** The C [isspace] of the converter: space and the controls 9 to 13. *)
Definition isspace_ascii (c : ascii) : bool :=
  let n := nat_of_ascii c in (n =? 32) || ((9 <=? n) && (n <=? 13)).

Fixpoint skip_spaces (s : string) : string :=
  match s with
  | String c s' => if isspace_ascii c then skip_spaces s' else s
  | EmptyString => EmptyString
  end.

(** Reads a run of digits: the number read on top of [acc], how many
    digits there were, and what follows them. *)
Fixpoint scan_digits (acc : Z) (n : nat) (s : string) : Z * nat * string :=
  match s with
  | String c s' =>
      if is_digit c then scan_digits (acc * 10 + digit_val c)%Z (S n) s'
      else (acc, n, s)
  | EmptyString => (acc, n, s)
  end.

(** An optional sign: [true] for minus. *)
Definition scan_sign (s : string) : bool * string :=
  match s with
  | String "-" s' => (true, s')
  | String "+" s' => (false, s')
  | _ => (false, s)
  end.

(** The rational [m * 10 ^ e]. *)
Definition decimal (m e : Z) : Q :=
  if (0 <=? e)%Z then inject_Z (m * 10 ^ e)%Z
  else Qred (m # Z.to_pos (10 ^ (- e))%Z).

(** The fraction after the integer part: more digits on top of [m]. *)
Definition scan_fraction (m : Z) (s : string) : Z * nat * string :=
  match s with
  | String "." s' => scan_digits m 0 s'
  | _ => (m, 0%nat, s)
  end.

(** The exponent part; an [e] that no digit follows is not consumed. *)
Definition scan_exponent (s : string) : Z * string :=
  match s with
  | String c s' =>
      if Ascii.eqb c "e" || Ascii.eqb c "E" then
        let '(neg, t) := scan_sign s' in
        let '(n, k, r) := scan_digits 0%Z 0 t in
        match k with
        | O => (0%Z, s)
        | S _ => ((if neg then - n else n)%Z, r)
        end
      else (0%Z, s)
  | EmptyString => (0%Z, s)
  end.

(** The string-to-double conversion behind [pd.to_numeric]: blanks, a
    sign, digits with an optional fraction (at least one digit in all),
    an optional exponent, blanks, and nothing more. *)
Definition to_double (s : string) : option Q :=
  let '(neg, s1) := scan_sign (skip_spaces s) in
  let '(m1, n1, s2) := scan_digits 0%Z 0 s1 in
  let '(m2, n2, s3) := scan_fraction m1 s2 in
  match (n1 + n2)%nat with
  | O => None
  | S _ =>
      let '(ex, s4) := scan_exponent s3 in
      match skip_spaces s4 with
      | EmptyString =>
          Some (decimal (if neg then - m2 else m2)%Z (ex - Z.of_nat n2)%Z)
      | String _ _ => None
      end
  end.

Definition lower (c : ascii) : ascii :=
  let n := nat_of_ascii c in
  if (65 <=? n) && (n <=? 90) then ascii_of_nat (n + 32) else c.

Fixpoint lowercase (s : string) : string :=
  match s with
  | EmptyString => EmptyString
  | String c s' => String (lower c) (lowercase s')
  end.

(** The spellings of infinity accepted when [to_double] fails. *)
Definition special (s : string) : option float64 :=
  let t := lowercase s in
  if String.eqb t "inf" || String.eqb t "+inf"
     || String.eqb t "infinity" || String.eqb t "+infinity"
  then Some PInf
  else if String.eqb t "-inf" || String.eqb t "-infinity" then Some NInf
  else None.

(** One string to a float64; [None] is the ValueError of a string that
    is not a number. *)
Definition floatify (s : string) : option float64 :=
  match to_double s with
  | Some q => Some (Fin q)
  | None => special s
  end.

End Numeric.

Import Numeric.


(** ** pandas: series, frames and the operations the scripts call *)

Module Pd.

(** An element of an object column read from a text file: a str, or the
    NaN that marks an empty field. *)
Inductive obj : Type :=
| Str (s : string)
| Null.

Inductive Series : Type :=
| ObjSeries (v : list obj)          (* dtype object *)
| NumSeries (v : list float64)      (* dtype float64 *)
| IntSeries (v : list Z).           (* dtype int64 *)

(** [series.astype(str)]: [str(x)] of each element. *)
Definition astype_str (v : list obj) : list string :=
  map (fun o => match o with Str s => s | Null => "nan" end) v.

Inductive errors_mode : Type :=
| errors_raise
| errors_coerce.

(** One element of [pd.to_numeric] on strings: the empty string is a
    null; a string that does not parse raises, or is NaN under
    [errors='coerce']. *)
Definition to_numeric_str (errors : errors_mode) (s : string) : result float64 :=
  match s with
  | EmptyString => Ok NaN
  | String _ _ =>
      match floatify s with
      | Some x => Ok x
      | None =>
          match errors with
          | errors_coerce => Ok NaN
          | errors_raise => Raise ValueError
          end
      end
  end.

(** [pd.to_numeric(strings, errors=...)] *)
Definition to_numeric (errors : errors_mode) (v : list string) : result (list float64) :=
  mapM (to_numeric_str errors) v.

(** [pd.to_numeric] of a series that is not of dtype object: the series
    itself.  int64 values are read as the floats of the same value. *)
Definition to_numeric_series (errors : errors_mode) (s : Series) : result (list float64) :=
  match s with
  | NumSeries v => Ok v
  | IntSeries v => Ok (map of_int v)
  | ObjSeries v =>
      mapM (fun o => match o with
                     | Str s => to_numeric_str errors s
                     | Null => Ok NaN
                     end) v
  end.

(** [series.dropna()] *)
Definition dropna (v : list float64) : list float64 :=
  filter (fun x => negb (isna x)) v.

Fixpoint insert (x : float64) (l : list float64) : list float64 :=
  match l with
  | [] => [x]
  | y :: l' => if fle x y then x :: l else y :: insert x l'
  end.

Definition sort (l : list float64) : list float64 := fold_right insert [] l.

(** The middle of a sorted list: the middle element, or the mean of the
    two middle ones when the length is even. *)
Definition middle (s : list float64) : float64 :=
  let n := List.length s in
  if Nat.even n
  then fhalf (fadd (nth (n / 2 - 1) s NaN) (nth (n / 2) s NaN))
  else nth (n / 2) s NaN.

(** [series.median()]: nulls are skipped; NaN when nothing is left. *)
Definition median (v : list float64) : float64 :=
  match dropna v with
  | [] => NaN
  | valid => middle (sort valid)
  end.

(** [series.max()]: the largest value that is not null, NaN when there
    is none. *)
Definition max_skipna (v : list float64) : float64 :=
  match dropna v with
  | [] => NaN
  | x :: l => fold_left fmax l x
  end.

(** [series.notna().any()] *)
Definition notna_any (v : list float64) : bool :=
  existsb (fun x => negb (isna x)) v.

(** A Python value offered in a selection list. *)
Inductive pyval : Type :=
| PStr (s : string)
| PNum (x : float64).

Definition obj_matches (o : obj) (p : pyval) : bool :=
  match o, p with
  | Str a, PStr b => String.eqb a b
  | Null, PNum x => isna x
  | _, _ => false
  end.

Definition num_matches (x : float64) (p : pyval) : bool :=
  match p with
  | PNum y => feqb x y || (isna x && isna y)
  | PStr _ => false
  end.

(** [series.isin(values)] *)
Definition isin (s : Series) (values : list pyval) : list bool :=
  match s with
  | ObjSeries v => map (fun o => existsb (obj_matches o) values) v
  | NumSeries v => map (fun x => existsb (num_matches x) values) v
  | IntSeries v => map (fun n => existsb (num_matches (of_int n)) values) v
  end.

(** Element-wise combination of two aligned series. *)
Fixpoint map2 {A B C : Type} (f : A -> B -> C) (l1 : list A) (l2 : list B) : list C :=
  match l1, l2 with
  | x :: l1', y :: l2' => f x y :: map2 f l1' l2'
  | _, _ => []
  end.

(** [a & b] on boolean series *)
Definition band (a b : list bool) : list bool := map2 andb a b.

(** The elements of [l] at the positions where the mask is true. *)
Fixpoint mask_select {A : Type} (m : list bool) (l : list A) : list A :=
  match m, l with
  | b :: m', x :: l' => if b then x :: mask_select m' l' else mask_select m' l'
  | _, _ => []
  end.

Definition series_select (m : list bool) (s : Series) : Series :=
  match s with
  | ObjSeries v => ObjSeries (mask_select m v)
  | NumSeries v => NumSeries (mask_select m v)
  | IntSeries v => IntSeries (mask_select m v)
  end.

(** A frame: the row labels and the named columns, in order. *)
Record DataFrame : Type := {
  index : list nat;
  columns : list (string * Series)
}.

(** [len(df)] *)
Definition nrows (df : DataFrame) : nat := List.length (index df).

(** [df[name]], [None] when [name not in df.columns]. *)
Fixpoint lookup {V : Type} (d : list (string * V)) (name : string) : option V :=
  match d with
  | [] => None
  | (k, v) :: d' => if String.eqb k name then Some v else lookup d' name
  end.

Definition get_col (df : DataFrame) (name : string) : option Series :=
  lookup (columns df) name.

(** [df[mask]] for a boolean mask: the rows where the mask is true, as
    a new frame with the same columns. *)
Definition boolean_index (df : DataFrame) (m : list bool) : DataFrame :=
  {| index := mask_select m (index df);
     columns := map (fun c => (fst c, series_select m (snd c))) (columns df) |}.

(** [d[name] = v] on a dict, and [df[name] = series] on the columns: an
    existing key keeps its place, a new one goes last. *)
Fixpoint assign {V : Type} (d : list (string * V)) (name : string) (v : V) : list (string * V) :=
  match d with
  | [] => [(name, v)]
  | (k, v0) :: d' =>
      if String.eqb k name then (k, v) :: d' else (k, v0) :: assign d' name v
  end.

Definition set_col (df : DataFrame) (name : string) (s : Series) : DataFrame :=
  {| index := index df; columns := assign (columns df) name s |}.

(** [d[name]], a KeyError when the key is absent. *)
Definition item {V : Type} (d : list (string * V)) (name : string) : result V :=
  match lookup d name with
  | Some v => Ok v
  | None => Raise KeyError
  end.

(** [pd.DataFrame()] *)
Definition empty_frame : DataFrame := {| index := []; columns := [] |}.

(** The dtype of a mask.  [pd.Series([True] * n)] is a boolean series,
    except that the series made from the empty list is of dtype object;
    [&=] with a boolean series leaves a boolean series. *)
Inductive mask_dtype : Type :=
| dtype_bool
| dtype_object.

Definition ones_dtype (n : nat) : mask_dtype :=
  match n with
  | O => dtype_object
  | S _ => dtype_bool
  end.

(** [df[key]] for a series [key]: a boolean series selects rows.  A
    series of dtype object is read as a list of column labels; the only
    one the scripts build is empty, and selects no column. *)
Definition getitem (df : DataFrame) (dtype : mask_dtype) (key : list bool) : DataFrame :=
  match dtype with
  | dtype_bool => boolean_index df key
  | dtype_object => {| index := index df; columns := [] |}
  end.

(** [series.notna()] *)
Definition notna (s : Series) : list bool :=
  match s with
  | ObjSeries v => map (fun o => match o with Str _ => true | Null => false end) v
  | NumSeries v => map (fun x => negb (isna x)) v
  | IntSeries v => map (fun _ => true) v
  end.

(** [series.dropna()] on a series of any dtype *)
Definition series_dropna (s : Series) : Series :=
  match s with
  | ObjSeries v => ObjSeries (filter (fun o => match o with Str _ => true | Null => false end) v)
  | NumSeries v => NumSeries (dropna v)
  | IntSeries v => IntSeries v
  end.

(** The values of a list in order of first appearance, as the hash
    table of [unique] and [value_counts] collects them: an element is
    kept unless an equal one was seen. *)
Fixpoint unique_from {A : Type} (eqb : A -> A -> bool) (seen l : list A) : list A :=
  match l with
  | [] => []
  | x :: l' =>
      if existsb (eqb x) seen then unique_from eqb seen l'
      else x :: unique_from eqb (x :: seen) l'
  end.

Definition unique {A : Type} (eqb : A -> A -> bool) (l : list A) : list A :=
  unique_from eqb [] l.

Definition obj_eqb (a b : obj) : bool :=
  match a, b with
  | Str x, Str y => String.eqb x y
  | Null, Null => true
  | _, _ => false
  end.

(** Equality of floats in a hash table: equal numbers, and NaN with NaN. *)
Definition float_same (x y : float64) : bool := feqb x y || (isna x && isna y).

(** [series.unique()] *)
Definition series_unique (s : Series) : Series :=
  match s with
  | ObjSeries v => ObjSeries (unique obj_eqb v)
  | NumSeries v => NumSeries (unique float_same v)
  | IntSeries v => IntSeries (unique Z.eqb v)
  end.

(** [series.tolist()] *)
Definition tolist (s : Series) : list pyval :=
  match s with
  | ObjSeries v => map (fun o => match o with Str a => PStr a | Null => PNum NaN end) v
  | NumSeries v => map PNum v
  | IntSeries v => map (fun n => PNum (of_int n)) v
  end.

(** [a < b] on Python values: a str and a number do not compare. *)
Definition py_lt (a b : pyval) : result bool :=
  match a, b with
  | PStr x, PStr y => Ok (String.ltb x y)
  | PNum x, PNum y => Ok (flt x y)
  | _, _ => Raise TypeError
  end.

(** [sorted(l)]: a stable sort by [<]; the element put in goes before
    the first one that is not below it. *)
Fixpoint py_insert (x : pyval) (l : list pyval) : result (list pyval) :=
  match l with
  | [] => Ok [x]
  | y :: l' =>
      b <- py_lt y x ;;
      if b then (r <- py_insert x l' ;; Ok (y :: r)) else Ok (x :: l)
  end.

Fixpoint sorted (l : list pyval) : result (list pyval) :=
  match l with
  | [] => Ok []
  | x :: l' => r <- sorted l' ;; py_insert x r
  end.

(** A stable sort of [l] where [keep x y] says that [x] may stay before
    [y]. *)
Fixpoint insert_by {A : Type} (keep : A -> A -> bool) (x : A) (l : list A) : list A :=
  match l with
  | [] => [x]
  | y :: l' => if keep x y then x :: l else y :: insert_by keep x l'
  end.

Definition sort_by {A : Type} (keep : A -> A -> bool) (l : list A) : list A :=
  fold_right (insert_by keep) [] l.

(** How many elements of [l] equal [k]. *)
Definition count_of {A : Type} (eqb : A -> A -> bool) (k : A) (l : list A) : nat :=
  List.length (filter (eqb k) l).

(** [series.value_counts()] on the values that are not null: each
    distinct value with how often it occurs, largest count first.  Equal
    counts are left in order of first appearance; pandas fixes no order
    among them. *)
Definition value_counts {A : Type} (eqb : A -> A -> bool) (l : list A) : list (A * nat) :=
  sort_by (fun a b => snd b <=? snd a)
    (map (fun k => (k, count_of eqb k l)) (unique eqb l)).

(** [counts.sort_index(ascending=False)] for integer labels *)
Definition sort_index_descending (c : list (Z * nat)) : list (Z * nat) :=
  sort_by (fun a b => (fst b <=? fst a)%Z) c.

(** [frame.sort_values(count, ascending=False)] on a table of counts *)
Definition sort_values_descending {A : Type} (c : list (A * nat)) : list (A * nat) :=
  sort_by (fun a b => snd b <=? snd a) c.

(** The row view of a frame: each label with its fields. *)
Inductive cell : Type :=
| CObj (o : obj)
| CNum (x : float64)
| CInt (n : Z).

Definition cells (s : Series) : list cell :=
  match s with
  | ObjSeries v => map CObj v
  | NumSeries v => map CNum v
  | IntSeries v => map CInt v
  end.

Definition record : Type := list (string * cell).

Fixpoint records (cols : list (string * Series)) (n : nat) : list record :=
  match cols with
  | [] => repeat [] n
  | c :: cols' => map2 (fun x r => (fst c, x) :: r) (cells (snd c)) (records cols' n)
  end.

Definition rows (df : DataFrame) : list (nat * record) :=
  combine (index df) (records (columns df) (nrows df)).

Definition len (s : Series) : nat := List.length (cells s).

(** Every column has one value per row label. *)
Definition aligned (df : DataFrame) : Prop :=
  Forall (fun c => len (snd c) = nrows df) (columns df).

(** A frame as [read_csv] returns it: rows labelled 0 to n-1. *)
Definition well_formed (df : DataFrame) : Prop :=
  index df = seq 0 (nrows df) /\ aligned df.

End Pd.

Import Pd.

(** [l1] is [l2] with some elements left out, in the same order. *)
Inductive Sublist {A : Type} : list A -> list A -> Prop :=
| Sublist_nil : Sublist [] []
| Sublist_skip x l1 l2 : Sublist l1 l2 -> Sublist l1 (x :: l2)
| Sublist_keep x l1 l2 : Sublist l1 l2 -> Sublist (x :: l1) (x :: l2).

(** ** Streamlit: the checks of [number_input] *)

Module St.

(** The integers JavaScript holds exactly; [number_input] refuses an
    integer argument outside of them. *)
Definition MAX_SAFE_INTEGER : Z := (2 ^ 53 - 1)%Z.

Definition safe_integer (n : Z) : bool :=
  (- MAX_SAFE_INTEGER <=? n)%Z && (n <=? MAX_SAFE_INTEGER)%Z.

(** [st.number_input(min_value=.., max_value=.., value=..)] with integer
    arguments: the call raises when the default is below the minimum or
    above the maximum, or when one of the three is not a safe integer;
    otherwise it returns what the user chose. *)
Definition number_input_int (min_value max_value value chosen : Z) : result Z :=
  if (value <? min_value)%Z || (max_value <? value)%Z
  then Raise StreamlitAPIException
  else if safe_integer min_value && safe_integer max_value && safe_integer value
  then Ok chosen
  else Raise StreamlitAPIException.

(** The floats [number_input] accepts as an argument: an infinity is
    beyond the largest number of JavaScript. *)
Definition within_float_bounds (x : float64) : bool :=
  match x with
  | PInf | NInf => false
  | _ => true
  end.

(** The same call with float arguments. *)
Definition number_input_float (min_value max_value value chosen : float64)
  : result float64 :=
  if flt value min_value || flt max_value value
  then Raise StreamlitAPIException
  else if within_float_bounds min_value && within_float_bounds max_value
          && within_float_bounds value
  then Ok chosen
  else Raise StreamlitAPIException.

End St.

(** ** [clean_numeric_column] (the same function in both scripts) *)

(** The str methods chained on one element of the column. *)
Definition clean_text (s : string) : string :=
  strip (str_replace "," EmptyString
           (str_replace "$" EmptyString (str_replace "%" EmptyString s))).

Definition clean_numeric_column (series : Series) : result (list float64) :=
  match series with
  | ObjSeries v =>
      let cleaned := map clean_text (astype_str v) in
      to_numeric errors_coerce cleaned
  | _ => to_numeric_series errors_coerce series
  end.

(** ** [read_csv_auto] (the same function in both scripts) *)

Section ReadCsv.

(** [pd.read_csv(filepath, encoding=enc)] on the files at hand. *)
Variable read_csv : string -> string -> result DataFrame.

(** The loop body: the first encoding that reads the file ends the
    loop; any exception moves on to the next one. *)
Fixpoint try_encodings (filepath : string) (encodings : list string) : option DataFrame :=
  match encodings with
  | [] => None
  | enc :: rest =>
      match read_csv filepath enc with
      | Ok df => Some df
      | Raise _ => try_encodings filepath rest
      end
  end.

Definition read_csv_auto (filepath : string) : option DataFrame :=
  try_encodings filepath ["utf-8"; "gbk"; "gb2312"].

End ReadCsv.

(** ** app_advanced.py *)

Module AppAdvanced.

Inductive direction : Type :=
| higher
| lower.

Record metric : Type := {
  col : string;
  direction_of : direction
}.

(** The dict [metrics] of [calculate_score], in its order. *)
Definition metrics : list (string * metric) :=
  [ ("ctr", {| col := "CTR"; direction_of := higher |});
    ("cvr", {| col := "CVR"; direction_of := higher |});
    ("retention", {| col := "次留"; direction_of := higher |});
    ("cpm", {| col := "CPM"; direction_of := lower |}) ].

(** A median, or [None] when there is no benchmark. *)
Definition benchmark : Type := list (string * option float64).

(** Lines 50 to 58, and again 61 to 69 for CPI: the median of the valid
    values of one column, [None] without the column or without values. *)
Definition column_median (df_filtered : DataFrame) (col_name : string)
  : result (option float64) :=
  match get_col df_filtered col_name with
  | Some s =>
      cleaned <- clean_numeric_column s ;;
      let valid_data := dropna cleaned in
      if 0 <? List.length valid_data
      then Ok (Some (median valid_data))
      else Ok None
  | None => Ok None
  end.

(** The first loop over [metrics.items()]. *)
Fixpoint medians_loop (df_filtered : DataFrame) (items : list (string * metric))
  (medians : benchmark) : result benchmark :=
  match items with
  | [] => Ok medians
  | (key, config) :: items' =>
      m <- column_median df_filtered (col config) ;;
      medians_loop df_filtered items' (assign medians key m)
  end.

(** [(cleaned > m).astype(int)] or [(cleaned < m).astype(int)] *)
Definition points (d : direction) (cleaned : list float64) (m : float64) : list Z :=
  match d with
  | higher => map (fun x => Z.b2z (fgt x m)) cleaned
  | lower => map (fun x => Z.b2z (flt x m)) cleaned
  end.

(** The second loop: [scores += ...] for each metric with its column and
    a median. *)
Fixpoint scores_loop (df_filtered : DataFrame) (medians : benchmark)
  (items : list (string * metric)) (scores : list Z) : result (list Z) :=
  match items with
  | [] => Ok scores
  | (key, config) :: items' =>
      match get_col df_filtered (col config) with
      | Some s =>
          m <- item medians key ;;
          match m with
          | Some med =>
              cleaned <- clean_numeric_column s ;;
              scores_loop df_filtered medians items'
                (map2 Z.add scores (points (direction_of config) cleaned med))
          | None => scores_loop df_filtered medians items' scores
          end
      | None => scores_loop df_filtered medians items' scores
      end
  end.

Definition calculate_score (df_filtered : DataFrame) (col_map : list (string * string))
  : result (list Z * benchmark) :=
  let scores := repeat 0%Z (nrows df_filtered) in
  medians <- medians_loop df_filtered metrics [] ;;
  cpi <- column_median df_filtered "CPI" ;;
  let medians := assign medians "cpi" cpi in
  scores <- scores_loop df_filtered medians metrics scores ;;
  Ok (scores, medians).

Definition col_map : list (string * string) :=
  [ ("date", "测试日期"); ("country", "国家"); ("install", "Install(AF)");
    ("ctr", "CTR"); ("cvr", "CVR"); ("cpi", "CPI"); ("cpm", "CPM");
    ("retention", "次留"); ("spend", "Spend"); ("roi", "ROI1");
    ("impression", "Impression"); ("click", "Click") ].

(** [col_map[key]] for the keys the script writes (all are present). *)
Definition field (key : string) : string :=
  match lookup col_map key with
  | Some name => name
  | None => EmptyString
  end.

Definition score_col : string := "得分".

(** What the user chose in each sidebar widget.  A number input only
    returns values between its bounds; the values are taken as given
    here, and what is proved holds for any of them. *)
Record Sidebar : Type := {
  multiselect_date : list pyval;
  multiselect_country : list pyval;
  number_input_install : Z;
  number_input_cpi : float64;
  slider_score : Z
}.

(** A widget exists only when its column does; otherwise the variable
    is None (lines 123 to 146 for the two multiselects). *)
Definition widget {A : Type} (df : DataFrame) (key : string) (value : A) : option A :=
  match get_col df (field key) with
  | Some _ => Some value
  | None => None
  end.

(** Line 171: [int(install_series.max()) if install_series.notna().any() else 1000] *)
Definition max_install (install_series : list float64) : result Z :=
  if notna_any install_series
  then int_of_float (max_skipna install_series)
  else Ok 1000%Z.

(** Lines 169 to 181: the bound of the widget is computed first, which
    fails on an infinite install count; then the widget is called with
    the bounds 0 and [max_install] and the default 0. *)
Definition install_widget (df : DataFrame) (chosen : Z) : result (option Z) :=
  match get_col df (field "install") with
  | Some s =>
      install_series <- clean_numeric_column s ;;
      max_install <- max_install install_series ;;
      min_install <- St.number_input_int 0 max_install 0 chosen ;;
      Ok (Some min_install)
  | None => Ok None
  end.

(** Line 186: the bound and default of the CPI widget. *)
Definition max_cpi (cpi_series : list float64) : float64 :=
  if notna_any cpi_series then max_skipna cpi_series else Fin 10.

(** Lines 184 to 198: the widget is called with the bounds 0.0 and
    [max_cpi] and the default [max_cpi]. *)
Definition cpi_widget (df : DataFrame) (chosen : float64) : result (option float64) :=
  match get_col df (field "cpi") with
  | Some s =>
      cpi_series <- clean_numeric_column s ;;
      let max_cpi := max_cpi cpi_series in
      min_cpi <- St.number_input_float (Fin 0) max_cpi max_cpi chosen ;;
      Ok (Some min_cpi)
  | None => Ok None
  end.

(** Lines 149 to 155 *)
Definition query_date_country (df : DataFrame)
  (sel_date sel_country : option (list pyval)) : list bool :=
  let query := repeat true (nrows df) in
  let query :=
    match sel_date, get_col df (field "date") with
    | Some sel, Some s => band query (isin s sel)
    | _, _ => query
    end in
  let query :=
    match sel_country, get_col df (field "country") with
    | Some sel, Some s => band query (isin s sel)
    | _, _ => query
    end in
  query.

(** The dtype of the mask of lines 149 to 155. *)
Definition query_date_country_dtype (df : DataFrame)
  (sel_date sel_country : option (list pyval)) : mask_dtype :=
  let dtype := ones_dtype (nrows df) in
  let dtype :=
    match sel_date, get_col df (field "date") with
    | Some _, Some _ => dtype_bool
    | _, _ => dtype
    end in
  let dtype :=
    match sel_country, get_col df (field "country") with
    | Some _, Some _ => dtype_bool
    | _, _ => dtype
    end in
  dtype.

(** Lines 160 to 166: the snapshot with its score column, the scores and
    the medians. *)
Definition score_snapshot (df_date_country_filtered : DataFrame)
  : result (DataFrame * list Z * benchmark) :=
  if 0 <? nrows df_date_country_filtered then
    ' (scores, medians) <- calculate_score df_date_country_filtered col_map ;;
    Ok (set_col df_date_country_filtered score_col (IntSeries scores), scores, medians)
  else Ok (df_date_country_filtered, [], []).

(** Lines 202 to 210 *)
Definition query_base (df_date_country_filtered : DataFrame)
  (min_install : option Z) (min_cpi : option float64) : result (list bool) :=
  let query := repeat true (nrows df_date_country_filtered) in
  query <-
    match min_install, get_col df_date_country_filtered (field "install") with
    | Some n, Some s =>
        install_series <- clean_numeric_column s ;;
        Ok (band query (map (fun x => fge x (of_int n)) install_series))
    | _, _ => Ok query
    end ;;
  match min_cpi, get_col df_date_country_filtered (field "cpi") with
  | Some c, Some s =>
      cpi_series <- clean_numeric_column s ;;
      Ok (band query (map (fun x => fle x c) cpi_series))
  | _, _ => Ok query
  end.

(** The dtype of the mask of lines 202 to 210. *)
Definition query_base_dtype (df_date_country_filtered : DataFrame)
  (min_install : option Z) (min_cpi : option float64) : mask_dtype :=
  let dtype := ones_dtype (nrows df_date_country_filtered) in
  let dtype :=
    match min_install, get_col df_date_country_filtered (field "install") with
    | Some _, Some _ => dtype_bool
    | _, _ => dtype
    end in
  match min_cpi, get_col df_date_country_filtered (field "cpi") with
  | Some _, Some _ => dtype_bool
  | _, _ => dtype
  end.

(** The score column read back as the int64 series the scoring step
    stored; the model raises on any other dtype, which the script never
    has there. *)
Definition int64_values (s : Series) : result (list Z) :=
  match s with
  | IntSeries v => Ok v
  | _ => Raise TypeError
  end.

(** [int(series.max())] of an int64 series *)
Definition max_int (v : list Z) : result Z :=
  match v with
  | [] => Raise ValueError
  | x :: v' => Ok (fold_left Z.max v' x)
  end.

(** Lines 215 to 246 *)
Definition score_filter (df_base_filtered : DataFrame) (slider : Z) : result DataFrame :=
  match 0 <? nrows df_base_filtered, get_col df_base_filtered score_col with
  | true, Some s =>
      v <- int64_values s ;;
      max_score <- max_int v ;;
      let min_score := if (max_score =? 0)%Z then 0%Z else slider in
      Ok (boolean_index df_base_filtered (map (fun x => (min_score <=? x)%Z) v))
  | _, _ => Ok empty_frame
  end.

Record Outcome : Type := {
  df_date_country_filtered : DataFrame;
  scores : list Z;
  medians : benchmark;
  df_base_filtered : DataFrame;
  df_final : DataFrame
}.

(** The script from line 119 on, for a frame that was read. *)
Definition main (df : DataFrame) (ui : Sidebar) : result Outcome :=
  let sel_date := widget df "date" (multiselect_date ui) in
  let sel_country := widget df "country" (multiselect_country ui) in
  let snapshot :=
    getitem df (query_date_country_dtype df sel_date sel_country)
      (query_date_country df sel_date sel_country) in
  ' (snapshot, scores, medians) <- score_snapshot snapshot ;;
  min_install <- install_widget snapshot (number_input_install ui) ;;
  min_cpi <- cpi_widget snapshot (number_input_cpi ui) ;;
  query <- query_base snapshot min_install min_cpi ;;
  let base := getitem snapshot (query_base_dtype snapshot min_install min_cpi) query in
  final <- score_filter base (slider_score ui) ;;
  Ok {| df_date_country_filtered := snapshot;
        scores := scores;
        medians := medians;
        df_base_filtered := base;
        df_final := final |}.

(** Lines 124 and 137: the options of a multiselect, which are also its
    default selection. *)
Definition options (s : Series) : result (list pyval) :=
  sorted (tolist (series_unique (series_dropna s))).

(** Line 219, on the values of the score column. *)
Definition score_dist (v : list Z) : list (Z * nat) :=
  sort_index_descending (value_counts Z.eqb v).

(** Lines 251 to 255: the three counts, and the share of the Stage-2
    rows that pass the score threshold, in percent, when there are any. *)
Definition overview (r : Outcome) : nat * nat * nat * option Q :=
  let total := nrows (df_date_country_filtered r) in
  let base := nrows (df_base_filtered r) in
  let final := nrows (df_final r) in
  (total, base, final,
   if 0 <? base
   then Some (inject_Z (Z.of_nat final) / inject_Z (Z.of_nat base) * 100)%Q
   else None).

(** Lines 290 to 295 *)
Definition display_cols (all_cols : list string) : list string :=
  if existsb (String.eqb score_col) all_cols
  then score_col :: filter (fun c => negb (String.eqb c score_col)) all_cols
  else all_cols.

(** Lines 318 to 320, on the values of the column 'Ad name'. *)
Definition ad_counts (s : Series) : list (pyval * nat) :=
  let names := tolist (series_dropna s) in
  sort_values_descending
    (value_counts (fun a b => match a, b with
                              | PStr x, PStr y => String.eqb x y
                              | PNum x, PNum y => float_same x y
                              | _, _ => false
                              end) names).

End AppAdvanced.

(** ** app.py *)

Module App.

Definition col_map : list (string * string) :=
  [ ("date", "测试日期"); ("country", "国家"); ("install", "Install(AF)");
    ("ctr", "CTR"); ("cvr", "CVR"); ("cpi", "CPI"); ("cpm", "CPM");
    ("spend", "Spend"); ("roi", "ROI1");
    ("impression", "Impression"); ("click", "Click") ].

Definition field (key : string) : string :=
  match lookup col_map key with
  | Some name => name
  | None => EmptyString
  end.

Record Sidebar : Type := {
  multiselect_date : list pyval;
  multiselect_country : list pyval;
  number_input_install : Z
}.

(** Lines 56 to 79 *)
Definition widget {A : Type} (df : DataFrame) (key : string) (value : A) : option A :=
  match get_col df (field key) with
  | Some _ => Some value
  | None => None
  end.

(** Lines 57 and 70: the options of a multiselect, which are also its
    default selection. *)
Definition options (s : Series) : result (list pyval) :=
  sorted (tolist (series_unique (series_dropna s))).

(** Line 84 *)
Definition max_install (install_series : list float64) : result Z :=
  if notna_any install_series
  then int_of_float (max_skipna install_series)
  else Ok 1000%Z.

(** Lines 82 to 94: the widget is called with the bounds 0 and
    [max_install] and the default 0. *)
Definition install_widget (df : DataFrame) (chosen : Z) : result (option Z) :=
  match get_col df (field "install") with
  | Some s =>
      install_series <- clean_numeric_column s ;;
      max_install <- max_install install_series ;;
      min_install <- St.number_input_int 0 max_install 0 chosen ;;
      Ok (Some min_install)
  | None => Ok None
  end.

(** Lines 97 to 107 *)
Definition query (df : DataFrame) (sel_date sel_country : option (list pyval))
  (min_install : option Z) : result (list bool) :=
  let query := repeat true (nrows df) in
  let query :=
    match sel_date, get_col df (field "date") with
    | Some sel, Some s => band query (isin s sel)
    | _, _ => query
    end in
  let query :=
    match sel_country, get_col df (field "country") with
    | Some sel, Some s => band query (isin s sel)
    | _, _ => query
    end in
  match min_install, get_col df (field "install") with
  | Some n, Some s =>
      install_series <- clean_numeric_column s ;;
      Ok (band query (map (fun x => fge x (of_int n)) install_series))
  | _, _ => Ok query
  end.

(** The dtype of the mask of lines 97 to 107. *)
Definition query_dtype (df : DataFrame) (sel_date sel_country : option (list pyval))
  (min_install : option Z) : mask_dtype :=
  let dtype := ones_dtype (nrows df) in
  let dtype :=
    match sel_date, get_col df (field "date") with
    | Some _, Some _ => dtype_bool
    | _, _ => dtype
    end in
  let dtype :=
    match sel_country, get_col df (field "country") with
    | Some _, Some _ => dtype_bool
    | _, _ => dtype
    end in
  match min_install, get_col df (field "install") with
  | Some _, Some _ => dtype_bool
  | _, _ => dtype
  end.

(** Lines 56 to 109: [df_sel] *)
Definition main (df : DataFrame) (ui : Sidebar) : result DataFrame :=
  let sel_date := widget df "date" (multiselect_date ui) in
  let sel_country := widget df "country" (multiselect_country ui) in
  min_install <- install_widget df (number_input_install ui) ;;
  q <- query df sel_date sel_country min_install ;;
  Ok (getitem df (query_dtype df sel_date sel_country min_install) q).






(** Lines 114 to 117: the two counts, and the share kept in percent when
    the frame has rows. *)
Definition overview (df df_sel : DataFrame) : nat * nat * option Q :=
  (nrows df, nrows df_sel,
   if 0 <? nrows df
   then Some (inject_Z (Z.of_nat (nrows df_sel)) / inject_Z (Z.of_nat (nrows df)) * 100)%Q
   else None).

End App.

(** ** Definitions used to state the properties *)

(** The float64 that one string becomes under [errors='coerce']. *)
Definition coerced (s : string) : float64 :=
  match s with
  | EmptyString => NaN
  | String _ _ =>
      match floatify s with
      | Some x => x
      | None => NaN
      end
  end.

(** Normalization of one element of an object column, as
    [clean_numeric_column] computes it. *)
Definition normalize (o : obj) : float64 :=
  coerced (clean_text (match o with Str s => s | Null => "nan" end)).

(** The normalization of a textual value in the words of its
    description: take out every '%', '$' and ',', trim the white space
    around what is left, read it as a number; Missing when it is empty
    or does not read. *)
Definition is_symbol (c : ascii) : bool :=
  Ascii.eqb c "%" || Ascii.eqb c "$" || Ascii.eqb c ",".

Fixpoint without_symbols (s : string) : string :=
  match s with
  | EmptyString => EmptyString
  | String c s' =>
      if is_symbol c then without_symbols s' else String c (without_symbols s')
  end.

Fixpoint drop_spaces (l : list ascii) : list ascii :=
  match l with
  | [] => []
  | c :: l' => if isspace c then drop_spaces l' else l
  end.

Definition trimmed (s : string) : string :=
  string_of_list_ascii
    (rev (drop_spaces (rev (drop_spaces (list_ascii_of_string s))))).

Definition Missing : float64 := NaN.

Definition normalize_text (s : string) : float64 :=
  let t := trimmed (without_symbols s) in
  if String.eqb t EmptyString then Missing
  else match floatify t with
       | Some x => x
       | None => Missing
       end.

(** The values [clean_numeric_column] returns, column by dtype. *)
Definition cleaned_values (s : Series) : list float64 :=
  match s with
  | ObjSeries v => map normalize v
  | NumSeries v => v
  | IntSeries v => map of_int v
  end.

(** The valid (non-Missing) normalized values of a column of a frame;
    [None] when the frame has no such column. *)
Definition valid_values (df : DataFrame) (name : string) : option (list float64) :=
  match get_col df name with
  | Some s => Some (dropna (cleaned_values s))
  | None => None
  end.




(** A scoring rule counts when its column is in the frame and has at
    least one valid normalized value. *)
Definition available (df : DataFrame) (config : AppAdvanced.metric) : bool :=
  match valid_values df (AppAdvanced.col config) with
  | Some (_ :: _) => true
  | _ => false
  end.

Definition available_rules (df : DataFrame) : nat :=
  List.length (filter (fun kc => available df (snd kc)) AppAdvanced.metrics).

Definition between (lo hi : Z) (x : Z) : Prop := (lo <= x <= hi)%Z.

(** The entry [calculate_score] stores for a column. *)
Definition entry_of (df : DataFrame) (name : string) : option float64 :=
  match valid_values df name with
  | Some (x :: l) => Some (median (x :: l))
  | _ => None
  end.

(** The dict of medians [calculate_score] returns. *)
Definition medians_of (df : DataFrame) : AppAdvanced.benchmark :=
  [ ("ctr", entry_of df "CTR"); ("cvr", entry_of df "CVR");
    ("retention", entry_of df "次留"); ("cpm", entry_of df "CPM");
    ("cpi", entry_of df "CPI") ].

(** The scores after the rules in [items] have been added to [scores]. *)
Fixpoint total_points (df : DataFrame) (medians : AppAdvanced.benchmark)
  (items : list (string * AppAdvanced.metric)) (scores : list Z) : list Z :=
  match items with
  | [] => scores
  | (key, config) :: items' =>
      match get_col df (AppAdvanced.col config), lookup medians key with
      | Some s, Some (Some med) =>
          total_points df medians items'
            (map2 Z.add scores
               (AppAdvanced.points (AppAdvanced.direction_of config)
                  (cleaned_values s) med))
      | _, _ => total_points df medians items' scores
      end
  end.

(** The scores [calculate_score] returns. *)
Definition scores_of (df : DataFrame) : list Z :=
  total_points df (medians_of df) AppAdvanced.metrics (repeat 0%Z (nrows df)).

(** A rule is applied by the second loop when its column is there and
    its median is not None. *)
Definition applied (df : DataFrame) (medians : AppAdvanced.benchmark)
  (kc : string * AppAdvanced.metric) : bool :=
  match get_col df (AppAdvanced.col (snd kc)), lookup medians (fst kc) with
  | Some _, Some (Some _) => true
  | _, _ => false
  end.


(** A frame with a single column, rows labelled from 0. *)
Definition one_column (name : string) (s : Series) : DataFrame :=
  {| index := seq 0 (len s); columns := [(name, s)] |}.

(** Three creatives, the first best on every metric. *)
Definition three_creatives : DataFrame :=
  {| index := seq 0 3;
     columns :=
       [ ("CTR", ObjSeries [Str "10%"; Str "1%"; Str "5%"]);
         ("CVR", ObjSeries [Str "3%"; Str "1%"; Str "2%"]);
         ("次留", ObjSeries [Str "40%"; Str "20%"; Str "30%"]);
         ("CPM", ObjSeries [Str "$0.50"; Str "$2.00"; Str "$1.00"]) ] |}.

(** One set-membership filter applied on its own: the rows whose value
    in the column of [key] is in [sel]; the frame itself when it has no
    such column. *)
Definition filter_isin (key : string) (sel : list pyval) (df : DataFrame) : DataFrame :=
  match get_col df (AppAdvanced.field key) with
  | Some s => boolean_index df (isin s sel)
  | None => df
  end.

(** The frame the Stage-1 mask of [app_advanced.py] selects as a
    boolean mask.  It is the snapshot, except for a frame without rows
    that has neither a date nor a country column (see [stage_one]). *)
Definition snapshot_of (df : DataFrame) (dates countries : list pyval) : DataFrame :=
  boolean_index df
    (AppAdvanced.query_date_country df
       (AppAdvanced.widget df "date" dates)
       (AppAdvanced.widget df "country" countries)).

(** The Stage-1 snapshot of [app_advanced.py] before scoring: what
    [df[query_date_country]] is for the mask and its dtype. *)
Definition stage_one (df : DataFrame) (dates countries : list pyval) : DataFrame :=
  getitem df
    (AppAdvanced.query_date_country_dtype df
       (AppAdvanced.widget df "date" dates)
       (AppAdvanced.widget df "country" countries))
    (AppAdvanced.query_date_country df
       (AppAdvanced.widget df "date" dates)
       (AppAdvanced.widget df "country" countries)).

(** The snapshot with the score column attached. *)
Definition scored (df1 : DataFrame) : DataFrame :=
  if 0 <? nrows df1
  then set_col df1 AppAdvanced.score_col (IntSeries (scores_of df1))
  else df1.

(** The mask [query_base] returns. *)
Definition base_mask (df1 : DataFrame) (min_install : option Z)
  (min_cpi : option float64) : list bool :=
  let query := repeat true (nrows df1) in
  let query :=
    match min_install, get_col df1 (AppAdvanced.field "install") with
    | Some n, Some s => band query (map (fun x => fge x (of_int n)) (cleaned_values s))
    | _, _ => query
    end in
  match min_cpi, get_col df1 (AppAdvanced.field "cpi") with
  | Some c, Some s => band query (map (fun x => fle x c) (cleaned_values s))
  | _, _ => query
  end.

(** A small campaign table with every column the scripts read. *)
Definition campaign : DataFrame :=
  {| index := seq 0 4;
     columns :=
       [ ("测试日期", ObjSeries [Str "2024-01-01"; Str "2024-01-01"; Str "2024-01-02"; Str "2024-01-02"]);
         ("国家", ObjSeries [Str "US"; Str "JP"; Str "US"; Str "BR"]);
         ("Install(AF)", ObjSeries [Str "1,200"; Str "n/a"; Str "300"; Str "45"]);
         ("CPI", ObjSeries [Str "$1.50"; Str "$0.80"; Null; Str "$2.10"]);
         ("CTR", ObjSeries [Str "5%"; Str "10%"; Str "1%"; Str "7%"]);
         ("CVR", ObjSeries [Str "2%"; Str "1%"; Str "3%"; Str "2.5%"]);
         ("次留", ObjSeries [Str "30%"; Str "40%"; Str "20%"; Str "35%"]);
         ("CPM", ObjSeries [Str "$1.00"; Str "$2.00"; Str "$0.50"; Str "$0.75"]) ] |}.

(** The frame [score_filter] returns. *)
Definition final_of (base : DataFrame) (slider : Z) : DataFrame :=
  match 0 <? nrows base, get_col base AppAdvanced.score_col with
  | true, Some (IntSeries (x :: v)) =>
      let max_score := fold_left Z.max v x in
      let min_score := if (max_score =? 0)%Z then 0%Z else slider in
      boolean_index base (map (fun y => (min_score <=? y)%Z) (x :: v))
  | _, _ => empty_frame
  end.

(** The Stage-2 frame of a scored snapshot. *)
Definition stage_two (snap : DataFrame) (install : Z) (cpi : float64) : DataFrame :=
  getitem snap
    (AppAdvanced.query_base_dtype snap
       (AppAdvanced.widget snap "install" install)
       (AppAdvanced.widget snap "cpi" cpi))
    (base_mask snap
       (AppAdvanced.widget snap "install" install)
       (AppAdvanced.widget snap "cpi" cpi)).

(** What a run of [app_advanced.py] that completes leaves in its
    variables. *)
Definition outcome_of (df : DataFrame) (ui : AppAdvanced.Sidebar) : AppAdvanced.Outcome :=
  let snap := stage_one df (AppAdvanced.multiselect_date ui)
                (AppAdvanced.multiselect_country ui) in
  let base :=
    stage_two (scored snap) (AppAdvanced.number_input_install ui)
      (AppAdvanced.number_input_cpi ui) in
  {| AppAdvanced.df_date_country_filtered := scored snap;
     AppAdvanced.scores := if 0 <? nrows snap then scores_of snap else [];
     AppAdvanced.medians := if 0 <? nrows snap then medians_of snap else [];
     AppAdvanced.df_base_filtered := base;
     AppAdvanced.df_final := final_of base (AppAdvanced.slider_score ui) |}.

(** The value of column [name] in the row at position [i] normalizes to
    Missing. *)
Definition normalizes_to_missing (df : DataFrame) (name : string) (i : nat) : Prop :=
  exists s xs,
    get_col df name = Some s /\
    clean_numeric_column s = Ok xs /\
    nth_error xs i = Some Missing.

(** The install widget of a frame is created: the frame has no install
    column, or the largest valid install count is a number whose integer
    part is between 0 and the largest safe integer (1000 stands in when
    there is no valid count). *)
Definition install_accepted (df : DataFrame) : bool :=
  match get_col df (AppAdvanced.field "install") with
  | Some s =>
      match AppAdvanced.max_install (cleaned_values s) with
      | Ok n => (0 <=? n)%Z && (n <=? St.MAX_SAFE_INTEGER)%Z
      | Raise _ => false
      end
  | None => true
  end.

(** The CPI widget of a frame is created: the frame has no CPI column,
    or the largest valid CPI is a number that is not negative (10 stands
    in when there is no valid CPI). *)
Definition cpi_accepted (df : DataFrame) : bool :=
  match get_col df (AppAdvanced.field "cpi") with
  | Some s =>
      match AppAdvanced.max_cpi (cleaned_values s) with
      | Fin q => Qle_bool 0 q
      | _ => false
      end
  | None => true
  end.


(** A mask of dtype object has no element. *)
Definition sound_dtype (df : DataFrame) (dtype : mask_dtype) : Prop :=
  dtype = dtype_object -> nrows df = 0.

(** An exception was raised. *)
Definition raises {A : Type} (m : result A) : Prop := exists e, m = Raise e.

(** A value beats the median of its metric: strictly above it for a
    metric where higher is better, strictly below otherwise. *)
Definition beats (d : AppAdvanced.direction) (x m : float64) : bool :=
  match d with
  | AppAdvanced.higher => fgt x m
  | AppAdvanced.lower => flt x m
  end.

(** The point row [i] earns from one rule, given the medians. *)
Definition rule_point (df : DataFrame) (medians : AppAdvanced.benchmark)
  (i : nat) (kc : string * AppAdvanced.metric) : Z :=
  match get_col df (AppAdvanced.col (snd kc)), lookup medians (fst kc) with
  | Some s, Some (Some med) =>
      match nth_error (cleaned_values s) i with
      | Some x => Z.b2z (beats (AppAdvanced.direction_of (snd kc)) x med)
      | None => 0%Z
      end
  | _, _ => 0%Z
  end.

(** Row [i] has a valid value in the column of a rule. *)
Definition has_value (df : DataFrame) (i : nat) (kc : string * AppAdvanced.metric) : bool :=
  match get_col df (AppAdvanced.col (snd kc)) with
  | Some s =>
      match nth_error (cleaned_values s) i with
      | Some x => negb (isna x)
      | None => false
      end
  | None => false
  end.

Definition total (l : list Z) : Z := fold_right Z.add 0%Z l.

(** Wherever the first mask keeps a row, so does the second. *)
Definition implies (b' b : bool) : Prop := b' = true -> b = true.

(** The texts of an object column, empty fields left out. *)
Fixpoint texts (v : list obj) : list string :=
  match v with
  | [] => []
  | Str a :: v' => a :: texts v'
  | Null :: v' => texts v'
  end.

(** A text and its count as a row of the table of counts. *)
Definition name_entry (kc : string * nat) : pyval * nat := (PStr (fst kc), snd kc).

(** The order [sorted] leaves two texts, or two numbers, in: the first
    may stay first unless the second is below it. *)
Definition text_in_order (x y : string) : bool := negb (String.ltb y x).

Definition number_in_order (x y : float64) : bool := negb (flt y x).



(** A selection made of texts only, as the options of a text column
    are. *)
Definition is_text (p : pyval) : bool :=
  match p with PStr _ => true | PNum _ => false end.

(** The white space of a text, among the code points below 256: the
    controls 9 to 13 and 28 to 31, the space, the next-line control and
    the no-break space. *)
Definition white_space : list nat :=
  [9; 10; 11; 12; 13; 28; 29; 30; 31; 32; 133; 160].

Definition is_white (c : ascii) : bool :=
  existsb (Nat.eqb (nat_of_ascii c)) white_space.

Fixpoint drop_white (l : list ascii) : list ascii :=
  match l with
  | [] => []
  | c :: l' => if is_white c then drop_white l' else l
  end.

(** A text without the white space around it. *)
Definition stripped (s : string) : string :=
  string_of_list_ascii
    (rev (drop_white (rev (drop_white (list_ascii_of_string s))))).

(** Decimal numerals, the way they are written: an optional sign, digits
    with an optional point among them, and an optional exponent made of
    the letter e or E, an optional sign and digits. *)
Module NumberText.

Inductive sign : Type :=
| no_sign
| plus_sign
| minus_sign.

Record numeral : Type := {
  num_sign : sign;
  whole : list nat;                       (* the digits before the point *)
  fraction : option (list nat);           (* the digits after the point *)
  exponent : option (bool * sign * list nat)   (* capital E, sign, digits *)
}.

Definition fraction_digits (n : numeral) : list nat :=
  match fraction n with
  | Some f => f
  | None => []
  end.

Definition digits (ds : list nat) : Prop := Forall (fun d => d < 10) ds.

(** There is at least one digit before the exponent, and at least one
    in the exponent when there is one. *)
Definition proper (n : numeral) : Prop :=
  digits (whole n) /\ digits (fraction_digits n) /\
  whole n ++ fraction_digits n <> [] /\
  match exponent n with
  | Some (_, _, e) => digits e /\ e <> []
  | None => True
  end.

Definition sign_text (s : sign) : string :=
  match s with
  | no_sign => EmptyString
  | plus_sign => "+"
  | minus_sign => "-"
  end.

Fixpoint digits_text (ds : list nat) : string :=
  match ds with
  | [] => EmptyString
  | d :: ds' => String (ascii_of_nat (48 + d)) (digits_text ds')
  end.

Definition fraction_text (f : option (list nat)) : string :=
  match f with
  | Some ds => String "." (digits_text ds)
  | None => EmptyString
  end.

Definition exponent_text (e : option (bool * sign * list nat)) : string :=
  match e with
  | Some (capital, s, ds) =>
      String (if capital then "E" else "e") (sign_text s ++ digits_text ds)
  | None => EmptyString
  end.

(** The text of a numeral. *)
Definition spell (n : numeral) : string :=
  sign_text (num_sign n) ++ digits_text (whole n) ++
  fraction_text (fraction n) ++ exponent_text (exponent n).

(** The number read so far with one more digit. *)
Definition more (a : Z) (d : nat) : Z := (a * 10 + Z.of_nat d)%Z.

(** The natural number a row of digits denotes. *)
Definition number (ds : list nat) : Z := fold_left more ds 0%Z.

Definition signed (s : sign) (z : Z) : Z :=
  match s with
  | minus_sign => (- z)%Z
  | _ => z
  end.

Definition exponent_value (e : option (bool * sign * list nat)) : Z :=
  match e with
  | Some (_, s, ds) => signed s (number ds)
  | None => 0%Z
  end.

(** The rational a numeral denotes. *)
Definition value (n : numeral) : Q :=
  (inject_Z (signed (num_sign n) (number (whole n ++ fraction_digits n))) *
   10 ^ (exponent_value (exponent n)
         - Z.of_nat (List.length (fraction_digits n))))%Q.

(** A letter of a text is the given small letter or its capital. *)
Definition is_letter (small : ascii) (c : ascii) : bool :=
  Ascii.eqb c small || (nat_of_ascii c + 32 =? nat_of_ascii small).

Fixpoint is_word (word : string) (t : string) : bool :=
  match word, t with
  | EmptyString, EmptyString => true
  | String w word', String c t' => is_letter w c && is_word word' t'
  | _, _ => false
  end.

(** The words that read as an infinity, in small or capital letters. *)
Definition infinity_word (t : string) : bool :=
  is_word "inf" t || is_word "infinity" t.

Definition plus_infinity (t : string) : bool :=
  infinity_word t ||
  match t with
  | String "+" t' => infinity_word t'
  | _ => false
  end.

Definition minus_infinity (t : string) : bool :=
  match t with
  | String "-" t' => infinity_word t'
  | _ => false
  end.

(** No digit comes next in a text. *)
Definition no_digit_ahead (s : string) : Prop :=
  match s with
  | String c _ => is_digit c = false
  | EmptyString => True
  end.

End NumberText.

(** What a text reads as, when it is read as a decimal float: the value
    of the numeral it spells, an infinity when it is one of the words
    for one, and Missing in every other case. *)
Definition reads_as (t : string) (x : float64) : Prop :=
  (forall n, NumberText.proper n -> t = NumberText.spell n ->
             exists q, x = Fin q /\ (q == NumberText.value n)%Q) /\
  (forall q, x = Fin q ->
             exists n, NumberText.proper n /\ t = NumberText.spell n /\
                       (q == NumberText.value n)%Q) /\
  (x = PInf <-> NumberText.plus_infinity t = true) /\
  (x = NInf <-> NumberText.minus_infinity t = true) /\
  (t = EmptyString -> x = Missing).

(** The normalization of an element of a text column in the words of its
    description: every '%', '$' and ',' is taken out, the white space
    around what is left is trimmed, and the rest is read as a decimal
    float; an empty field is Missing. *)
Definition normalized (o : obj) (x : float64) : Prop :=
  match o with
  | Str s => reads_as (stripped (without_symbols s)) x
  | Null => x = Missing
  end.

(** ** Cleaning of numeric columns *)

Section Cleaning.

Lemma mapM_ok {A B : Type} (f : A -> result B) (g : A -> B) (l : list A) :
  (forall x, f x = Ok (g x)) -> mapM f l = Ok (map g l).
Proof.
  intros Hf. induction l as [|x l IH]; simpl.
  - reflexivity.
  - rewrite Hf, IH. reflexivity.
Qed.

Lemma to_numeric_str_coerce (s : string) :
  to_numeric_str errors_coerce s = Ok (coerced s).
Proof.
  destruct s as [|c s]; simpl; [reflexivity|].
  destruct (floatify (String c s)); reflexivity.
Qed.

Lemma to_numeric_coerce (v : list string) :
  to_numeric errors_coerce v = Ok (map coerced v).
Proof. apply mapM_ok, to_numeric_str_coerce. Qed.

Lemma clean_numeric_column_ok (s : Series) :
  clean_numeric_column s = Ok (cleaned_values s).
Proof.
  destruct s as [v|v|v]; simpl; try reflexivity.
  rewrite to_numeric_coerce. unfold astype_str. rewrite !map_map. reflexivity.
Qed.

Lemma cleaned_values_length (s : Series) :
  List.length (cleaned_values s) = len s.
Proof.
  destruct s as [v|v|v]; unfold len; simpl; now rewrite ?length_map.
Qed.

Lemma replaces_without_symbols (s : string) :
  str_replace "," EmptyString
    (str_replace "$" EmptyString (str_replace "%" EmptyString s)) =
  without_symbols s.
Proof.
  induction s as [|c s IH]; [reflexivity|].
  cbn [str_replace without_symbols]. unfold is_symbol.
  destruct (Ascii.eqb_spec c "%") as [->|H1]; [exact IH|].
  cbn [str_replace].
  destruct (Ascii.eqb_spec c "$") as [->|H2]; [exact IH|].
  cbn [str_replace].
  destruct (Ascii.eqb_spec c ",") as [->|H3]; [exact IH|].
  simpl. now rewrite IH.
Qed.

Lemma lstrip_drop_spaces (s : string) :
  list_ascii_of_string (lstrip s) = drop_spaces (list_ascii_of_string s).
Proof.
  induction s as [|c s IH]; simpl; [reflexivity|].
  destruct (isspace c); [exact IH|reflexivity].
Qed.

Lemma drop_spaces_snoc (l : list ascii) (c : ascii) :
  drop_spaces (l ++ [c]) =
  match drop_spaces l with
  | [] => if isspace c then [] else [c]
  | r => r ++ [c]
  end.
Proof.
  induction l as [|a l IH]; simpl; [reflexivity|].
  destruct (isspace a); [exact IH|reflexivity].
Qed.

Lemma rstrip_drop_spaces (s : string) :
  list_ascii_of_string (rstrip s) =
  rev (drop_spaces (rev (list_ascii_of_string s))).
Proof.
  induction s as [|c s IH]; [reflexivity|].
  cbn [rstrip list_ascii_of_string rev].
  rewrite drop_spaces_snoc.
  destruct (drop_spaces (rev (list_ascii_of_string s))) as [|x xs] eqn:D.
  - destruct (rstrip s) as [|a r] eqn:E; [|discriminate IH].
    destruct (isspace c); reflexivity.
  - destruct (rstrip s) as [|a r] eqn:E.
    + exfalso. simpl in IH. symmetry in IH. apply app_eq_nil in IH.
      destruct IH as [_ IH]. discriminate.
    + change (list_ascii_of_string (String c (String a r)))
        with (c :: list_ascii_of_string (String a r)).
      rewrite IH, rev_app_distr. reflexivity.
Qed.

Lemma strip_trimmed (s : string) : strip s = trimmed s.
Proof.
  unfold strip, trimmed.
  rewrite <- lstrip_drop_spaces, <- rstrip_drop_spaces.
  now rewrite string_of_list_ascii_of_string.
Qed.

Lemma clean_text_spec (s : string) : clean_text s = trimmed (without_symbols s).
Proof. unfold clean_text. now rewrite replaces_without_symbols, strip_trimmed. Qed.

Lemma normalize_str (s : string) : normalize (Str s) = normalize_text s.
Proof.
  unfold normalize, normalize_text. rewrite clean_text_spec.
  destruct (trimmed (without_symbols s)); reflexivity.
Qed.

End Cleaning.

Lemma without_symbols_idem (s : string) :
  without_symbols (without_symbols s) = without_symbols s.
Proof.
  induction s as [|c s IH]; simpl; [reflexivity|].
  destruct (is_symbol c) eqn:E; [exact IH|].
  simpl. now rewrite E, IH.
Qed.

(** ** Reading a text as a number *)

Section ReadingNumbers.

Import NumberText.

Lemma isspace_white (c : ascii) : isspace c = is_white c.
Proof.
  destruct c as [b0 b1 b2 b3 b4 b5 b6 b7].
  destruct b0, b1, b2, b3, b4, b5, b6, b7; reflexivity.
Qed.

Lemma isspace_ascii_white (c : ascii) : isspace_ascii c = true -> is_white c = true.
Proof.
  destruct c as [b0 b1 b2 b3 b4 b5 b6 b7].
  destruct b0, b1, b2, b3, b4, b5, b6, b7; cbn; intros H;
    try reflexivity; discriminate H.
Qed.

Lemma drop_spaces_white (l : list ascii) : drop_spaces l = drop_white l.
Proof.
  induction l as [|c l IH]; [reflexivity|]. cbn [drop_spaces drop_white].
  rewrite isspace_white. now rewrite IH.
Qed.

Lemma trimmed_stripped (s : string) : trimmed s = stripped s.
Proof. unfold trimmed, stripped. now rewrite !drop_spaces_white. Qed.

Lemma drop_white_head (l : list ascii) (c : ascii) (r : list ascii) :
  drop_white l = c :: r -> is_white c = false.
Proof.
  induction l as [|a l IH]; cbn [drop_white]; [discriminate|].
  destruct (is_white a) eqn:E; [exact IH|]. intros [= <- _]. exact E.
Qed.

Lemma drop_white_suffix (l : list ascii) : exists p, l = p ++ drop_white l.
Proof.
  induction l as [|a l [p IH]]; [now exists []|]. cbn [drop_white].
  destruct (is_white a).
  - exists (a :: p). cbn. now rewrite <- IH.
  - now exists [].
Qed.

(** A stripped text neither starts nor ends with white space. *)
Lemma stripped_first (s : string) (c : ascii) (r : string) :
  stripped s = String c r -> is_white c = false.
Proof.
  unfold stripped. intros H.
  apply (f_equal list_ascii_of_string) in H.
  rewrite list_ascii_of_string_of_list_ascii in H.
  cbn [list_ascii_of_string] in H.
  destruct (drop_white_suffix (rev (drop_white (list_ascii_of_string s))))
    as [p Hp].
  apply (f_equal (@rev ascii)) in Hp. rewrite rev_involutive, rev_app_distr in Hp.
  rewrite H in Hp. cbn [app] in Hp.
  now apply drop_white_head in Hp.
Qed.

Lemma stripped_last (s : string) (r : string) (c : ascii) :
  stripped s = (r ++ String c EmptyString)%string -> is_white c = false.
Proof.
  unfold stripped. intros H.
  apply (f_equal list_ascii_of_string) in H.
  rewrite list_ascii_of_string_of_list_ascii in H.
  apply (f_equal (@rev ascii)) in H. rewrite rev_involutive in H.
  assert (E : list_ascii_of_string (r ++ String c EmptyString) =
              list_ascii_of_string r ++ [c]).
  { clear. induction r as [|a r IH]; [reflexivity|]. cbn. now rewrite IH. }
  rewrite E, rev_app_distr in H. cbn [rev app] in H.
  now apply drop_white_head in H.
Qed.


Lemma append_empty (s : string) : (s ++ EmptyString)%string = s.
Proof. induction s as [|c s IH]; [reflexivity|]. cbn. now rewrite IH. Qed.

Lemma append_assoc (a b c : string) :
  ((a ++ b) ++ c)%string = (a ++ (b ++ c))%string.
Proof. induction a as [|x a IH]; [reflexivity|]. cbn. now rewrite IH. Qed.

Lemma digit_of_nat (d : nat) :
  d < 10 ->
  is_digit (ascii_of_nat (48 + d)) = true /\
  digit_val (ascii_of_nat (48 + d)) = Z.of_nat d.
Proof.
  intros H. do 10 (destruct d as [|d]; [split; reflexivity|]). lia.
Qed.

Lemma digit_inv (c : ascii) :
  is_digit c = true ->
  exists d, d < 10 /\ c = ascii_of_nat (48 + d) /\ digit_val c = Z.of_nat d.
Proof.
  unfold is_digit, digit_val. cbv zeta. intros H.
  apply andb_true_iff in H. destruct H as [H1 H2].
  apply Nat.leb_le in H1, H2. exists (nat_of_ascii c - 48).
  split; [lia|]. split; [|lia].
  replace (48 + (nat_of_ascii c - 48)) with (nat_of_ascii c) by lia.
  symmetry. apply ascii_nat_embedding.
Qed.

Lemma number_app (a b : list nat) :
  number (a ++ b) = fold_left more b (number a).
Proof. unfold number. apply fold_left_app. Qed.

Lemma scan_digits_text (ds : list nat) :
  digits ds ->
  forall rest acc k,
    no_digit_ahead rest ->
    scan_digits acc k (digits_text ds ++ rest) =
    (fold_left more ds acc, k + List.length ds, rest).
Proof.
  induction 1 as [|d ds Hd Hds IH]; intros rest acc k Hrest.
  - cbn [digits_text append fold_left List.length]. rewrite Nat.add_0_r.
    destruct rest as [|c r]; [reflexivity|]. cbn in Hrest.
    cbn [scan_digits]. now rewrite Hrest.
  - cbn [digits_text append fold_left List.length scan_digits].
    destruct (digit_of_nat d Hd) as [-> ->].
    rewrite IH by assumption. now rewrite Nat.add_succ_r.
Qed.

Lemma scan_digits_inv (s : string) :
  forall acc k m n r,
    scan_digits acc k s = (m, n, r) ->
    exists ds,
      digits ds /\ s = (digits_text ds ++ r)%string /\
      m = fold_left more ds acc /\ n = k + List.length ds /\
      no_digit_ahead r.
Proof.
  induction s as [|c s IH]; intros acc k m n r H.
  - cbn in H. injection H as <- <- <-. exists []. cbn.
    repeat split; [constructor|lia].
  - cbn [scan_digits] in H. destruct (is_digit c) eqn:E.
    + destruct (digit_inv c E) as [d [Hd [-> Hv]]].
      rewrite Hv in H. apply IH in H.
      destruct H as [ds [H1 [H2 [H3 [H4 H5]]]]].
      exists (d :: ds). cbn [digits_text append fold_left List.length].
      repeat split; try assumption.
      * now constructor.
      * now rewrite H2.
      * lia.
    + injection H as <- <- <-. exists []. cbn [digits_text append fold_left List.length].
      repeat split; [constructor|lia|exact E].
Qed.

(** What the scanner does at a digit, at a point and at a sign. *)
Lemma at_digit (c : ascii) (r : string) :
  is_digit c = true ->
  skip_spaces (String c r) = String c r /\
  scan_sign (String c r) = (false, String c r).
Proof.
  destruct c as [b0 b1 b2 b3 b4 b5 b6 b7].
  destruct b0, b1, b2, b3, b4, b5, b6, b7; intros H;
    try discriminate H; split; reflexivity.
Qed.

Lemma head_of_digits (ds : list nat) (rest : string) :
  digits ds -> ds <> [] ->
  exists c r, (digits_text ds ++ rest)%string = String c r /\ is_digit c = true.
Proof.
  intros H Hne. destruct H as [|d ds Hd Hds]; [congruence|].
  cbn [digits_text append]. eexists. eexists. split; [reflexivity|].
  now destruct (digit_of_nat d Hd).
Qed.

Lemma decimal_value (m e : Z) : (decimal m e == inject_Z m * 10 ^ e)%Q.
Proof.
  unfold decimal. destruct (Z.leb_spec 0 e) as [H|H].
  - rewrite inject_Z_mult. apply Qmult_comp; [reflexivity|].
    now apply Zpower_Qpower.
  - rewrite Qred_correct.
    assert (Hp : (0 < 10 ^ (- e))%Z) by (apply Z.pow_pos_nonneg; lia).
    rewrite Qmake_Qdiv. rewrite Z2Pos.id by exact Hp.
    rewrite Zpower_Qpower by lia.
    unfold Qdiv. apply Qmult_comp; [reflexivity|].
    rewrite <- Qpower_opp. now rewrite Z.opp_involutive.
Qed.


Lemma no_digit_after_whole (f : option (list nat)) (e : option (bool * sign * list nat)) :
  no_digit_ahead (fraction_text f ++ exponent_text e).
Proof.
  destruct f as [fd|]; [reflexivity|].
  destruct e as [[[[] sg] ds]|]; reflexivity.
Qed.

Lemma no_digit_after_fraction (e : option (bool * sign * list nat)) :
  no_digit_ahead (exponent_text e).
Proof. destruct e as [[[[] sg] ds]|]; reflexivity. Qed.

Lemma scan_fraction_text (m : Z) (f : option (list nat))
  (e : option (bool * sign * list nat)) :
  digits (match f with Some fd => fd | None => [] end) ->
  scan_fraction m (fraction_text f ++ exponent_text e) =
  (fold_left more (match f with Some fd => fd | None => [] end) m,
   List.length (match f with Some fd => fd | None => [] end),
   exponent_text e).
Proof.
  intros Hf. destruct f as [fd|].
  - cbn [fraction_text append scan_fraction].
    rewrite scan_digits_text; [reflexivity|assumption|apply no_digit_after_fraction].
  - cbn [fraction_text append fold_left List.length].
    destruct e as [[[[] sg] ds]|]; reflexivity.
Qed.

Lemma scan_sign_text (sg : sign) (rest : string) :
  (sg = no_sign -> exists c r, rest = String c r /\ (is_digit c = true \/ c = "."%char)) ->
  scan_sign (sign_text sg ++ rest) =
  (match sg with minus_sign => true | _ => false end, rest) /\
  skip_spaces (sign_text sg ++ rest) = (sign_text sg ++ rest)%string.
Proof.
  intros H. destruct sg; try (split; reflexivity).
  destruct (H eq_refl) as [c [r [-> [Hc| ->]]]]; [|split; reflexivity].
  cbn [sign_text append]. destruct (at_digit c r Hc) as [H1 H2]. now split.
Qed.

Lemma scan_exponent_text (e : option (bool * sign * list nat)) :
  match e with
  | Some (_, _, ds) => digits ds /\ ds <> []
  | None => True
  end ->
  scan_exponent (exponent_text e) = (exponent_value e, EmptyString).
Proof.
  destruct e as [[[capital sg] ds]|]; [|reflexivity].
  intros [Hd Hne]. cbn [exponent_text scan_exponent exponent_value].
  assert (Hc : (Ascii.eqb (if capital then "E" else "e") "e"
                || Ascii.eqb (if capital then "E" else "e") "E")%char = true)
    by (destruct capital; reflexivity).
  rewrite Hc.
  assert (Hs : scan_sign (sign_text sg ++ digits_text ds) =
               (match sg with minus_sign => true | _ => false end, digits_text ds)).
  { apply scan_sign_text. intros _.
    destruct (head_of_digits ds EmptyString Hd Hne) as [c [r [Hc' Hdig]]].
    rewrite append_empty in Hc'. exists c, r. split; [assumption|now left]. }
  rewrite Hs.
  rewrite <- (append_empty (digits_text ds)).
  rewrite scan_digits_text by (assumption || exact I).
  cbn [Nat.add]. destruct ds as [|d ds]; [congruence|].
  cbn [List.length]. fold (number (d :: ds)). now destruct sg.
Qed.

(** Every numeral is read, and read as its value. *)
Lemma to_double_spell (n : numeral) :
  proper n ->
  to_double (spell n) =
  Some (decimal (signed (num_sign n) (number (whole n ++ fraction_digits n)))
          (exponent_value (exponent n)
           - Z.of_nat (List.length (fraction_digits n)))).
Proof.
  destruct n as [sg w f e]. unfold proper, spell, fraction_digits.
  cbn [num_sign whole fraction exponent].
  intros [Hw [Hf [Hne He]]].
  assert (Hhead : sg = no_sign ->
                  exists c r,
                    (digits_text w ++ fraction_text f ++ exponent_text e)%string =
                    String c r /\ (is_digit c = true \/ c = "."%char)).
  { intros _. destruct w as [|d w].
    - destruct f as [fd|]; [|now cbn in Hne].
      cbn [digits_text fraction_text append]. eexists. eexists.
      split; [reflexivity|now right].
    - destruct (head_of_digits (d :: w)
                  (fraction_text f ++ exponent_text e) Hw) as [c [r [H1 H2]]];
        [discriminate|].
      exists c, r. split; [assumption|now left]. }
  destruct (scan_sign_text sg _ Hhead) as [Hsign Hskip].
  unfold to_double. rewrite Hskip, Hsign.
  rewrite scan_digits_text by (assumption || apply no_digit_after_whole).
  rewrite scan_fraction_text by assumption.
  fold (number w). rewrite <- number_app.
  destruct (0 + List.length w + List.length (match f with Some fd => fd | None => [] end))
    as [|k] eqn:Ek.
  { exfalso. apply Hne. rewrite Nat.add_0_l, <- length_app in Ek.
    now apply length_zero_iff_nil. }
  rewrite scan_exponent_text by assumption.
  cbn [skip_spaces]. now destruct sg.
Qed.

Lemma scan_sign_inv (t : string) (neg : bool) (s1 : string) :
  scan_sign t = (neg, s1) ->
  exists sg, t = (sign_text sg ++ s1)%string /\
             neg = match sg with minus_sign => true | _ => false end.
Proof.
  destruct t as [|c t]; [intros [= <- <-]; now exists no_sign|].
  destruct c as [b0 b1 b2 b3 b4 b5 b6 b7].
  destruct b0, b1, b2, b3, b4, b5, b6, b7; intros [= <- <-];
    first [now exists no_sign | now exists plus_sign | now exists minus_sign].
Qed.

Lemma scan_fraction_inv (m : Z) (s2 : string) (m2 : Z) (n2 : nat) (s3 : string) :
  scan_fraction m s2 = (m2, n2, s3) ->
  exists f,
    digits (match f with Some fd => fd | None => [] end) /\
    s2 = (fraction_text f ++ s3)%string /\
    m2 = fold_left more (match f with Some fd => fd | None => [] end) m /\
    n2 = List.length (match f with Some fd => fd | None => [] end).
Proof.
  destruct s2 as [|c r]; [intros [= <- <- <-]; exists None; repeat split; constructor|].
  destruct (Ascii.eqb_spec c ".") as [->|Hc].
  - cbn [scan_fraction]. intros H. apply scan_digits_inv in H.
    destruct H as [ds [H1 [H2 [H3 [H4 _]]]]].
    exists (Some ds). cbn [fraction_text append]. repeat split; try assumption.
    now rewrite H2.
  - intros H. exists None.
    assert (E : scan_fraction m (String c r) = (m, 0, String c r)).
    { clear H. destruct c as [b0 b1 b2 b3 b4 b5 b6 b7].
      destruct b0, b1, b2, b3, b4, b5, b6, b7; try reflexivity.
      now contradiction Hc. }
    rewrite E in H. injection H as <- <- <-.
    repeat split. constructor.
Qed.

Lemma scan_exponent_inv (s3 : string) (ex : Z) (s4 : string) :
  scan_exponent s3 = (ex, s4) ->
  exists e,
    s3 = (exponent_text e ++ s4)%string /\ ex = exponent_value e /\
    match e with
    | Some (_, _, ds) => digits ds /\ ds <> []
    | None => True
    end.
Proof.
  destruct s3 as [|c r]; [intros [= <- <-]; now exists None|].
  cbn [scan_exponent].
  destruct (Ascii.eqb c "e" || Ascii.eqb c "E")%char eqn:Ec;
    [|intros [= <- <-]; now exists None].
  destruct (scan_sign r) as [neg t] eqn:Es.
  destruct (scan_digits 0 0 t) as [[n k] r'] eqn:Ed.
  destruct k as [|k]; [intros [= <- <-]; now exists None|].
  intros [= <- <-].
  apply scan_sign_inv in Es. destruct Es as [sg [-> ->]].
  apply scan_digits_inv in Ed. destruct Ed as [ds [H1 [-> [H3 [H4 _]]]]].
  assert (Hcap : exists capital : bool, c = if capital then "E"%char else "e"%char).
  { apply orb_true_iff in Ec. destruct Ec as [Ec|Ec]; apply Ascii.eqb_eq in Ec;
      subst c; [now exists false|now exists true]. }
  destruct Hcap as [capital ->].
  exists (Some (capital, sg, ds)). cbn [exponent_text exponent_value append].
  split; [now rewrite append_assoc|]. split.
  - fold (number ds) in H3. rewrite H3. now destruct sg.
  - split; [assumption|]. intros ->. cbn in H4. lia.
Qed.

Lemma skip_spaces_all (s : string) :
  skip_spaces s = EmptyString ->
  s = EmptyString \/
  exists r c, s = (r ++ String c EmptyString)%string /\ isspace_ascii c = true.
Proof.
  induction s as [|a s IH]; [now left|]. cbn [skip_spaces].
  destruct (isspace_ascii a) eqn:E; [|discriminate].
  intros H. right. destruct (IH H) as [->|[r [c [-> Hc]]]].
  - now exists EmptyString, a.
  - now exists (String a r), c.
Qed.

(** Whatever is read as a number in a text that has no white space
    around it is a numeral, read as its value. *)
Lemma to_double_inv (t : string) (q : Q) :
  (forall c r, t = String c r -> is_white c = false) ->
  (forall r c, t = (r ++ String c EmptyString)%string -> is_white c = false) ->
  to_double t = Some q ->
  exists n,
    proper n /\ t = spell n /\
    q = decimal (signed (num_sign n) (number (whole n ++ fraction_digits n)))
          (exponent_value (exponent n)
           - Z.of_nat (List.length (fraction_digits n))).
Proof.
  intros Hfirst Hlast. unfold to_double.
  assert (Hskip : skip_spaces t = t).
  { destruct t as [|c r]; [reflexivity|]. cbn [skip_spaces].
    destruct (isspace_ascii c) eqn:E; [|reflexivity].
    apply isspace_ascii_white in E. now rewrite (Hfirst c r eq_refl) in E. }
  rewrite Hskip.
  destruct (scan_sign t) as [neg s1] eqn:E1.
  destruct (scan_digits 0 0 s1) as [[m1 n1] s2] eqn:E2.
  destruct (scan_fraction m1 s2) as [[m2 n2] s3] eqn:E3.
  destruct (n1 + n2) as [|k] eqn:E4; [discriminate|].
  destruct (scan_exponent s3) as [ex s4] eqn:E5.
  destruct (skip_spaces s4) eqn:E6; [|discriminate].
  intros [= <-].
  apply scan_sign_inv in E1. destruct E1 as [sg [Ht ->]].
  apply scan_digits_inv in E2. destruct E2 as [w [Hw [Hs1 [Hm1 [Hn1 _]]]]].
  apply scan_fraction_inv in E3. destruct E3 as [f [Hf [Hs2 [Hm2 Hn2]]]].
  apply scan_exponent_inv in E5. destruct E5 as [e [Hs3 [Hex He]]].
  assert (Hall : t = (sign_text sg ++ digits_text w ++ fraction_text f
                      ++ exponent_text e ++ s4)%string)
    by (now rewrite Ht, Hs1, Hs2, Hs3).
  assert (Hs4 : s4 = EmptyString).
  { destruct (skip_spaces_all s4 E6) as [H|[r [c [H Hc]]]]; [assumption|].
    exfalso. apply isspace_ascii_white in Hc.
    rewrite (Hlast (sign_text sg ++ digits_text w ++ fraction_text f
                    ++ exponent_text e ++ r)%string c) in Hc; [discriminate|].
    rewrite Hall, H. now rewrite !append_assoc. }
  subst s4. rewrite append_empty in Hall.
  exists {| num_sign := sg; whole := w; fraction := f; exponent := e |}.
  unfold proper, spell, fraction_digits.
  cbn [num_sign whole fraction exponent].
  split; [|split].
  - split; [assumption|]. split; [assumption|]. split; [|assumption].
    intros H. apply (f_equal (@List.length nat)) in H.
    rewrite length_app in H. cbn in H. lia.
  - exact Hall.
  - rewrite number_app. fold (number w) in Hm1. rewrite <- Hm1, <- Hm2, <- Hex, <- Hn2.
    now destruct sg.
Qed.


Lemma lower_letter (w c : ascii) :
  In w ["i"; "n"; "f"; "t"; "y"]%char ->
  Ascii.eqb (lower c) w = is_letter w c.
Proof.
  intros H. destruct c as [b0 b1 b2 b3 b4 b5 b6 b7].
  repeat (destruct H as [<-|H];
          [destruct b0, b1, b2, b3, b4, b5, b6, b7; reflexivity|]).
  destruct H.
Qed.

Lemma eqb_lowercase_word (word : string) :
  forallb (fun w => existsb (Ascii.eqb w) ["i"; "n"; "f"; "t"; "y"]%char)
    (list_ascii_of_string word) = true ->
  forall t, String.eqb (lowercase t) word = is_word word t.
Proof.
  induction word as [|w word IH]; intros H t.
  - now destruct t.
  - cbn [list_ascii_of_string forallb] in H. apply andb_true_iff in H.
    destruct H as [Hw Hword].
    apply existsb_exists in Hw. destruct Hw as [x [Hin Hx]].
    apply Ascii.eqb_eq in Hx. subst x.
    destruct t as [|c t]; [reflexivity|].
    cbn [lowercase String.eqb is_word].
    rewrite lower_letter by assumption. rewrite IH by assumption.
    now destruct (is_letter w c).
Qed.

Lemma eqb_lowercase_signed (sg : ascii) (word : string) (t : string) :
  sg = "+"%char \/ sg = "-"%char ->
  forallb (fun w => existsb (Ascii.eqb w) ["i"; "n"; "f"; "t"; "y"]%char)
    (list_ascii_of_string word) = true ->
  String.eqb (lowercase t) (String sg word) =
  match t with
  | String c t' => Ascii.eqb c sg && is_word word t'
  | EmptyString => false
  end.
Proof.
  intros Hsg H. destruct t as [|c t]; [reflexivity|].
  cbn [lowercase String.eqb]. rewrite eqb_lowercase_word by assumption.
  assert (E : Ascii.eqb (lower c) sg = Ascii.eqb c sg).
  { destruct c as [b0 b1 b2 b3 b4 b5 b6 b7].
    destruct Hsg as [->| ->];
      destruct b0, b1, b2, b3, b4, b5, b6, b7; reflexivity. }
  rewrite E. now destruct (Ascii.eqb c sg).
Qed.

Lemma is_word_cons (w : ascii) (word : string) (c : ascii) (t : string) :
  is_word (String w word) (String c t) = is_letter w c && is_word word t.
Proof. reflexivity. Qed.

Lemma special_spec (t : string) :
  special t =
  if plus_infinity t then Some PInf
  else if minus_infinity t then Some NInf
  else None.
Proof.
  unfold special. cbv zeta.
  rewrite (eqb_lowercase_word "inf" eq_refl).
  rewrite (eqb_lowercase_word "infinity" eq_refl).
  rewrite (eqb_lowercase_signed "+" "inf" t (or_introl eq_refl) eq_refl).
  rewrite (eqb_lowercase_signed "+" "infinity" t (or_introl eq_refl) eq_refl).
  rewrite (eqb_lowercase_signed "-" "inf" t (or_intror eq_refl) eq_refl).
  rewrite (eqb_lowercase_signed "-" "infinity" t (or_intror eq_refl) eq_refl).
  unfold plus_infinity, minus_infinity, infinity_word.
  destruct t as [|c t']; [reflexivity|].
  rewrite !is_word_cons.
  generalize (is_word "nf" t'), (is_word "nfinity" t'),
    (is_word "inf" t'), (is_word "infinity" t').
  intros x1 x2 x3 x4.
  destruct c as [b0 b1 b2 b3 b4 b5 b6 b7].
  destruct b0, b1, b2, b3, b4, b5, b6, b7; cbn; try reflexivity;
    destruct x1, x2, x3, x4; reflexivity.
Qed.

Lemma infinity_word_head (t : string) :
  infinity_word t = true ->
  exists c r, t = String c r /\ (c = "i"%char \/ c = "I"%char).
Proof.
  unfold infinity_word. destruct t as [|c r]; [discriminate|].
  rewrite !is_word_cons. intros H. exists c, r. split; [reflexivity|].
  assert (Hc : is_letter "i" c = true).
  { destruct (is_letter "i" c); [reflexivity|discriminate H]. }
  clear H. destruct c as [b0 b1 b2 b3 b4 b5 b6 b7].
  destruct b0, b1, b2, b3, b4, b5, b6, b7; try discriminate Hc; tauto.
Qed.

(** The words for infinity are not read as numbers. *)
Lemma infinity_not_number (t : string) :
  plus_infinity t = true \/ minus_infinity t = true -> to_double t = None.
Proof.
  unfold plus_infinity, minus_infinity. intros [H|H].
  - apply orb_true_iff in H. destruct H as [H|H].
    + destruct (infinity_word_head t H) as [c [r [-> [->| ->]]]]; reflexivity.
    + destruct t as [|c t']; [discriminate|].
      destruct c as [b0 b1 b2 b3 b4 b5 b6 b7].
      destruct b0, b1, b2, b3, b4, b5, b6, b7; try discriminate H.
      destruct (infinity_word_head t' H) as [c [r [-> [->| ->]]]]; reflexivity.
  - destruct t as [|c t']; [discriminate|].
    destruct c as [b0 b1 b2 b3 b4 b5 b6 b7].
    destruct b0, b1, b2, b3, b4, b5, b6, b7; try discriminate H.
    destruct (infinity_word_head t' H) as [c [r [-> [->| ->]]]]; reflexivity.
Qed.

Lemma minus_not_plus (t : string) :
  minus_infinity t = true -> plus_infinity t = false.
Proof.
  unfold plus_infinity, minus_infinity, infinity_word.
  destruct t as [|c t']; [discriminate|]. rewrite !is_word_cons.
  destruct c as [b0 b1 b2 b3 b4 b5 b6 b7].
  destruct b0, b1, b2, b3, b4, b5, b6, b7; intros H; try discriminate H;
    reflexivity.
Qed.

(** Reading a text that has no white space around it. *)
Lemma read_text (t : string) :
  (forall c r, t = String c r -> is_white c = false) ->
  (forall r c, t = (r ++ String c EmptyString)%string -> is_white c = false) ->
  reads_as t
    (if String.eqb t EmptyString then Missing
     else match floatify t with
          | Some x => x
          | None => Missing
          end).
Proof.
  intros Hfirst Hlast. unfold reads_as, floatify.
  destruct (to_double t) as [q|] eqn:Ed.
  - assert (Ht : String.eqb t EmptyString = false).
    { destruct t; [discriminate Ed|reflexivity]. }
    rewrite Ht. split; [|split; [|split; [|split]]].
    + intros n Hn Hs. rewrite Hs, (to_double_spell n Hn) in Ed.
      injection Ed as <-. eexists. split; [reflexivity|apply decimal_value].
    + intros q' [= <-].
      destruct (to_double_inv t q Hfirst Hlast Ed) as [n [Hn [Hs ->]]].
      exists n. split; [assumption|]. split; [assumption|apply decimal_value].
    + split; [discriminate|]. intros H.
      rewrite infinity_not_number in Ed by now left. discriminate Ed.
    + split; [discriminate|]. intros H.
      rewrite infinity_not_number in Ed by now right. discriminate Ed.
    + intros ->. discriminate Ed.
  - rewrite special_spec.
    split; [|split; [|split; [|split]]].
    + intros n Hn Hs. rewrite Hs, (to_double_spell n Hn) in Ed. discriminate Ed.
    + intros q H. exfalso.
      destruct (String.eqb t EmptyString); [discriminate H|].
      destruct (plus_infinity t); [discriminate H|].
      destruct (minus_infinity t); discriminate H.
    + destruct t as [|c r]; [split; discriminate|]. cbn [String.eqb].
      destruct (plus_infinity (String c r)); [tauto|].
      destruct (minus_infinity (String c r)); split; discriminate.
    + destruct t as [|c r]; [split; discriminate|]. cbn [String.eqb].
      destruct (minus_infinity (String c r)) eqn:Em.
      * rewrite (minus_not_plus _ Em). tauto.
      * destruct (plus_infinity (String c r)); split; discriminate.
    + now intros ->.
Qed.

Lemma normalize_text_reads (s : string) :
  reads_as (stripped (without_symbols s)) (normalize_text s).
Proof.
  unfold normalize_text. cbv zeta. rewrite trimmed_stripped.
  apply read_text.
  - intros c r. apply stripped_first.
  - intros r c. apply stripped_last.
Qed.

End ReadingNumbers.

(** C5.  On a text column [clean_numeric_column] returns, without
    raising, one value per element, and the value of an element is its
    normalization as it is described: every '%', '$' and ',' is taken
    out, the white space around the rest is trimmed, and what is left
    is read as a decimal float: a numeral gives its value, one of the
    words for infinity gives the infinity, and anything else, the empty
    text included, gives Missing; an empty field is Missing. *)
Theorem text_normalization (v : list obj) :
  (exists xs,
     clean_numeric_column (ObjSeries v) = Ok xs /\ Forall2 normalized v xs) /\
  clean_numeric_column
    (ObjSeries [Str " $1,234.50 "; Str "-3e2%"; Str "+.5"; Str "1e";
                Str "12 5"; Str "abc"; Str "%"; Str "Inf"; Null]) =
  Ok [Fin (2469 # 2); Fin (-300); Fin (1 # 2); Missing;
      Missing; Missing; Missing; PInf; Missing].
Proof.
  split; [|vm_compute; reflexivity].
  rewrite clean_numeric_column_ok. eexists. split; [reflexivity|].
  cbn [cleaned_values]. induction v as [|o v IH]; cbn [map]; constructor.
  - destruct o as [s|]; [|reflexivity].
    cbn [normalized]. rewrite normalize_str. apply normalize_text_reads.
  - exact IH.
Qed.

(** C6, as stated, fails: an infinity in a numeric column is returned
    as it is, not as Missing. *)
Lemma infinity_is_not_missing :
  is_finite PInf = false /\
  clean_numeric_column (NumSeries [PInf]) = Ok [PInf] /\
  clean_numeric_column (NumSeries [PInf]) <> Ok [Missing].
Proof.
  split; [reflexivity|]. split; [reflexivity|].
  simpl. intros H. discriminate H.
Qed.

(** C6, amended.  A column that is numeric already is returned
    unchanged, whatever its values: finite numbers and infinities stay
    as they are, and the only values later dropped as Missing are the
    NaN ones. *)
Theorem numeric_values_unchanged (v : list float64) :
  clean_numeric_column (NumSeries v) = Ok v /\
  (forall n : list Z, clean_numeric_column (IntSeries n) = Ok (map of_int n)) /\
  dropna v = filter (fun x => match x with NaN => false | _ => true end) v /\
  dropna [Fin 1; PInf; NaN; NInf] = [Fin 1; PInf; NInf].
Proof.
  split; [reflexivity|]. split; [reflexivity|]. split; [|reflexivity].
  unfold dropna. apply filter_ext. intros [q| | |]; reflexivity.
Qed.

(** C7.  Normalizing the numeric result of a normalization gives that
    result again, and a numeric column normalizes to itself; "12.5%",
    "$3.40", "1,234" and "abc" become 12.5, 3.40, 1234 and Missing. *)
Theorem normalization_idempotent :
  (forall s : Series,
     (v <- clean_numeric_column s ;; clean_numeric_column (NumSeries v)) =
     clean_numeric_column s) /\
  (forall v : list float64, clean_numeric_column (NumSeries v) = Ok v) /\
  clean_numeric_column
    (ObjSeries [Str "12.5%"; Str "$3.40"; Str "1,234"; Str "abc"]) =
  Ok [Fin (25 # 2); Fin (17 # 5); Fin 1234; Missing].
Proof.
  split; [|split].
  - intros s. rewrite clean_numeric_column_ok. reflexivity.
  - reflexivity.
  - vm_compute. reflexivity.
Qed.

(** C10.  "1,2,3" and "$5$0" are not numbers as they stand, yet they
    normalize to 123 and 50: the three symbols are removed wherever they
    are, so a text normalizes like the text without them. *)
Theorem symbols_removed_anywhere :
  floatify "1,2,3" = None /\
  floatify "$5$0" = None /\
  clean_numeric_column (ObjSeries [Str "1,2,3"; Str "$5$0"]) =
  Ok [Fin 123; Fin 50] /\
  (forall s : string,
     clean_numeric_column (ObjSeries [Str s]) =
     clean_numeric_column (ObjSeries [Str (without_symbols s)])).
Proof.
  split; [reflexivity|]. split; [reflexivity|]. split.
  - vm_compute. reflexivity.
  - intros s. rewrite !clean_numeric_column_ok. cbn [cleaned_values map].
    rewrite !normalize_str. unfold normalize_text.
    now rewrite without_symbols_idem.
Qed.

(** ** Sorting and the median *)

Section Median.

Lemma Qle_bool_total (a b : Q) : Qle_bool a b = false -> Qle_bool b a = true.
Proof.
  intros H. apply Qle_bool_iff. destruct (Qlt_le_dec b a) as [L|L].
  - now apply Qlt_le_weak.
  - apply Qle_bool_iff in L. congruence.
Qed.







Lemma dropna_valid (v : list float64) :
  Forall (fun y => isna y = false) (dropna v).
Proof.
  apply Forall_forall. intros y Hy. apply filter_In in Hy.
  destruct Hy as [_ Hy]. now apply negb_true_iff in Hy.
Qed.



End Median.

(** ** Benchmarks and scores *)

Section Scoring.

Import AppAdvanced.

Variable df : DataFrame.

Lemma column_median_ok (name : string) :
  column_median df name = Ok (entry_of df name).
Proof.
  unfold column_median, entry_of, valid_values.
  destruct (get_col df name) as [s|]; [|reflexivity].
  rewrite clean_numeric_column_ok. cbn [bind].
  destruct (dropna (cleaned_values s)) as [|x l]; reflexivity.
Qed.

Lemma scores_loop_ok (medians : benchmark) (items : list (string * metric)) :
  forall scores,
    Forall (fun kc => lookup medians (fst kc) <> None) items ->
    scores_loop df medians items scores =
    Ok (total_points df medians items scores).
Proof.
  induction items as [|[key config] items IH]; intros scores H; [reflexivity|].
  inversion H as [|? ? Hk Hrest]; subst. cbn [fst] in Hk.
  cbn [scores_loop total_points].
  destruct (get_col df (col config)) as [s|]; [|now apply IH].
  unfold item. destruct (lookup medians key) as [[med|]|]; cbn [bind].
  - rewrite clean_numeric_column_ok. cbn [bind]. now apply IH.
  - now apply IH.
  - congruence.
Qed.

Lemma calculate_score_ok (cm : list (string * string)) :
  calculate_score df cm = Ok (scores_of df, medians_of df).
Proof.
  unfold calculate_score, metrics. cbn [medians_loop col].
  repeat (rewrite column_median_ok;
          cbn [bind medians_loop assign String.eqb Ascii.eqb Bool.eqb col]).
  rewrite scores_loop_ok; [reflexivity|].
  repeat constructor; cbn; discriminate.
Qed.


Lemma points_unit (d : direction) (cleaned : list float64) (m : float64) :
  Forall (between 0 1) (points d cleaned m).
Proof.
  apply Forall_forall. intros z Hz. unfold points in Hz.
  destruct d; apply in_map_iff in Hz; destruct Hz as [x [<- _]];
    unfold between; [destruct (fgt x m)|destruct (flt x m)]; simpl; lia.
Qed.

Lemma map2_add_between (lo hi : Z) (a b : list Z) :
  Forall (between lo hi) a -> Forall (between 0 1) b ->
  Forall (between lo (hi + 1)) (map2 Z.add a b).
Proof.
  intros Ha. revert b. induction Ha as [|x a Hx Ha IH]; intros b Hb.
  - constructor.
  - destruct b as [|y b]; [constructor|].
    inversion Hb as [|? ? Hy Hb']; subst. cbn [map2]. constructor.
    + unfold between in *. lia.
    + now apply IH.
Qed.

Lemma total_points_between (medians : benchmark) (items : list (string * metric)) :
  forall (scores : list Z) (lo hi : Z),
    Forall (between lo hi) scores ->
    Forall (between lo (hi + Z.of_nat (List.length (filter (applied df medians) items))))
      (total_points df medians items scores).
Proof.
  induction items as [|[key config] items IH]; intros scores lo hi H.
  - cbn. now rewrite Z.add_0_r.
  - cbn [total_points filter]. unfold applied at 1. cbn [fst snd].
    destruct (get_col df (col config)) as [s|].
    + destruct (lookup medians key) as [[med|]|].
      * cbn [List.length]. rewrite Nat2Z.inj_succ.
        replace (hi + Z.succ (Z.of_nat (List.length (filter (applied df medians) items))))%Z
          with (hi + 1 + Z.of_nat (List.length (filter (applied df medians) items)))%Z by lia.
        apply IH. apply map2_add_between; [assumption|apply points_unit].
      * now apply IH.
      * now apply IH.
    + now apply IH.
Qed.

Lemma applied_available :
  filter (applied df (medians_of df)) metrics =
  filter (fun kc => available df (snd kc)) metrics.
Proof.
  apply filter_ext_in. intros kc Hin.
  unfold metrics in Hin. cbn [In] in Hin.
  destruct Hin as [<-|[<-|[<-|[<-|[]]]]];
    unfold applied, available, medians_of, entry_of, valid_values;
    cbn [fst snd col lookup String.eqb Ascii.eqb Bool.eqb];
    (destruct (get_col df _) as [s|]; [|reflexivity]);
    destruct (dropna (cleaned_values s)); reflexivity.
Qed.

Lemma repeat_between (n : nat) : Forall (between 0 0) (repeat 0%Z n).
Proof.
  induction n; simpl; constructor; [unfold between; lia|assumption].
Qed.

Lemma scores_of_between :
  Forall (between 0 (Z.of_nat (available_rules df))) (scores_of df).
Proof.
  unfold scores_of, available_rules. rewrite <- applied_available.
  apply (total_points_between (medians_of df) metrics _ 0%Z 0%Z).
  apply repeat_between.
Qed.

Lemma available_rules_le : available_rules df <= 4.
Proof.
  unfold available_rules.
  etransitivity; [apply filter_length_le|]. reflexivity.
Qed.

End Scoring.


(** C2.  Every score [calculate_score] returns is an integer from 0 to
    the number of rules, among ctr, cvr, retention and cpm, whose column
    is in the frame with at least one valid normalized value; that
    number is at most 4, and with all four available a score of 4 is
    reached. *)
Theorem score_bounds :
  (forall df : DataFrame,
     exists scores medians,
       AppAdvanced.calculate_score df AppAdvanced.col_map = Ok (scores, medians) /\
       Forall (between 0 (Z.of_nat (available_rules df))) scores /\
       available_rules df <= 4) /\
  available_rules three_creatives = 4 /\
  (exists medians,
     AppAdvanced.calculate_score three_creatives AppAdvanced.col_map =
     Ok ([4; 0; 0]%Z, medians)).
Proof.
  split; [|split].
  - intros df. exists (scores_of df), (medians_of df).
    split; [apply calculate_score_ok|].
    split; [apply scores_of_between|apply available_rules_le].
  - vm_compute. reflexivity.
  - eexists. vm_compute. reflexivity.
Qed.

(** ** Masks, sublists and the row view *)

Section Masks.

Context {A : Type}.

Lemma Sublist_refl (l : list A) : Sublist l l.
Proof. induction l; constructor; assumption. Qed.

Lemma Sublist_nil_l (l : list A) : Sublist [] l.
Proof. induction l; constructor; assumption. Qed.

Lemma Sublist_trans (l1 l2 l3 : list A) :
  Sublist l1 l2 -> Sublist l2 l3 -> Sublist l1 l3.
Proof.
  intros H12 H23. revert l1 H12.
  induction H23 as [|x l2 l3 H23 IH|x l2 l3 H23 IH]; intros l1 H12.
  - assumption.
  - constructor. now apply IH.
  - inversion H12; subst.
    + apply Sublist_skip. now apply IH.
    + apply Sublist_keep. now apply IH.
Qed.

Lemma Sublist_incl (l1 l2 : list A) : Sublist l1 l2 -> incl l1 l2.
Proof.
  induction 1 as [|x l1 l2 H IH|x l1 l2 H IH]; intros y Hy.
  - assumption.
  - right. now apply IH.
  - destruct Hy as [<-|Hy]; [now left|right; now apply IH].
Qed.

Lemma Sublist_NoDup (l1 l2 : list A) : Sublist l1 l2 -> NoDup l2 -> NoDup l1.
Proof.
  induction 1 as [|x l1 l2 H IH|x l1 l2 H IH]; intros Hn.
  - assumption.
  - inversion Hn; subst. now apply IH.
  - inversion Hn as [|? ? Hx Hn']; subst. constructor; [|now apply IH].
    intros Hin. apply Hx. eapply Sublist_incl; eassumption.
Qed.

Lemma mask_select_sublist (m : list bool) (l : list A) :
  Sublist (mask_select m l) l.
Proof.
  revert l. induction m as [|b m IH]; intros [|x l]; cbn [mask_select];
    try apply Sublist_nil_l.
  destruct b; [apply Sublist_keep|apply Sublist_skip]; apply IH.
Qed.

Lemma mask_select_nil (m : list bool) : mask_select m (@nil A) = [].
Proof. destruct m; reflexivity. Qed.

Lemma mask_select_twice (d c : list bool) (l : list A) :
  mask_select (mask_select d c) (mask_select d l) = mask_select (band d c) l.
Proof.
  revert c l. induction d as [|b d IH]; intros c l; [reflexivity|].
  destruct c as [|e c].
  - cbn. destruct l as [|x l]; [reflexivity|].
    cbn [mask_select]. destruct b; reflexivity.
  - destruct l as [|x l].
    + cbn [band map2 mask_select]. destruct b; cbn [mask_select];
        now rewrite ?mask_select_nil.
    + cbn [band map2 mask_select]. destruct b; cbn [andb mask_select].
      * destruct e; now rewrite <- IH.
      * apply IH.
Qed.

Lemma mask_select_excluded (m : list bool) (l : list A) (i : nat) (x : A) :
  NoDup l -> nth_error l i = Some x -> nth_error m i <> Some true ->
  ~ In x (mask_select m l).
Proof.
  revert m i. induction l as [|y l IH]; intros m i Hn Hi Hm.
  - now rewrite mask_select_nil.
  - inversion Hn as [|? ? Hy Hn']; subst.
    destruct m as [|b m]; [intros []|].
    destruct i as [|i]; cbn in Hi, Hm.
    + injection Hi as ->. destruct b; [congruence|].
      cbn [mask_select]. intros Hin. apply Hy.
      eapply Sublist_incl; [apply mask_select_sublist|eassumption].
    + assert (Hx : ~ In x (mask_select m l)) by (eapply IH; eassumption).
      assert (Hxy : x <> y).
      { intros ->. apply Hy. eapply nth_error_In; eassumption. }
      cbn [mask_select]. destruct b; [|assumption].
      intros [E|Hin]; [now apply Hxy|now apply Hx].
Qed.

End Masks.

Section MasksMore.

Lemma mask_select_map {A B : Type} (f : A -> B) (m : list bool) (l : list A) :
  mask_select m (map f l) = map f (mask_select m l).
Proof.
  revert l. induction m as [|b m IH]; intros [|x l]; cbn [mask_select map];
    try reflexivity.
  destruct b; cbn [map]; now rewrite IH.
Qed.

Lemma mask_select_map2 {A B C : Type} (f : A -> B -> C) (m : list bool)
  (a : list A) (b : list B) :
  mask_select m (map2 f a b) = map2 f (mask_select m a) (mask_select m b).
Proof.
  revert a b. induction m as [|e m IH]; intros a b.
  - reflexivity.
  - destruct a as [|x a]; [reflexivity|].
    destruct b as [|y b].
    + cbn [map2 mask_select]. destruct e; [reflexivity|].
      now destruct (mask_select m a).
    + cbn [map2 mask_select]. destruct e; cbn [map2]; now rewrite IH.
Qed.

Lemma mask_select_repeat {A B : Type} (x : A) (m : list bool) (l : list B) :
  mask_select m (repeat x (List.length l)) =
  repeat x (List.length (mask_select m l)).
Proof.
  revert l. induction m as [|b m IH]; intros [|y l]; cbn; try reflexivity.
  destruct b; cbn; now rewrite IH.
Qed.

Lemma combine_map2 {A B : Type} (a : list A) (b : list B) :
  combine a b = map2 pair a b.
Proof.
  revert b. induction a as [|x a IH]; intros [|y b]; cbn; try reflexivity.
  now rewrite IH.
Qed.

Lemma band_comm (a b : list bool) : band a b = band b a.
Proof.
  unfold band. revert b. induction a as [|x a IH]; intros [|y b]; cbn;
    try reflexivity.
  now rewrite IH, andb_comm.
Qed.

Lemma band_true (n : nat) (m : list bool) :
  List.length m = n -> band (repeat true n) m = m.
Proof.
  intros <-. unfold band. induction m as [|b m IH]; cbn; [reflexivity|].
  now rewrite IH.
Qed.

Lemma band_length (a b : list bool) :
  List.length a = List.length b -> List.length (band a b) = List.length a.
Proof.
  unfold band. revert b. induction a as [|x a IH]; intros [|y b] H; cbn in *;
    try reflexivity; try discriminate.
  f_equal. apply IH. now injection H.
Qed.

Lemma band_not_true_l (a b : list bool) (i : nat) :
  nth_error a i <> Some true -> nth_error (band a b) i <> Some true.
Proof.
  unfold band. revert b i. induction a as [|x a IH]; intros b i H.
  - cbn. now destruct i.
  - destruct b as [|y b]; [cbn; now destruct i|].
    destruct i as [|i]; cbn in *.
    + destruct x; [congruence|discriminate].
    + now apply IH.
Qed.

Lemma band_not_true_r (a b : list bool) (i : nat) :
  nth_error b i <> Some true -> nth_error (band a b) i <> Some true.
Proof. rewrite band_comm. apply band_not_true_l. Qed.

End MasksMore.

(** ** Frames under boolean indexing *)

Section Frames.

Lemma mask_select_length {A B : Type} (m : list bool) (a : list A) (b : list B) :
  List.length a = List.length b ->
  List.length (mask_select m a) = List.length (mask_select m b).
Proof.
  revert a b. induction m as [|e m IH]; intros [|x a] [|y b] H; cbn in *;
    try reflexivity; try discriminate.
  injection H as H. destruct e; cbn; auto.
Qed.

Lemma cells_select (m : list bool) (s : Series) :
  cells (series_select m s) = mask_select m (cells s).
Proof. destruct s; cbn; now rewrite mask_select_map. Qed.

Lemma cleaned_values_select (m : list bool) (s : Series) :
  cleaned_values (series_select m s) = mask_select m (cleaned_values s).
Proof. destruct s; cbn; now rewrite ?mask_select_map. Qed.

Lemma isin_select (m : list bool) (s : Series) (sel : list pyval) :
  isin (series_select m s) sel = mask_select m (isin s sel).
Proof. destruct s; cbn; now rewrite mask_select_map. Qed.

Lemma isin_length (s : Series) (sel : list pyval) :
  List.length (isin s sel) = len s.
Proof. destruct s; unfold len; cbn; now rewrite !length_map. Qed.

Lemma lookup_map {V : Type} (f : V -> V) (d : list (string * V)) (name : string) :
  lookup (map (fun c => (fst c, f (snd c))) d) name = option_map f (lookup d name).
Proof.
  induction d as [|[k v] d IH]; cbn; [reflexivity|].
  destruct (String.eqb k name); [reflexivity|exact IH].
Qed.

Lemma get_col_boolean_index (df : DataFrame) (m : list bool) (name : string) :
  get_col (boolean_index df m) name =
  option_map (series_select m) (get_col df name).
Proof. unfold get_col, boolean_index. cbn. apply lookup_map. Qed.

Lemma lookup_assign_same {V : Type} (d : list (string * V)) (name : string) (v : V) :
  lookup (assign d name v) name = Some v.
Proof.
  induction d as [|[k v0] d IH]; cbn.
  - now rewrite String.eqb_refl.
  - destruct (String.eqb k name) eqn:E; cbn; rewrite E; [reflexivity|exact IH].
Qed.

Lemma lookup_assign_other {V : Type} (d : list (string * V)) (name other : string) (v : V) :
  name <> other -> lookup (assign d name v) other = lookup d other.
Proof.
  intros H. induction d as [|[k v0] d IH]; cbn.
  - destruct (String.eqb_spec name other); [contradiction|reflexivity].
  - destruct (String.eqb_spec k name) as [->|Hk]; cbn.
    + destruct (String.eqb_spec name other); [contradiction|reflexivity].
    + destruct (String.eqb k other); [reflexivity|exact IH].
Qed.

Lemma lookup_In {V : Type} (d : list (string * V)) (name : string) (v : V) :
  lookup d name = Some v -> In (name, v) d.
Proof.
  induction d as [|[k v0] d IH]; cbn; [discriminate|].
  destruct (String.eqb_spec k name) as [->|Hk].
  - intros [= ->]. now left.
  - intros H. right. now apply IH.
Qed.

Lemma aligned_col (df : DataFrame) (name : string) (s : Series) :
  aligned df -> get_col df name = Some s -> len s = nrows df.
Proof.
  intros Ha Hs. apply lookup_In in Hs.
  unfold aligned in Ha. rewrite Forall_forall in Ha. exact (Ha _ Hs).
Qed.

Lemma aligned_boolean_index (df : DataFrame) (m : list bool) :
  aligned df -> aligned (boolean_index df m).
Proof.
  unfold aligned, boolean_index, nrows. cbn. intros H.
  apply Forall_forall. intros c Hc. apply in_map_iff in Hc.
  destruct Hc as [[k s] [<- Hin]]. cbn.
  rewrite Forall_forall in H. specialize (H _ Hin). cbn in H.
  unfold len in *. rewrite cells_select. now apply mask_select_length.
Qed.

Lemma aligned_assign (n : nat) (d : list (string * Series)) (name : string) (s : Series) :
  Forall (fun c => len (snd c) = n) d -> len s = n ->
  Forall (fun c => len (snd c) = n) (assign d name s).
Proof.
  intros Hd Hs. induction Hd as [|[k v] d Hk Hd IH]; cbn.
  - now repeat constructor.
  - destruct (String.eqb k name); constructor; assumption.
Qed.

Lemma records_select (m : list bool) (cols : list (string * Series)) (idx : list nat) :
  records (map (fun c => (fst c, series_select m (snd c))) cols)
    (List.length (mask_select m idx)) =
  mask_select m (records cols (List.length idx)).
Proof.
  induction cols as [|[k s] cols IH]; cbn [records map fst snd].
  - symmetry. apply mask_select_repeat.
  - rewrite IH, cells_select. symmetry. apply mask_select_map2.
Qed.

Lemma rows_boolean_index (df : DataFrame) (m : list bool) :
  rows (boolean_index df m) = mask_select m (rows df).
Proof.
  unfold rows, boolean_index, nrows. cbn [index columns].
  rewrite records_select, !combine_map2. symmetry. apply mask_select_map2.
Qed.

Lemma rows_sublist (df : DataFrame) (m : list bool) :
  Sublist (rows (boolean_index df m)) (rows df).
Proof. rewrite rows_boolean_index. apply mask_select_sublist. Qed.

Lemma series_select_twice (d c : list bool) (s : Series) :
  series_select (mask_select d c) (series_select d s) = series_select (band d c) s.
Proof. destruct s; cbn; now rewrite mask_select_twice. Qed.

Lemma boolean_index_twice (df : DataFrame) (d c : list bool) :
  boolean_index (boolean_index df d) (mask_select d c) =
  boolean_index df (band d c).
Proof.
  unfold boolean_index. cbn [index columns]. f_equal.
  - apply mask_select_twice.
  - rewrite map_map. apply map_ext. intros [k s]. cbn.
    now rewrite series_select_twice.
Qed.

Lemma ones_dtype_sound (df : DataFrame) : sound_dtype df (ones_dtype (nrows df)).
Proof. unfold sound_dtype. destruct (nrows df); [reflexivity|discriminate]. Qed.

Lemma dtype_bool_sound (df : DataFrame) : sound_dtype df dtype_bool.
Proof. intros H. discriminate H. Qed.

Lemma getitem_index (df : DataFrame) (d : mask_dtype) (m : list bool) :
  sound_dtype df d -> index (getitem df d m) = mask_select m (index df).
Proof.
  destruct d; [reflexivity|]. intros H. specialize (H eq_refl).
  unfold nrows in H. cbn. destruct (index df); [|discriminate].
  now rewrite mask_select_nil.
Qed.

Lemma getitem_rows (df : DataFrame) (d : mask_dtype) (m : list bool) :
  sound_dtype df d -> rows (getitem df d m) = mask_select m (rows df).
Proof.
  destruct d; [intros _; apply rows_boolean_index|].
  intros H. specialize (H eq_refl). unfold rows, nrows in *. cbn [getitem index columns].
  destruct (index df); [|discriminate]. cbn. now rewrite mask_select_nil.
Qed.

Lemma getitem_aligned (df : DataFrame) (d : mask_dtype) (m : list bool) :
  aligned df -> aligned (getitem df d m).
Proof.
  destruct d; [apply aligned_boolean_index|]. intros _. constructor.
Qed.

Lemma getitem_nonempty (df : DataFrame) (d : mask_dtype) (m : list bool) :
  sound_dtype df d -> 0 < nrows (getitem df d m) ->
  getitem df d m = boolean_index df m.
Proof.
  destruct d; [reflexivity|]. intros H Hpos. specialize (H eq_refl).
  unfold nrows in *. cbn in Hpos. lia.
Qed.

End Frames.

(** ** Stage 1: the date and country filters *)

Section StageOne.

Lemma mask_select_all {A : Type} (l : list A) :
  mask_select (repeat true (List.length l)) l = l.
Proof. induction l as [|x l IH]; cbn; [reflexivity|now rewrite IH]. Qed.

Lemma series_select_all (n : nat) (s : Series) :
  len s = n -> series_select (repeat true n) s = s.
Proof.
  intros <-. destruct s as [v|v|v]; unfold len; cbn; rewrite length_map;
    now rewrite mask_select_all.
Qed.

Lemma boolean_index_all (df : DataFrame) :
  aligned df -> boolean_index df (repeat true (nrows df)) = df.
Proof.
  destruct df as [idx cols]. unfold aligned, boolean_index, nrows. cbn.
  intros H. f_equal; [apply mask_select_all|].
  induction H as [|[k s] cols Hs H IH]; cbn; [reflexivity|].
  cbn in Hs. now rewrite IH, series_select_all.
Qed.

Variable df : DataFrame.
Hypothesis df_aligned : aligned df.
Variables dates countries : list pyval.

Lemma filter_isin_commute :
  filter_isin "country" countries (filter_isin "date" dates df) =
  filter_isin "date" dates (filter_isin "country" countries df).
Proof.
  unfold filter_isin.
  destruct (get_col df (AppAdvanced.field "date")) as [sd|] eqn:Ed;
    destruct (get_col df (AppAdvanced.field "country")) as [sc|] eqn:Ec;
    rewrite ?get_col_boolean_index, ?Ed, ?Ec; cbn [option_map];
    try reflexivity.
  rewrite !isin_select, !boolean_index_twice. f_equal. apply band_comm.
Qed.

Lemma snapshot_sequential :
  snapshot_of df dates countries =
  filter_isin "country" countries (filter_isin "date" dates df).
Proof.
  unfold snapshot_of, filter_isin, AppAdvanced.query_date_country,
    AppAdvanced.widget.
  destruct (get_col df (AppAdvanced.field "date")) as [sd|] eqn:Ed;
    destruct (get_col df (AppAdvanced.field "country")) as [sc|] eqn:Ec;
    rewrite ?get_col_boolean_index, ?Ed, ?Ec; cbn [option_map].
  - rewrite isin_select, boolean_index_twice. f_equal. f_equal.
    apply band_true. rewrite isin_length. now apply aligned_col with (name := AppAdvanced.field "date").
  - f_equal. apply band_true. rewrite isin_length.
    now apply aligned_col with (name := AppAdvanced.field "date").
  - f_equal. apply band_true. rewrite isin_length.
    now apply aligned_col with (name := AppAdvanced.field "country").
  - now apply boolean_index_all.
Qed.

End StageOne.

(** C9.  On a frame as it is read, filtering by date then by country
    gives the same frame as filtering by country then by date, and it is
    the frame the mask [query_date_country] selects; its rows are rows
    of the parent in the parent's order.  [app.py] builds the same mask
    for its date and country filters. *)
Theorem date_country_filters_commute (df : DataFrame) (dates countries : list pyval) :
  well_formed df ->
  filter_isin "country" countries (filter_isin "date" dates df) =
  filter_isin "date" dates (filter_isin "country" countries df) /\
  snapshot_of df dates countries =
  filter_isin "country" countries (filter_isin "date" dates df) /\
  Sublist (rows (snapshot_of df dates countries)) (rows df) /\
  Sublist (index (snapshot_of df dates countries)) (index df) /\
  App.query df (App.widget df "date" dates) (App.widget df "country" countries) None =
  Ok (AppAdvanced.query_date_country df
        (AppAdvanced.widget df "date" dates)
        (AppAdvanced.widget df "country" countries)).
Proof.
  intros [_ Ha]. split; [apply filter_isin_commute|].
  split; [now apply snapshot_sequential|].
  split; [apply rows_sublist|].
  split; [apply mask_select_sublist|].
  unfold App.query, App.widget, AppAdvanced.query_date_country, AppAdvanced.widget.
  change (App.field "date") with (AppAdvanced.field "date").
  change (App.field "country") with (AppAdvanced.field "country").
  destruct (get_col df (AppAdvanced.field "date"));
    destruct (get_col df (AppAdvanced.field "country")); reflexivity.
Qed.

(** The two date and country filters on the campaign table. *)
Lemma date_country_filters_commute_witness :
  well_formed campaign /\
  snapshot_of campaign [PStr "2024-01-02"] [PStr "US"; PStr "BR"] =
  filter_isin "country" [PStr "US"; PStr "BR"]
    (filter_isin "date" [PStr "2024-01-02"] campaign).
Proof.
  split.
  - split; [reflexivity|repeat constructor].
  - apply (date_country_filters_commute campaign [PStr "2024-01-02"]
             [PStr "US"; PStr "BR"]).
    split; [reflexivity|repeat constructor].
Defined.

(** ** The whole run of [app_advanced.py] *)

Section Run.

Import AppAdvanced.

Lemma map2_length {A B C : Type} (f : A -> B -> C) (a : list A) (b : list B) :
  List.length a = List.length b -> List.length (map2 f a b) = List.length a.
Proof.
  revert b. induction a as [|x a IH]; intros [|y b] H; cbn in *;
    try reflexivity; try discriminate.
  f_equal. apply IH. now injection H.
Qed.

Lemma points_length (d : direction) (cleaned : list float64) (m : float64) :
  List.length (points d cleaned m) = List.length cleaned.
Proof. destruct d; cbn; apply length_map. Qed.

Lemma total_points_length (df : DataFrame) (medians : benchmark)
  (items : list (string * metric)) :
  aligned df ->
  forall scores,
    List.length scores = nrows df ->
    List.length (total_points df medians items scores) = nrows df.
Proof.
  intros Ha. induction items as [|[key config] items IH]; intros scores H;
    [assumption|].
  cbn [total_points].
  destruct (get_col df (col config)) as [s|] eqn:E; [|now apply IH].
  destruct (lookup medians key) as [[med|]|]; try now apply IH.
  apply IH. rewrite map2_length; [assumption|].
  rewrite points_length, cleaned_values_length, H.
  symmetry. eapply aligned_col; eassumption.
Qed.

Lemma scores_of_length (df : DataFrame) :
  aligned df -> List.length (scores_of df) = nrows df.
Proof.
  intros Ha. unfold scores_of. apply total_points_length; [assumption|].
  apply repeat_length.
Qed.

Lemma query_base_ok (df1 : DataFrame) (mi : option Z) (mc : option float64) :
  query_base df1 mi mc = Ok (base_mask df1 mi mc).
Proof.
  unfold query_base, base_mask.
  destruct mi as [n|], (get_col df1 (field "install")) as [s|];
    rewrite ?clean_numeric_column_ok; cbn [bind];
    destruct mc as [c|], (get_col df1 (field "cpi")) as [t|];
    rewrite ?clean_numeric_column_ok; reflexivity.
Qed.

Lemma score_snapshot_ok (df1 : DataFrame) :
  score_snapshot df1 =
  Ok (scored df1,
      if 0 <? nrows df1 then scores_of df1 else [],
      if 0 <? nrows df1 then medians_of df1 else []).
Proof.
  unfold score_snapshot, scored. destruct (0 <? nrows df1); [|reflexivity].
  now rewrite calculate_score_ok.
Qed.

Lemma score_filter_ok (base : DataFrame) (slider : Z) :
  nrows base = 0 \/
  (exists v, get_col base score_col = Some (IntSeries v) /\
             List.length v = nrows base) ->
  score_filter base slider = Ok (final_of base slider).
Proof.
  unfold score_filter, final_of. intros [H|[v [Hv Hl]]].
  - now rewrite H.
  - rewrite Hv. destruct (0 <? nrows base) eqn:E; [|reflexivity].
    apply Nat.ltb_lt in E. destruct v as [|x v]; [cbn in Hl; lia|].
    reflexivity.
Qed.

Lemma final_of_sublist (base : DataFrame) (slider : Z) :
  Sublist (rows (final_of base slider)) (rows base).
Proof.
  unfold final_of.
  destruct (0 <? nrows base); [|apply Sublist_nil_l].
  destruct (get_col base score_col) as [[v|v|[|x v]]|];
    try apply Sublist_nil_l.
  apply rows_sublist.
Qed.

Lemma final_of_index (base : DataFrame) (slider : Z) :
  Sublist (index (final_of base slider)) (index base).
Proof.
  unfold final_of.
  destruct (0 <? nrows base); [|apply Sublist_nil_l].
  destruct (get_col base score_col) as [[v|v|[|x v]]|];
    try apply Sublist_nil_l.
  apply mask_select_sublist.
Qed.

Lemma scored_aligned (df1 : DataFrame) : aligned df1 -> aligned (scored df1).
Proof.
  intros Ha. unfold scored. destruct (0 <? nrows df1); [|assumption].
  unfold aligned, set_col, nrows. cbn [index columns].
  apply aligned_assign; [exact Ha|].
  unfold len. cbn. rewrite length_map. now apply scores_of_length.
Qed.

Lemma scored_index (df1 : DataFrame) : index (scored df1) = index df1.
Proof. unfold scored. now destruct (0 <? nrows df1). Qed.

Lemma scored_score_col (df1 : DataFrame) :
  aligned df1 ->
  nrows df1 = 0 \/
  (get_col (scored df1) score_col = Some (IntSeries (scores_of df1)) /\
   List.length (scores_of df1) = nrows df1).
Proof.
  intros Ha. unfold scored. destruct (0 <? nrows df1) eqn:E.
  - right. split; [|now apply scores_of_length].
    unfold get_col, set_col. cbn [columns]. apply lookup_assign_same.
  - left. apply Nat.ltb_ge in E. lia.
Qed.

Lemma records_length (cols : list (string * Series)) (n : nat) :
  Forall (fun c => len (snd c) = n) cols -> List.length (records cols n) = n.
Proof.
  induction 1 as [|c cols Hc H IH]; cbn [records].
  - apply repeat_length.
  - rewrite map2_length; [exact Hc|].
    transitivity n; [exact Hc|symmetry; exact IH].
Qed.

(** In a frame whose columns have the length of the index, every label
    has its row. *)
Lemma rows_labels (df1 : DataFrame) :
  aligned df1 -> map fst (rows df1) = index df1.
Proof.
  intros Ha. unfold rows.
  pose proof (records_length (columns df1) (nrows df1) Ha) as Hl.
  unfold nrows in *. revert Hl. generalize (records (columns df1) (List.length (index df1))).
  induction (index df1) as [|x idx IH]; intros [|r rs] Hl; cbn in *;
    try reflexivity; try discriminate.
  f_equal. apply IH. now injection Hl.
Qed.

Lemma final_of_aligned (base : DataFrame) (slider : Z) :
  aligned base -> aligned (final_of base slider).
Proof.
  intros Ha. unfold final_of.
  destruct (0 <? nrows base); [|constructor].
  destruct (get_col base score_col) as [[v|v|[|x v]]|]; try constructor.
  now apply aligned_boolean_index.
Qed.

Lemma query_date_country_dtype_sound (df : DataFrame)
  (sel_date sel_country : option (list pyval)) :
  sound_dtype df (query_date_country_dtype df sel_date sel_country).
Proof.
  unfold query_date_country_dtype.
  destruct sel_country as [c|], (get_col df (field "country")) as [t|];
    try apply dtype_bool_sound;
    destruct sel_date as [d|], (get_col df (field "date")) as [s|];
    try apply dtype_bool_sound; apply ones_dtype_sound.
Qed.

Lemma query_base_dtype_sound (df1 : DataFrame) (mi : option Z) (mc : option float64) :
  sound_dtype df1 (query_base_dtype df1 mi mc).
Proof.
  unfold query_base_dtype.
  destruct mc as [c|], (get_col df1 (field "cpi")) as [t|];
    try apply dtype_bool_sound;
    destruct mi as [n|], (get_col df1 (field "install")) as [s|];
    try apply dtype_bool_sound; apply ones_dtype_sound.
Qed.

Lemma stage_one_aligned (df : DataFrame) (dates countries : list pyval) :
  aligned df -> aligned (stage_one df dates countries).
Proof. apply getitem_aligned. Qed.

Lemma stage_two_aligned (snap : DataFrame) (n : Z) (c : float64) :
  aligned snap -> aligned (stage_two snap n c).
Proof. apply getitem_aligned. Qed.

Lemma stage_two_rows (snap : DataFrame) (n : Z) (c : float64) :
  rows (stage_two snap n c) =
  mask_select (base_mask snap (widget snap "install" n) (widget snap "cpi" c))
    (rows snap).
Proof. apply getitem_rows, query_base_dtype_sound. Qed.

Lemma stage_two_index (snap : DataFrame) (n : Z) (c : float64) :
  index (stage_two snap n c) =
  mask_select (base_mask snap (widget snap "install" n) (widget snap "cpi" c))
    (index snap).
Proof. apply getitem_index, query_base_dtype_sound. Qed.

Lemma stage_one_index (df : DataFrame) (dates countries : list pyval) :
  index (stage_one df dates countries) =
  mask_select
    (query_date_country df (widget df "date" dates) (widget df "country" countries))
    (index df).
Proof. apply getitem_index, query_date_country_dtype_sound. Qed.

(** The install widget returns the value chosen when its bound is
    accepted, and raises otherwise. *)
Lemma number_input_int_cases (max_value chosen : Z) :
  St.number_input_int 0 max_value 0 chosen =
  if (0 <=? max_value)%Z && (max_value <=? St.MAX_SAFE_INTEGER)%Z
  then Ok chosen else Raise StreamlitAPIException.
Proof.
  unfold St.number_input_int, St.safe_integer.
  change (0 <? 0)%Z with false. cbn [orb].
  change (- St.MAX_SAFE_INTEGER <=? 0)%Z with true.
  change (0 <=? St.MAX_SAFE_INTEGER)%Z with true.
  rewrite andb_true_r. cbn [andb].
  destruct (Z.ltb_spec max_value 0) as [H|H];
    destruct (Z.leb_spec 0 max_value) as [H1|H1]; try lia; cbn [andb];
    [reflexivity|].
  destruct (Z.leb_spec (- St.MAX_SAFE_INTEGER) max_value) as [H2|H2];
    [reflexivity|].
  exfalso. assert (0 < St.MAX_SAFE_INTEGER)%Z by reflexivity. lia.
Qed.

Lemma number_input_float_cases (max_value chosen : float64) :
  isna max_value = false ->
  St.number_input_float (Fin 0) max_value max_value chosen =
  match max_value with
  | Fin q => if Qle_bool 0 q then Ok chosen else Raise StreamlitAPIException
  | _ => Raise StreamlitAPIException
  end.
Proof.
  unfold St.number_input_float. destruct max_value as [q| | |]; cbn;
    try reflexivity; try discriminate.
  intros _. unfold Qltb.
  assert (E : Qle_bool q q = true) by (apply Qle_bool_iff, Qle_refl).
  rewrite E. cbn. destruct (Qle_bool 0 q); reflexivity.
Qed.

Lemma fold_fmax_notna (l : list float64) :
  Forall (fun x => isna x = false) l ->
  forall x, isna x = false -> isna (fold_left fmax l x) = false.
Proof.
  induction 1 as [|y l Hy Hl IH]; intros x Hx; cbn; [assumption|].
  apply IH. unfold fmax. now destruct (flt x y).
Qed.

Lemma notna_any_dropna (xs : list float64) :
  notna_any xs = true -> dropna xs <> [].
Proof.
  unfold notna_any, dropna. induction xs as [|x xs IH]; cbn; [discriminate|].
  destruct (negb (isna x)); [discriminate|exact IH].
Qed.

Lemma max_cpi_notna (xs : list float64) : isna (max_cpi xs) = false.
Proof.
  unfold max_cpi. destruct (notna_any xs) eqn:En; [|reflexivity].
  unfold max_skipna.
  pose proof (notna_any_dropna xs En) as Hne.
  assert (H : Forall (fun x => isna x = false) (dropna xs)).
  { apply Forall_forall. intros x Hx. apply filter_In in Hx.
    destruct Hx as [_ Hx]. now apply negb_true_iff in Hx. }
  destruct (dropna xs) as [|x l]; [congruence|].
  inversion H; subst. now apply fold_fmax_notna.
Qed.

Lemma install_widget_cases (df1 : DataFrame) (chosen : Z) :
  (install_accepted df1 = true /\
   install_widget df1 chosen = Ok (widget df1 "install" chosen)) \/
  (install_accepted df1 = false /\ raises (install_widget df1 chosen)).
Proof.
  unfold install_accepted, install_widget, widget, raises.
  destruct (get_col df1 (field "install")) as [s|]; [|now left].
  rewrite clean_numeric_column_ok. cbn [bind].
  destruct (max_install (cleaned_values s)) as [n|e]; cbn [bind].
  - rewrite number_input_int_cases.
    destruct ((0 <=? n)%Z && (n <=? St.MAX_SAFE_INTEGER)%Z); cbn [bind].
    + now left.
    + right. split; [reflexivity|]. now eexists.
  - right. split; [reflexivity|]. now eexists.
Qed.

Lemma cpi_widget_cases (df1 : DataFrame) (chosen : float64) :
  (cpi_accepted df1 = true /\
   cpi_widget df1 chosen = Ok (widget df1 "cpi" chosen)) \/
  (cpi_accepted df1 = false /\ raises (cpi_widget df1 chosen)).
Proof.
  unfold cpi_accepted, cpi_widget, widget, raises.
  destruct (get_col df1 (field "cpi")) as [s|]; [|now left].
  rewrite clean_numeric_column_ok. cbn [bind]. cbv zeta.
  rewrite number_input_float_cases by apply max_cpi_notna.
  destruct (max_cpi (cleaned_values s)) as [q| | |]; cbn [bind];
    try (right; split; [reflexivity|]; now eexists).
  destruct (Qle_bool 0 q); cbn [bind].
  - now left.
  - right. split; [reflexivity|]. now eexists.
Qed.

Lemma stage_two_score_col (snap : DataFrame) (n : Z) (c : float64) :
  aligned snap ->
  nrows (stage_two (scored snap) n c) = 0 \/
  (exists v, get_col (stage_two (scored snap) n c) score_col = Some (IntSeries v) /\
             List.length v = nrows (stage_two (scored snap) n c)).
Proof.
  intros Hs.
  destruct (Nat.eq_dec (nrows (stage_two (scored snap) n c)) 0) as [H0|Hpos];
    [now left|right].
  assert (Hb : stage_two (scored snap) n c =
               boolean_index (scored snap)
                 (base_mask (scored snap) (widget (scored snap) "install" n)
                    (widget (scored snap) "cpi" c))).
  { apply getitem_nonempty; [apply query_base_dtype_sound|].
    fold (stage_two (scored snap) n c). lia. }
  destruct (scored_score_col snap Hs) as [Hz|[Hc Hl]].
  - exfalso. apply Hpos. rewrite Hb.
    unfold nrows, boolean_index. cbn [index]. rewrite scored_index.
    unfold nrows in Hz. destruct (index snap); [now rewrite mask_select_nil|discriminate].
  - rewrite Hb. eexists. split.
    + rewrite get_col_boolean_index, Hc. reflexivity.
    + unfold nrows, boolean_index. cbn [index]. rewrite scored_index.
      apply mask_select_length. exact Hl.
Qed.

(** A run completes exactly when both widgets are created on the scored
    snapshot, and it then leaves [outcome_of]. *)
Lemma main_cases (df : DataFrame) (ui : Sidebar) :
  aligned df ->
  let snap := scored (stage_one df (multiselect_date ui) (multiselect_country ui)) in
  (install_accepted snap && cpi_accepted snap = true /\
   main df ui = Ok (outcome_of df ui)) \/
  (install_accepted snap && cpi_accepted snap = false /\ raises (main df ui)).
Proof.
  intros Ha snap. unfold main.
  fold (stage_one df (multiselect_date ui) (multiselect_country ui)).
  rewrite score_snapshot_ok. cbn [bind]. fold snap.
  destruct (install_widget_cases snap (number_input_install ui))
    as [[Hi ->]|[Hi [e ->]]]; rewrite Hi; cbn [bind andb];
    [|right; split; [reflexivity|now exists e]].
  destruct (cpi_widget_cases snap (number_input_cpi ui))
    as [[Hc ->]|[Hc [e ->]]]; rewrite Hc; cbn [bind];
    [|right; split; [reflexivity|now exists e]].
  left. split; [reflexivity|].
  rewrite query_base_ok. cbn [bind].
  fold (stage_two snap (number_input_install ui) (number_input_cpi ui)).
  rewrite score_filter_ok; [reflexivity|].
  apply stage_two_score_col. now apply stage_one_aligned.
Qed.

Lemma main_returns (df : DataFrame) (ui : Sidebar) (r : Outcome) :
  aligned df -> main df ui = Ok r -> r = outcome_of df ui.
Proof.
  intros Ha Hr. destruct (main_cases df ui Ha) as [[_ H]|[_ [e H]]];
    rewrite H in Hr; [now injection Hr|discriminate].
Qed.

Lemma main_ok (df : DataFrame) (ui : Sidebar) :
  aligned df ->
  install_accepted
    (scored (stage_one df (multiselect_date ui) (multiselect_country ui))) = true ->
  cpi_accepted
    (scored (stage_one df (multiselect_date ui) (multiselect_country ui))) = true ->
  main df ui = Ok (outcome_of df ui).
Proof.
  intros Ha Hi Hc. destruct (main_cases df ui Ha) as [[_ H]|[H _]];
    [exact H|]. cbv zeta in H. rewrite Hi, Hc in H. discriminate H.
Qed.

End Run.

(** ** Stage 2 and the score threshold *)

Section StageTwo.

Import AppAdvanced.

Lemma fge_missing (t : float64) : fge Missing t = false.
Proof. destruct t; reflexivity. Qed.

Lemma fle_missing (t : float64) : fle Missing t = false.
Proof. destruct t; reflexivity. Qed.

Lemma threshold_missing (p : float64 -> bool) (xs : list float64) (i : nat) :
  p Missing = false -> nth_error xs i = Some Missing ->
  nth_error (map p xs) i <> Some true.
Proof.
  intros Hp Hi. rewrite nth_error_map, Hi. cbn. rewrite Hp. discriminate.
Qed.

Lemma base_mask_missing (df1 : DataFrame) (n : Z) (c : float64) (i : nat) :
  normalizes_to_missing df1 (field "install") i \/
  normalizes_to_missing df1 (field "cpi") i ->
  nth_error (base_mask df1 (widget df1 "install" n) (widget df1 "cpi" c)) i
  <> Some true.
Proof.
  unfold base_mask, widget.
  intros [[s [xs [Hs [Hx Hi]]]]|[s [xs [Hs [Hx Hi]]]]];
    rewrite clean_numeric_column_ok in Hx; injection Hx as <-; rewrite Hs.
  - assert (H1 : nth_error
                   (band (repeat true (nrows df1))
                      (map (fun x => fge x (of_int n)) (cleaned_values s))) i
                 <> Some true).
    { apply band_not_true_r.
      apply threshold_missing with (p := fun x => fge x (of_int n));
        [apply fge_missing|assumption]. }
    destruct (get_col df1 (field "cpi")); [now apply band_not_true_l|assumption].
  - apply band_not_true_r.
    apply threshold_missing with (p := fun x => fle x c);
      [apply fle_missing|assumption].
Qed.

Lemma app_install_widget_cases (df : DataFrame) (chosen : Z) :
  (install_accepted df = true /\
   App.install_widget df chosen = Ok (App.widget df "install" chosen)) \/
  (install_accepted df = false /\ raises (App.install_widget df chosen)).
Proof. exact (install_widget_cases df chosen). Qed.

Lemma app_query_dtype_sound (df : DataFrame) (sd sc : option (list pyval))
  (mi : option Z) :
  sound_dtype df (App.query_dtype df sd sc mi).
Proof.
  unfold App.query_dtype.
  destruct mi as [n|], (get_col df (App.field "install")) as [s|];
    try apply dtype_bool_sound;
    destruct sc as [c|], (get_col df (App.field "country")) as [t|];
    try apply dtype_bool_sound;
    destruct sd as [d|], (get_col df (App.field "date")) as [u|];
    try apply dtype_bool_sound; apply ones_dtype_sound.
Qed.

Lemma app_query_missing (df : DataFrame) (sd sc : option (list pyval)) (n : Z) :
  exists q,
    App.query df sd sc (App.widget df "install" n) = Ok q /\
    forall i, normalizes_to_missing df (App.field "install") i ->
              nth_error q i <> Some true.
Proof.
  unfold App.query, App.widget.
  destruct (get_col df (App.field "install")) as [s|] eqn:Es.
  - rewrite clean_numeric_column_ok. cbn [bind]. eexists.
    split; [reflexivity|].
    intros i [s' [xs [Hs [Hx Hi]]]].
    rewrite Es in Hs. injection Hs as <-.
    rewrite clean_numeric_column_ok in Hx. injection Hx as <-.
    apply band_not_true_r.
    apply threshold_missing with (p := fun x => fge x (of_int n));
      [apply fge_missing|assumption].
  - eexists. split; [reflexivity|].
    intros i [s' [xs [Hs _]]]. rewrite Es in Hs. discriminate.
Qed.

(** A run of [app.py] that completes leaves the rows of a mask that is
    false wherever the install count is Missing. *)
Lemma app_main_returns (df : DataFrame) (ui : App.Sidebar) (df_sel : DataFrame) :
  App.main df ui = Ok df_sel ->
  exists d q,
    sound_dtype df d /\ df_sel = getitem df d q /\
    forall i, normalizes_to_missing df (App.field "install") i ->
              nth_error q i <> Some true.
Proof.
  unfold App.main.
  destruct (app_install_widget_cases df (App.number_input_install ui))
    as [[_ ->]|[_ [e ->]]]; cbn [bind]; [|discriminate].
  destruct (app_query_missing df
              (App.widget df "date" (App.multiselect_date ui))
              (App.widget df "country" (App.multiselect_country ui))
              (App.number_input_install ui)) as [q [-> Hq]].
  cbn [bind]. intros [= <-]. eexists. exists q.
  split; [apply app_query_dtype_sound|]. split; [reflexivity|exact Hq].
Qed.

Lemma snapshot_NoDup (df : DataFrame) (dates countries : list pyval) :
  NoDup (index df) -> NoDup (index (scored (stage_one df dates countries))).
Proof.
  intros H. rewrite scored_index, stage_one_index.
  eapply Sublist_NoDup; [apply mask_select_sublist|assumption].
Qed.

End StageTwo.

(** C3.  In every run that completes, whatever the thresholds, the
    rows of the Stage-2 frame are rows of the Stage-1 snapshot, and the
    rows of the final frame are rows of the Stage-2 frame, each time in
    the same order; in each of the three frames every label of the index
    has its row. *)
Theorem stages_are_nested (df : DataFrame) (ui : AppAdvanced.Sidebar)
  (r : AppAdvanced.Outcome) :
  well_formed df ->
  AppAdvanced.main df ui = Ok r ->
  Sublist (rows (AppAdvanced.df_base_filtered r))
          (rows (AppAdvanced.df_date_country_filtered r)) /\
  Sublist (rows (AppAdvanced.df_final r))
          (rows (AppAdvanced.df_base_filtered r)) /\
  map fst (rows (AppAdvanced.df_date_country_filtered r)) =
  index (AppAdvanced.df_date_country_filtered r) /\
  map fst (rows (AppAdvanced.df_base_filtered r)) =
  index (AppAdvanced.df_base_filtered r) /\
  map fst (rows (AppAdvanced.df_final r)) =
  index (AppAdvanced.df_final r).
Proof.
  intros [_ Ha] Hr. rewrite (main_returns df ui r Ha Hr).
  unfold outcome_of.
  cbn [AppAdvanced.df_date_country_filtered AppAdvanced.df_base_filtered
       AppAdvanced.df_final].
  assert (H1 : aligned (scored (stage_one df (AppAdvanced.multiselect_date ui)
                                  (AppAdvanced.multiselect_country ui))))
    by (apply scored_aligned; now apply stage_one_aligned).
  split; [rewrite stage_two_rows; apply mask_select_sublist|].
  split; [apply final_of_sublist|].
  split; [now apply rows_labels|].
  split; apply rows_labels.
  - now apply stage_two_aligned.
  - apply final_of_aligned. now apply stage_two_aligned.
Qed.

(** The three stages of a run on the campaign table: of the four rows of
    the snapshot Stage 2 keeps two, and the score threshold one of
    them. *)
Lemma stages_are_nested_witness :
  exists r,
    AppAdvanced.main campaign
      {| AppAdvanced.multiselect_date := [PStr "2024-01-01"; PStr "2024-01-02"];
         AppAdvanced.multiselect_country := [PStr "US"; PStr "JP"; PStr "BR"];
         AppAdvanced.number_input_install := 40;
         AppAdvanced.number_input_cpi := Fin (21 # 10);
         AppAdvanced.slider_score := 1 |} = Ok r /\
    index (AppAdvanced.df_date_country_filtered r) = [0; 1; 2; 3] /\
    index (AppAdvanced.df_base_filtered r) = [0; 3] /\
    index (AppAdvanced.df_final r) = [3] /\
    Sublist (rows (AppAdvanced.df_base_filtered r))
            (rows (AppAdvanced.df_date_country_filtered r)) /\
    Sublist (rows (AppAdvanced.df_final r))
            (rows (AppAdvanced.df_base_filtered r)).
Proof.
  assert (Hw : well_formed campaign)
    by (split; [reflexivity|repeat constructor]).
  match goal with
  | |- exists r, AppAdvanced.main campaign ?ui = Ok r /\ _ =>
      assert (Hr : AppAdvanced.main campaign ui = Ok (outcome_of campaign ui))
        by (vm_compute; reflexivity);
      exists (outcome_of campaign ui);
      pose proof (stages_are_nested campaign ui _ Hw Hr) as [H1 [H2 _]]
  end.
  split; [exact Hr|].
  split; [reflexivity|]. split; [reflexivity|]. split; [reflexivity|].
  split; [exact H1|exact H2].
Defined.

(** C1.  With the same frame and the same selection of dates and
    countries, two runs that complete and differ in the install
    threshold, the CPI threshold and the score slider compute the same
    snapshot, the same scores and the same medians; every row of the
    Stage-2 and final frames of one run, score included, is a row of the
    snapshot of the other. *)
Theorem scores_fixed_by_stage_one (df : DataFrame) (dates countries : list pyval)
  (install1 install2 : Z) (cpi1 cpi2 : float64) (slider1 slider2 : Z)
  (r1 r2 : AppAdvanced.Outcome) :
  well_formed df ->
  AppAdvanced.main df
    {| AppAdvanced.multiselect_date := dates;
       AppAdvanced.multiselect_country := countries;
       AppAdvanced.number_input_install := install1;
       AppAdvanced.number_input_cpi := cpi1;
       AppAdvanced.slider_score := slider1 |} = Ok r1 ->
  AppAdvanced.main df
    {| AppAdvanced.multiselect_date := dates;
       AppAdvanced.multiselect_country := countries;
       AppAdvanced.number_input_install := install2;
       AppAdvanced.number_input_cpi := cpi2;
       AppAdvanced.slider_score := slider2 |} = Ok r2 ->
  AppAdvanced.df_date_country_filtered r1 = AppAdvanced.df_date_country_filtered r2 /\
  AppAdvanced.scores r1 = AppAdvanced.scores r2 /\
  AppAdvanced.medians r1 = AppAdvanced.medians r2 /\
  incl (rows (AppAdvanced.df_base_filtered r1))
       (rows (AppAdvanced.df_date_country_filtered r2)) /\
  incl (rows (AppAdvanced.df_final r1))
       (rows (AppAdvanced.df_date_country_filtered r2)).
Proof.
  intros [_ Ha] H1 H2.
  rewrite (main_returns _ _ _ Ha H1), (main_returns _ _ _ Ha H2).
  unfold outcome_of.
  cbn [AppAdvanced.df_date_country_filtered AppAdvanced.scores
       AppAdvanced.medians AppAdvanced.df_base_filtered AppAdvanced.df_final
       AppAdvanced.multiselect_date AppAdvanced.multiselect_country
       AppAdvanced.number_input_install AppAdvanced.number_input_cpi
       AppAdvanced.slider_score].
  split; [reflexivity|]. split; [reflexivity|]. split; [reflexivity|].
  split.
  - apply Sublist_incl. rewrite stage_two_rows. apply mask_select_sublist.
  - apply Sublist_incl. eapply Sublist_trans; [apply final_of_sublist|].
    rewrite stage_two_rows. apply mask_select_sublist.
Qed.

(** Two runs on the campaign table with different thresholds: the
    Stage-2 frames differ, the scores do not. *)
Lemma scores_fixed_by_stage_one_witness :
  exists r1 r2,
    AppAdvanced.main campaign
      {| AppAdvanced.multiselect_date := [PStr "2024-01-01"; PStr "2024-01-02"];
         AppAdvanced.multiselect_country := [PStr "US"; PStr "JP"; PStr "BR"];
         AppAdvanced.number_input_install := 0;
         AppAdvanced.number_input_cpi := Fin (21 # 10);
         AppAdvanced.slider_score := 0 |} = Ok r1 /\
    AppAdvanced.main campaign
      {| AppAdvanced.multiselect_date := [PStr "2024-01-01"; PStr "2024-01-02"];
         AppAdvanced.multiselect_country := [PStr "US"; PStr "JP"; PStr "BR"];
         AppAdvanced.number_input_install := 500;
         AppAdvanced.number_input_cpi := Fin 1;
         AppAdvanced.slider_score := 2 |} = Ok r2 /\
    index (AppAdvanced.df_base_filtered r1) = [0; 3] /\
    index (AppAdvanced.df_base_filtered r2) = [] /\
    AppAdvanced.scores r1 = [0; 2; 2; 4]%Z /\
    AppAdvanced.df_date_country_filtered r1 = AppAdvanced.df_date_country_filtered r2 /\
    AppAdvanced.scores r1 = AppAdvanced.scores r2 /\
    AppAdvanced.medians r1 = AppAdvanced.medians r2.
Proof.
  assert (Hw : well_formed campaign)
    by (split; [reflexivity|repeat constructor]).
  match goal with
  | |- exists r1 r2, AppAdvanced.main campaign ?ui1 = Ok r1 /\
                     AppAdvanced.main campaign ?ui2 = Ok r2 /\ _ =>
      assert (Hr1 : AppAdvanced.main campaign ui1 = Ok (outcome_of campaign ui1))
        by (vm_compute; reflexivity);
      assert (Hr2 : AppAdvanced.main campaign ui2 = Ok (outcome_of campaign ui2))
        by (vm_compute; reflexivity);
      exists (outcome_of campaign ui1), (outcome_of campaign ui2)
  end.
  pose proof (scores_fixed_by_stage_one campaign _ _ _ _ _ _ _ _ _ _ Hw Hr1 Hr2)
    as [H1 [H2 [H3 _]]].
  split; [exact Hr1|]. split; [exact Hr2|].
  split; [reflexivity|]. split; [reflexivity|]. split; [reflexivity|].
  split; [exact H1|]. split; [exact H2|exact H3].
Defined.

(** C8.  In every run that completes, of either script, a row whose
    install value normalizes to Missing is not in the filtered frame,
    whatever the minimum install; in [app_advanced.py] the same holds
    for a Missing CPI and the maximum CPI. *)
Theorem missing_fails_threshold (df : DataFrame)
  (ui : AppAdvanced.Sidebar) (ui0 : App.Sidebar)
  (r : AppAdvanced.Outcome) (df_sel : DataFrame) :
  well_formed df ->
  (AppAdvanced.main df ui = Ok r ->
   forall i label,
     nth_error (index (AppAdvanced.df_date_country_filtered r)) i = Some label ->
     normalizes_to_missing (AppAdvanced.df_date_country_filtered r)
       (AppAdvanced.field "install") i \/
     normalizes_to_missing (AppAdvanced.df_date_country_filtered r)
       (AppAdvanced.field "cpi") i ->
     ~ In label (index (AppAdvanced.df_base_filtered r))) /\
  (App.main df ui0 = Ok df_sel ->
   forall i label,
     nth_error (index df) i = Some label ->
     normalizes_to_missing df (App.field "install") i ->
     ~ In label (index df_sel)).
Proof.
  intros [Hrange Ha].
  assert (Hn : NoDup (index df)) by (rewrite Hrange; apply seq_NoDup).
  split.
  - intros Hr. rewrite (main_returns df ui r Ha Hr).
    unfold outcome_of.
    cbn [AppAdvanced.df_date_country_filtered AppAdvanced.df_base_filtered].
    intros i label Hi Hm. rewrite stage_two_index.
    apply mask_select_excluded with (i := i).
    + now apply snapshot_NoDup.
    + exact Hi.
    + now apply base_mask_missing.
  - intros Hr. destruct (app_main_returns df ui0 df_sel Hr) as [d [q [Hd [-> Hq]]]].
    intros i label Hi Hm. rewrite getitem_index by assumption.
    apply mask_select_excluded with (i := i); auto.
Qed.

(** On the campaign table the second creative has no readable install
    count and the third no CPI: neither is in the Stage-2 frame of
    [app_advanced.py], and the second is not in the frame [app.py]
    keeps, with the loosest thresholds. *)
Lemma missing_fails_threshold_witness :
  normalizes_to_missing campaign (App.field "install") 1 /\
  exists r df_sel,
    AppAdvanced.main campaign
      {| AppAdvanced.multiselect_date := [PStr "2024-01-01"; PStr "2024-01-02"];
         AppAdvanced.multiselect_country := [PStr "US"; PStr "JP"; PStr "BR"];
         AppAdvanced.number_input_install := 0;
         AppAdvanced.number_input_cpi := Fin (21 # 10);
         AppAdvanced.slider_score := 0 |} = Ok r /\
    App.main campaign
      {| App.multiselect_date := [PStr "2024-01-01"; PStr "2024-01-02"];
         App.multiselect_country := [PStr "US"; PStr "JP"; PStr "BR"];
         App.number_input_install := 0 |} = Ok df_sel /\
    normalizes_to_missing (AppAdvanced.df_date_country_filtered r)
      (AppAdvanced.field "install") 1 /\
    normalizes_to_missing (AppAdvanced.df_date_country_filtered r)
      (AppAdvanced.field "cpi") 2 /\
    ~ In 1 (index (AppAdvanced.df_base_filtered r)) /\
    ~ In 2 (index (AppAdvanced.df_base_filtered r)) /\
    ~ In 1 (index df_sel).
Proof.
  assert (Hw : well_formed campaign)
    by (split; [reflexivity|repeat constructor]).
  assert (Hm : normalizes_to_missing campaign (App.field "install") 1).
  { eexists. eexists. split; [reflexivity|]. split; [reflexivity|].
    vm_compute. reflexivity. }
  split; [exact Hm|].
  match goal with
  | |- exists r df_sel, AppAdvanced.main campaign ?ui = Ok r /\
                        App.main campaign ?ui0 = Ok df_sel /\ _ =>
      assert (Hr : AppAdvanced.main campaign ui = Ok (outcome_of campaign ui))
        by (vm_compute; reflexivity);
      assert (Hs : exists df_sel, App.main campaign ui0 = Ok df_sel)
        by (eexists; vm_compute; reflexivity);
      destruct Hs as [df_sel Hs];
      exists (outcome_of campaign ui), df_sel;
      pose proof (missing_fails_threshold campaign ui ui0
                    (outcome_of campaign ui) df_sel Hw) as [Hadv Happ]
  end.
  split; [exact Hr|]. split; [exact Hs|].
  match goal with
  | |- ?A /\ ?B /\ _ =>
      assert (Hi : A)
        by (eexists; eexists; split; [reflexivity|]; split; [reflexivity|];
            vm_compute; reflexivity);
      assert (Hc : B)
        by (eexists; eexists; split; [reflexivity|]; split; [reflexivity|];
            vm_compute; reflexivity)
  end.
  split; [exact Hi|]. split; [exact Hc|].
  split; [|split].
  - apply (Hadv Hr 1 1); [reflexivity|now left].
  - apply (Hadv Hr 2 2); [reflexivity|now right].
  - apply (Happ Hs 1 1); [reflexivity|exact Hm].
Defined.

(** A run on the campaign table: the row without a readable install
    count and the row without a CPI are left out at Stage 2 even with
    the loosest thresholds. *)
Example campaign_run :
  exists r,
    AppAdvanced.main campaign
      {| AppAdvanced.multiselect_date := [PStr "2024-01-01"; PStr "2024-01-02"];
         AppAdvanced.multiselect_country := [PStr "US"; PStr "JP"; PStr "BR"];
         AppAdvanced.number_input_install := 0;
         AppAdvanced.number_input_cpi := Fin (21 # 10);
         AppAdvanced.slider_score := 0 |} = Ok r /\
    index (AppAdvanced.df_date_country_filtered r) = [0; 1; 2; 3] /\
    AppAdvanced.scores r = [0; 2; 2; 4]%Z /\
    index (AppAdvanced.df_base_filtered r) = [0; 3] /\
    index (AppAdvanced.df_final r) = [0; 3].
Proof. eexists. vm_compute. repeat split. Qed.

(** Runs that do raise: the conversion without [errors='coerce']; the
    bound of the install widget on an infinite install count; the
    install widget when every install count is negative, in both
    scripts; the CPI widget on an infinite CPI and on negative CPIs. *)
Example raising_runs :
  to_numeric errors_raise ["12"; "abc"] = Raise ValueError /\
  AppAdvanced.main (one_column "Install(AF)" (ObjSeries [Str "10"; Str "inf"]))
    {| AppAdvanced.multiselect_date := [];
       AppAdvanced.multiselect_country := [];
       AppAdvanced.number_input_install := 0;
       AppAdvanced.number_input_cpi := Fin 0;
       AppAdvanced.slider_score := 0 |} = Raise OverflowError /\
  AppAdvanced.main (one_column "Install(AF)" (ObjSeries [Str "-12.7"; Str "-3"]))
    {| AppAdvanced.multiselect_date := [];
       AppAdvanced.multiselect_country := [];
       AppAdvanced.number_input_install := 0;
       AppAdvanced.number_input_cpi := Fin 0;
       AppAdvanced.slider_score := 0 |} = Raise StreamlitAPIException /\
  App.main (one_column "Install(AF)" (ObjSeries [Str "-12.7"; Str "-3"]))
    {| App.multiselect_date := [];
       App.multiselect_country := [];
       App.number_input_install := 0 |} = Raise StreamlitAPIException /\
  AppAdvanced.main (one_column "CPI" (ObjSeries [Str "$1.50"; Str "inf"]))
    {| AppAdvanced.multiselect_date := [];
       AppAdvanced.multiselect_country := [];
       AppAdvanced.number_input_install := 0;
       AppAdvanced.number_input_cpi := Fin 0;
       AppAdvanced.slider_score := 0 |} = Raise StreamlitAPIException /\
  AppAdvanced.main (one_column "CPI" (ObjSeries [Str "-1.50"; Str "-2"]))
    {| AppAdvanced.multiselect_date := [];
       AppAdvanced.multiselect_country := [];
       AppAdvanced.number_input_install := 0;
       AppAdvanced.number_input_cpi := Fin 0;
       AppAdvanced.slider_score := 0 |} = Raise StreamlitAPIException.
Proof. repeat split; vm_compute; reflexivity. Qed.

(** * Further properties of the two scripts *)

(** ** Reading the file *)

Section Reading.

Variable read_csv : string -> string -> result DataFrame.
Variable filepath : string.

Lemma try_encodings_none (encodings : list string) :
  try_encodings read_csv filepath encodings = None <->
  forall enc, In enc encodings -> raises (read_csv filepath enc).
Proof.
  induction encodings as [|enc rest IH]; cbn [try_encodings].
  - split; [intros _ enc []|reflexivity].
  - destruct (read_csv filepath enc) as [df|e] eqn:E.
    + split; [discriminate|]. intros H.
      destruct (H enc (or_introl eq_refl)) as [e He]. congruence.
    + rewrite IH. split.
      * intros H enc' [<-|Hin]; [now exists e|now apply H].
      * intros H enc' Hin. apply H. now right.
Qed.

Lemma try_encodings_some (encodings : list string) (df : DataFrame) :
  try_encodings read_csv filepath encodings = Some df <->
  exists before enc after,
    encodings = before ++ enc :: after /\
    read_csv filepath enc = Ok df /\
    forall enc', In enc' before -> raises (read_csv filepath enc').
Proof.
  induction encodings as [|enc rest IH]; cbn [try_encodings].
  - split; [discriminate|].
    intros [before [enc [after [H _]]]]. now destruct before.
  - destruct (read_csv filepath enc) as [df0|e] eqn:E.
    + split.
      * intros [= ->]. exists [], enc, rest.
        split; [reflexivity|]. split; [assumption|intros ? []].
      * intros [before [enc' [after [Hl [Hr Hb]]]]].
        destruct before as [|b before]; cbn in Hl; injection Hl as H1 H2;
          subst.
        -- congruence.
        -- destruct (Hb b (or_introl eq_refl)) as [e He]. congruence.
    + rewrite IH. split.
      * intros [before [enc' [after [-> [Hr Hb]]]]].
        exists (enc :: before), enc', after.
        split; [reflexivity|]. split; [assumption|].
        intros x [<-|Hin]; [now exists e|now apply Hb].
      * intros [before [enc' [after [Hl [Hr Hb]]]]].
        destruct before as [|b before]; cbn in Hl; injection Hl as H1 H2;
          subst.
        -- congruence.
        -- exists before, enc', after.
           split; [reflexivity|]. split; [assumption|].
           intros x Hin. apply Hb. now right.
Qed.

End Reading.

(** X1.  [read_csv_auto] gives None exactly when the file cannot be read
    as utf-8, gbk or gb2312, and otherwise the frame read with the first
    of the three, in that order, that does not raise. *)
Theorem read_csv_auto_first_success
  (read_csv : string -> string -> result DataFrame) (filepath : string) :
  (read_csv_auto read_csv filepath = None <->
   forall enc, In enc ["utf-8"; "gbk"; "gb2312"] ->
               raises (read_csv filepath enc)) /\
  (forall df,
     read_csv_auto read_csv filepath = Some df <->
     exists before enc after,
       ["utf-8"; "gbk"; "gb2312"] = before ++ enc :: after /\
       read_csv filepath enc = Ok df /\
       forall enc', In enc' before -> raises (read_csv filepath enc')).
Proof.
  split.
  - apply try_encodings_none.
  - intros df. apply try_encodings_some.
Qed.

(** ** More on [clean_numeric_column] *)

(** X2.  [clean_numeric_column] returns one value per element of the
    column, and cleaning the rows selected by a mask gives the selected
    rows of the cleaned column. *)
Theorem cleaning_keeps_alignment (s : Series) (m : list bool) :
  (exists v, clean_numeric_column s = Ok v /\ List.length v = len s) /\
  clean_numeric_column (series_select m s) =
  (v <- clean_numeric_column s ;; Ok (mask_select m v)).
Proof.
  split.
  - exists (cleaned_values s).
    split; [apply clean_numeric_column_ok|apply cleaned_values_length].
  - rewrite !clean_numeric_column_ok. cbn [bind].
    now rewrite cleaned_values_select.
Qed.

(** ** The order on floats and the largest value of a column *)

Section FloatOrder.

Lemma Qle_bool_refl (q : Q) : Qle_bool q q = true.
Proof. apply Qle_bool_iff. apply Qle_refl. Qed.

Lemma flt_irrefl (x : float64) : flt x x = false.
Proof.
  destruct x; try reflexivity. cbn. unfold Qltb. now rewrite Qle_bool_refl.
Qed.

Lemma fle_refl (x : float64) : isna x = false -> fle x x = true.
Proof. destruct x; cbn; try congruence. intros _. apply Qle_bool_refl. Qed.

Lemma fle_trans (x y z : float64) :
  fle x y = true -> fle y z = true -> fle x z = true.
Proof.
  destruct x, y, z; cbn; try congruence.
  rewrite !Qle_bool_iff. apply Qle_trans.
Qed.

Lemma flt_fle (x y : float64) : flt x y = true -> fle x y = true.
Proof.
  destruct x, y; cbn; try congruence. unfold Qltb. intros H.
  apply negb_true_iff in H. now apply Qle_bool_total.
Qed.

Lemma flt_false_fle (x y : float64) :
  isna x = false -> isna y = false -> flt x y = false -> fle y x = true.
Proof.
  destruct x, y; cbn; try congruence. unfold Qltb. intros _ _ H.
  now apply negb_false_iff in H.
Qed.

Lemma fmax_cases (x y : float64) : fmax x y = x \/ fmax x y = y.
Proof. unfold fmax. destruct (flt x y); auto. Qed.

Lemma fmax_ge_l (x y : float64) :
  isna x = false -> isna y = false -> fle x (fmax x y) = true.
Proof.
  intros Hx Hy. unfold fmax. destruct (flt x y) eqn:E.
  - now apply flt_fle.
  - now apply fle_refl.
Qed.

Lemma fmax_ge_r (x y : float64) :
  isna x = false -> isna y = false -> fle y (fmax x y) = true.
Proof.
  intros Hx Hy. unfold fmax. destruct (flt x y) eqn:E.
  - now apply fle_refl.
  - now apply flt_false_fle.
Qed.

Lemma fold_fmax_spec (l : list float64) :
  forall x,
    Forall (fun y => isna y = false) (x :: l) ->
    In (fold_left fmax l x) (x :: l) /\
    forall y, In y (x :: l) -> fle y (fold_left fmax l x) = true.
Proof.
  induction l as [|a l IH]; intros x H.
  - inversion H as [|? ? Hx _]; subst. cbn. split; [now left|].
    intros y [<-|[]]. now apply fle_refl.
  - inversion H as [|? ? Hx Hl]; subst.
    inversion Hl as [|? ? Ha Hl']; subst.
    assert (Hm : isna (fmax x a) = false)
      by (destruct (fmax_cases x a) as [-> | ->]; assumption).
    destruct (IH (fmax x a) (Forall_cons _ Hm Hl')) as [Hin Hub].
    cbn [fold_left]. split.
    + destruct Hin as [Hin|Hin].
      * rewrite <- Hin.
        destruct (fmax_cases x a) as [-> | ->]; [now left|right; now left].
      * right. now right.
    + intros y [Hy|[Hy|Hy]].
      * subst y. apply fle_trans with (y := fmax x a);
          [now apply fmax_ge_l|apply Hub; now left].
      * subst y. apply fle_trans with (y := fmax x a);
          [now apply fmax_ge_r|apply Hub; now left].
      * apply Hub. now right.
Qed.

Lemma max_skipna_spec (xs : list float64) :
  dropna xs <> [] ->
  In (max_skipna xs) (dropna xs) /\
  forall y, In y (dropna xs) -> fle y (max_skipna xs) = true.
Proof.
  intros Hne. unfold max_skipna.
  pose proof (dropna_valid xs) as Hv.
  destruct (dropna xs) as [|x l]; [congruence|].
  now apply fold_fmax_spec.
Qed.

Lemma notna_any_false (xs : list float64) :
  notna_any xs = false -> dropna xs = [].
Proof.
  unfold notna_any, dropna. induction xs as [|x xs IH]; cbn; [reflexivity|].
  destruct (negb (isna x)); [discriminate|exact IH].
Qed.

Lemma dropna_In (xs : list float64) (x : float64) :
  In x (dropna xs) <-> In x xs /\ isna x = false.
Proof.
  unfold dropna. rewrite filter_In. now rewrite negb_true_iff.
Qed.

End FloatOrder.

(** X3.  Computing the bound of the install widget raises exactly when
    some install count is plus infinity, or when there are valid counts
    and all are minus infinity; the exception is then OverflowError, so
    the guard keeps [int] away from NaN.  Without a valid count the
    bound is 1000.  Both scripts compute it alike. *)
Theorem install_bound_failure (xs : list float64) :
  (raises (AppAdvanced.max_install xs) <->
   In PInf xs \/
   (dropna xs <> [] /\ forall x, In x (dropna xs) -> x = NInf)) /\
  (forall e, AppAdvanced.max_install xs = Raise e -> e = OverflowError) /\
  (dropna xs = [] -> AppAdvanced.max_install xs = Ok 1000%Z) /\
  App.max_install xs = AppAdvanced.max_install xs.
Proof.
  unfold App.max_install, AppAdvanced.max_install.
  destruct (notna_any xs) eqn:E.
  - pose proof (notna_any_dropna xs E) as Hne.
    destruct (max_skipna_spec xs Hne) as [Hin Hub].
    destruct (max_skipna xs) as [q| | |] eqn:Em; cbn [int_of_float].
    + split; [split|].
      * intros [e He]. discriminate.
      * intros [Hp|[_ Hall]].
        -- assert (H : fle PInf (Fin q) = true)
             by (apply Hub; apply dropna_In; now split).
           discriminate.
        -- specialize (Hall _ Hin). discriminate.
      * split; [discriminate|]. split; [congruence|reflexivity].
    + split; [split|].
      * intros _. left. now apply dropna_In in Hin.
      * intros _. now exists OverflowError.
      * split; [now intros e [= <-]|]. split; [congruence|reflexivity].
    + split; [split|].
      * intros _. right. split; [assumption|].
        intros x Hx. specialize (Hub x Hx). now destruct x.
      * intros _. now exists OverflowError.
      * split; [now intros e [= <-]|]. split; [congruence|reflexivity].
    + apply dropna_In in Hin. destruct Hin as [_ Hin]. discriminate.
  - pose proof (notna_any_false xs E) as Hd. split; [split|].
    + intros [e He]. discriminate.
    + intros [Hp|[Hne _]]; [|congruence].
      assert (H : In PInf (dropna xs)) by (apply dropna_In; now split).
      rewrite Hd in H. destruct H.
    + split; [discriminate|]. split; reflexivity.
Qed.

Section DefaultThreshold.

Import AppAdvanced.

Lemma max_cpi_mask (xs : list float64) :
  map (fun x => fle x (max_cpi xs)) xs = map (fun x => negb (isna x)) xs.
Proof.
  apply map_ext_in. intros x Hx. destruct (isna x) eqn:Ex; cbn [negb].
  - destruct x; try discriminate. reflexivity.
  - assert (Hd : In x (dropna xs)) by (apply dropna_In; now split).
    unfold max_cpi.
    destruct (notna_any xs) eqn:E.
    + apply max_skipna_spec; [now apply notna_any_dropna|assumption].
    + rewrite (notna_any_false xs E) in Hd. destruct Hd.
Qed.

End DefaultThreshold.

(** X4.  With the CPI threshold left at its default, the largest valid
    CPI of the snapshot, the CPI filter removes exactly the rows whose
    CPI is Missing, on top of what the install filter removes. *)
Theorem default_cpi_keeps_valid (df1 : DataFrame) (min_install : option Z)
  (s : Series) (xs : list float64) :
  get_col df1 (AppAdvanced.field "cpi") = Some s ->
  clean_numeric_column s = Ok xs ->
  exists q,
    AppAdvanced.query_base df1 min_install None = Ok q /\
    AppAdvanced.query_base df1 min_install (Some (AppAdvanced.max_cpi xs)) =
    Ok (band q (map (fun x => negb (isna x)) xs)).
Proof.
  intros Hs Hx. rewrite clean_numeric_column_ok in Hx. injection Hx as <-.
  rewrite !query_base_ok. eexists. split; [reflexivity|].
  unfold base_mask. rewrite Hs. now rewrite max_cpi_mask.
Qed.

(** The CPI column of the campaign table at its default threshold. *)
Lemma default_cpi_keeps_valid_witness :
  exists q,
    AppAdvanced.query_base campaign (Some 100%Z) None = Ok q /\
    AppAdvanced.query_base campaign (Some 100%Z)
      (Some (AppAdvanced.max_cpi [Fin (3 # 2); Fin (4 # 5); NaN; Fin (21 # 10)])) =
    Ok (band q [true; true; false; true]).
Proof.
  apply (default_cpi_keeps_valid campaign (Some 100%Z)
           (ObjSeries [Str "$1.50"; Str "$0.80"; Null; Str "$2.10"])).
  - reflexivity.
  - vm_compute. reflexivity.
Defined.

(** ** Scores row by row *)

Section RowScores.

Import AppAdvanced.

Lemma nth_error_map2 {A B C : Type} (f : A -> B -> C) (a : list A) (b : list B)
  (i : nat) (x : A) (y : B) :
  nth_error a i = Some x -> nth_error b i = Some y ->
  nth_error (map2 f a b) i = Some (f x y).
Proof.
  revert b i. induction a as [|u a IH]; intros [|v b] [|i] Ha Hb;
    cbn in *; try discriminate.
  - now injection Ha as ->; injection Hb as ->.
  - now apply IH.
Qed.

Lemma nth_error_points (d : direction) (cleaned : list float64) (m : float64)
  (i : nat) (x : float64) :
  nth_error cleaned i = Some x ->
  nth_error (points d cleaned m) i = Some (Z.b2z (beats d x m)).
Proof.
  intros H. destruct d; cbn [points beats]; rewrite nth_error_map, H;
    reflexivity.
Qed.

Lemma nth_error_repeat_lt {A : Type} (x : A) (n i : nat) :
  i < n -> nth_error (repeat x n) i = Some x.
Proof.
  revert i. induction n as [|n IH]; intros i H; [lia|].
  destruct i as [|i]; cbn; [reflexivity|]. apply IH. lia.
Qed.

Variable df : DataFrame.
Hypothesis df_aligned : aligned df.

Lemma total_points_nth (medians : benchmark) (items : list (string * metric)) :
  forall (scores : list Z) (i : nat) (z : Z),
    List.length scores = nrows df ->
    nth_error scores i = Some z ->
    nth_error (total_points df medians items scores) i =
    Some (z + total (map (rule_point df medians i) items))%Z.
Proof.
  induction items as [|[key config] items IH]; intros scores i z Hl Hz.
  - cbn. now rewrite Z.add_0_r.
  - cbn [total_points map total fold_right]. unfold rule_point at 1.
    cbn [fst snd].
    destruct (get_col df (col config)) as [s|] eqn:Es;
      [|rewrite Z.add_0_l; now apply IH].
    destruct (lookup medians key) as [[med|]|];
      try (rewrite Z.add_0_l; now apply IH).
    assert (Hlen : List.length (cleaned_values s) = nrows df).
    { rewrite cleaned_values_length. eapply aligned_col; eassumption. }
    destruct (nth_error (cleaned_values s) i) as [x|] eqn:Ex.
    + rewrite (IH _ i (z + Z.b2z (beats (direction_of config) x med))%Z).
      * f_equal. fold (total (map (rule_point df medians i) items)). lia.
      * rewrite map2_length; [assumption|]. now rewrite points_length, Hlen.
      * apply nth_error_map2; [assumption|now apply nth_error_points].
    + exfalso. apply nth_error_None in Ex.
      assert (Hi : i < List.length scores)
        by (apply nth_error_Some; congruence).
      lia.
Qed.

Lemma scores_of_nth (i : nat) :
  i < nrows df ->
  nth_error (scores_of df) i =
  Some (total (map (rule_point df (medians_of df) i) metrics)).
Proof.
  intros Hi. unfold scores_of.
  rewrite (total_points_nth (medians_of df) metrics _ i 0%Z).
  - reflexivity.
  - apply repeat_length.
  - now apply nth_error_repeat_lt.
Qed.

Lemma beats_missing (d : direction) (m : float64) : beats d NaN m = false.
Proof. destruct d, m; reflexivity. Qed.

Lemma rule_point_le (medians : benchmark) (i : nat) (kc : string * metric) :
  (0 <= rule_point df medians i kc <= Z.b2z (has_value df i kc))%Z.
Proof.
  unfold rule_point, has_value.
  destruct (get_col df (col (snd kc))) as [s|]; [|cbn; lia].
  destruct (lookup medians (fst kc)) as [[med|]|];
    destruct (nth_error (cleaned_values s) i) as [x|];
    try (cbn; lia); try (destruct (negb (isna x)); cbn; lia).
  destruct (isna x) eqn:Ex.
  - destruct x; try discriminate. rewrite beats_missing. cbn. lia.
  - cbn [negb Z.b2z]. destruct (beats (direction_of (snd kc)) x med); cbn; lia.
Qed.

Lemma total_le_count (medians : benchmark) (i : nat) (items : list (string * metric)) :
  (total (map (rule_point df medians i) items) <=
   Z.of_nat (List.length (filter (has_value df i) items)))%Z.
Proof.
  induction items as [|kc items IH]; cbn [map total fold_right filter];
    [cbn; lia|].
  pose proof (rule_point_le medians i kc) as H.
  fold (total (map (rule_point df medians i) items)).
  destruct (has_value df i kc); cbn [Z.b2z List.length] in *; lia.
Qed.

End RowScores.

(** X5.  On a frame whose columns have the length of its index,
    [calculate_score] returns one score per row, and the score of a row
    is the number of rules, among those whose column is there with a
    median, whose value in that row beats the median: strictly above it
    for ctr, cvr and retention, strictly below it for cpm. *)
Theorem score_is_count_of_beaten_medians (df : DataFrame) :
  aligned df ->
  exists scores medians,
    AppAdvanced.calculate_score df AppAdvanced.col_map = Ok (scores, medians) /\
    List.length scores = nrows df /\
    forall i,
      i < nrows df ->
      nth_error scores i =
      Some (total (map (rule_point df medians i) AppAdvanced.metrics)).
Proof.
  intros Ha. exists (scores_of df), (medians_of df).
  split; [apply calculate_score_ok|].
  split; [now apply scores_of_length|].
  intros i Hi. now apply scores_of_nth.
Qed.

(** The scores of the three creatives, row by row. *)
Lemma score_is_count_of_beaten_medians_witness :
  aligned three_creatives /\
  exists scores medians,
    AppAdvanced.calculate_score three_creatives AppAdvanced.col_map =
    Ok (scores, medians) /\
    List.length scores = nrows three_creatives /\
    forall i,
      i < nrows three_creatives ->
      nth_error scores i =
      Some (total (map (rule_point three_creatives medians i) AppAdvanced.metrics)).
Proof.
  split; [repeat constructor|].
  apply score_is_count_of_beaten_medians. repeat constructor.
Defined.

(** X6.  A Missing value never earns a point: the score of a row is at
    most the number of rules in whose column the row has a valid value,
    so a row with no valid metric scores 0. *)
Theorem missing_metric_earns_nothing (df : DataFrame) :
  aligned df ->
  exists scores medians,
    AppAdvanced.calculate_score df AppAdvanced.col_map = Ok (scores, medians) /\
    forall i z,
      nth_error scores i = Some z ->
      (z <= Z.of_nat (List.length (filter (has_value df i) AppAdvanced.metrics)))%Z.
Proof.
  intros Ha. exists (scores_of df), (medians_of df).
  split; [apply calculate_score_ok|].
  intros i z Hz.
  assert (Hi : i < nrows df).
  { rewrite <- (scores_of_length df Ha). apply nth_error_Some. congruence. }
  replace z
    with (total (map (rule_point df (medians_of df) i) AppAdvanced.metrics))
    by (pose proof (scores_of_nth df Ha i Hi); congruence).
  apply (total_le_count df (medians_of df) i AppAdvanced.metrics).
Qed.

(** On the campaign table every row has its four metrics. *)
Lemma missing_metric_earns_nothing_witness :
  aligned campaign /\
  exists scores medians,
    AppAdvanced.calculate_score campaign AppAdvanced.col_map = Ok (scores, medians) /\
    forall i z,
      nth_error scores i = Some z ->
      (z <= Z.of_nat (List.length (filter (has_value campaign i) AppAdvanced.metrics)))%Z.
Proof.
  split; [repeat constructor|].
  apply missing_metric_earns_nothing. repeat constructor.
Defined.

Section SingleRow.

Import AppAdvanced.

Lemma beats_irrefl (d : direction) (x : float64) : beats d x x = false.
Proof. destruct d; apply flt_irrefl. Qed.

Lemma median_single (x : float64) : isna x = false -> median [x] = x.
Proof.
  intros H. unfold median, dropna. cbn [filter]. rewrite H. reflexivity.
Qed.

Lemma rule_point_single (df : DataFrame) (key : string) (config : metric) :
  aligned df -> nrows df = 1 ->
  lookup (medians_of df) key = Some (entry_of df (col config)) ->
  rule_point df (medians_of df) 0 (key, config) = 0%Z.
Proof.
  intros Ha Hn Hk. unfold rule_point. cbn [fst snd]. rewrite Hk.
  unfold entry_of, valid_values.
  destruct (get_col df (col config)) as [s|] eqn:Es; [|reflexivity].
  assert (Hl : List.length (cleaned_values s) = 1).
  { rewrite cleaned_values_length, <- Hn. eapply aligned_col; eassumption. }
  destruct (cleaned_values s) as [|x [|y l]]; try discriminate.
  unfold dropna. cbn [filter nth_error].
  destruct (isna x) eqn:Ex; cbn [negb]; [reflexivity|].
  rewrite median_single by assumption. now rewrite beats_irrefl.
Qed.

End SingleRow.

(** X7.  A snapshot with a single row always scores 0: each median is
    the row's own value, and a value equal to the median earns
    nothing. *)
Theorem single_row_scores_zero (df : DataFrame) :
  aligned df -> nrows df = 1 ->
  exists medians,
    AppAdvanced.calculate_score df AppAdvanced.col_map = Ok ([0%Z], medians).
Proof.
  intros Ha Hn. exists (medians_of df). rewrite calculate_score_ok.
  f_equal. f_equal.
  pose proof (scores_of_length df Ha) as Hl.
  assert (H0 : nth_error (scores_of df) 0 = Some 0%Z).
  { rewrite scores_of_nth by (assumption || lia). f_equal.
    unfold AppAdvanced.metrics. cbn [map total fold_right].
    rewrite !rule_point_single by (assumption || reflexivity). reflexivity. }
  rewrite Hn in Hl.
  destruct (scores_of df) as [|z [|z' l]]; try discriminate.
  cbn in H0. now injection H0 as ->.
Qed.

(** A table with one creative. *)
Lemma single_row_scores_zero_witness :
  exists medians,
    AppAdvanced.calculate_score
      {| index := [0];
         columns := [ ("CTR", ObjSeries [Str "7%"]);
                      ("CPM", ObjSeries [Str "$1.20"]) ] |}
      AppAdvanced.col_map = Ok ([0%Z], medians).
Proof.
  apply single_row_scores_zero; [repeat constructor|reflexivity].
Defined.

(** ** More on the run of [app_advanced.py] *)

Section RunMore.

Import AppAdvanced.

Lemma Sublist_length {A : Type} (l1 l2 : list A) :
  Sublist l1 l2 -> List.length l1 <= List.length l2.
Proof. induction 1; cbn; lia. Qed.

Lemma nrows_boolean_index (df : DataFrame) (m : list bool) :
  nrows (boolean_index df m) <= nrows df.
Proof. unfold nrows. cbn. apply Sublist_length, mask_select_sublist. Qed.

Lemma nrows_scored (df1 : DataFrame) : nrows (scored df1) = nrows df1.
Proof. unfold nrows. now rewrite scored_index. Qed.

Lemma nrows_getitem (df : DataFrame) (d : mask_dtype) (m : list bool) :
  nrows (getitem df d m) <= nrows df.
Proof. destruct d; [apply nrows_boolean_index|apply Nat.le_refl]. Qed.

Lemma nrows_stage_one (df : DataFrame) (dates countries : list pyval) :
  nrows (stage_one df dates countries) <= nrows df.
Proof. apply nrows_getitem. Qed.

Lemma nrows_stage_two (snap : DataFrame) (n : Z) (c : float64) :
  nrows (stage_two snap n c) <= nrows snap.
Proof. apply nrows_getitem. Qed.

Lemma nrows_final_of (base : DataFrame) (slider : Z) :
  nrows (final_of base slider) <= nrows base.
Proof. unfold nrows. apply Sublist_length, final_of_index. Qed.

Lemma mask_select_none {A : Type} (m : list bool) (l : list A) :
  Forall (fun b => b = false) m -> mask_select m l = [].
Proof.
  intros H. revert l. induction H as [|b m Hb H IH]; intros [|x l];
    cbn; try reflexivity.
  rewrite Hb. apply IH.
Qed.

Lemma band_none_l (a b : list bool) :
  Forall (fun x => x = false) a -> Forall (fun x => x = false) (band a b).
Proof.
  intros H. revert b. unfold band.
  induction H as [|x a Hx H IH]; intros [|y b]; cbn; constructor.
  - now rewrite Hx.
  - apply IH.
Qed.

Lemma band_none_r (a b : list bool) :
  Forall (fun x => x = false) b -> Forall (fun x => x = false) (band a b).
Proof. rewrite band_comm. apply band_none_l. Qed.

Lemma isin_nothing (s : Series) : Forall (fun x => x = false) (isin s []).
Proof.
  destruct s as [v|v|v]; cbn; apply Forall_forall; intros b Hb;
    apply in_map_iff in Hb; now destruct Hb as [? [<- _]].
Qed.

Lemma all_true_mask {A : Type} (p : A -> bool) (l : list A) :
  Forall (fun x => p x = true) l -> map p l = repeat true (List.length l).
Proof.
  induction 1 as [|x l Hx H IH]; cbn; [reflexivity|]. now rewrite Hx, IH.
Qed.

Lemma fold_max_zero (l : list Z) :
  Forall (fun z => z = 0%Z) l -> fold_left Z.max l 0%Z = 0%Z.
Proof. induction 1 as [|z l Hz H IH]; cbn; [reflexivity|]. now rewrite Hz. Qed.

Lemma mask_select_Forall {A : Type} (P : A -> Prop) (m : list bool) (l : list A) :
  Forall P l -> Forall P (mask_select m l).
Proof.
  intros H. apply Forall_forall. intros x Hx. rewrite Forall_forall in H.
  apply H. eapply Sublist_incl; [apply mask_select_sublist|eassumption].
Qed.

Lemma score_values_of_base (snap : DataFrame) (n : Z) (c : float64) (v : list Z) :
  aligned snap ->
  0 < nrows (stage_two (scored snap) n c) ->
  get_col (stage_two (scored snap) n c) score_col = Some (IntSeries v) ->
  v = mask_select
        (base_mask (scored snap) (widget (scored snap) "install" n)
           (widget (scored snap) "cpi" c))
        (scores_of snap) /\
  List.length v = nrows (stage_two (scored snap) n c).
Proof.
  intros Hs Hpos Hv.
  assert (Hb : stage_two (scored snap) n c =
               boolean_index (scored snap)
                 (base_mask (scored snap) (widget (scored snap) "install" n)
                    (widget (scored snap) "cpi" c)))
    by (apply getitem_nonempty; [apply query_base_dtype_sound|exact Hpos]).
  rewrite Hb in *.
  destruct (scored_score_col snap Hs) as [H0|[Hc Hl]].
  - exfalso. pose proof (nrows_boolean_index (scored snap)
                           (base_mask (scored snap) (widget (scored snap) "install" n)
                              (widget (scored snap) "cpi" c))) as Hle.
    rewrite nrows_scored in Hle. lia.
  - rewrite get_col_boolean_index, Hc in Hv. cbn in Hv. injection Hv as <-.
    split; [reflexivity|].
    unfold nrows, boolean_index. cbn [index]. rewrite scored_index.
    now apply mask_select_length.
Qed.

End RunMore.

(** X8.  In a run that completes, when the score slider is at 0, or
    when every score of the Stage-2 frame is 0 (the slider is then not
    read), the final frame is the Stage-2 frame itself, provided it has
    rows. *)
Theorem score_threshold_inactive (df : DataFrame) (ui : AppAdvanced.Sidebar)
  (r : AppAdvanced.Outcome) :
  well_formed df ->
  AppAdvanced.main df ui = Ok r ->
  forall v,
    get_col (AppAdvanced.df_base_filtered r) AppAdvanced.score_col =
    Some (IntSeries v) ->
    0 < nrows (AppAdvanced.df_base_filtered r) ->
    (AppAdvanced.slider_score ui <= 0)%Z \/ Forall (fun z => z = 0%Z) v ->
    AppAdvanced.df_final r = AppAdvanced.df_base_filtered r.
Proof.
  intros [_ Ha] Hr. rewrite (main_returns df ui r Ha Hr).
  unfold outcome_of.
  cbn [AppAdvanced.df_base_filtered AppAdvanced.df_final].
  set (snap := stage_one df (AppAdvanced.multiselect_date ui)
                 (AppAdvanced.multiselect_country ui)).
  intros v Hv Hpos Hcase.
  assert (Hs : aligned snap) by (now apply stage_one_aligned).
  destruct (score_values_of_base snap _ _ v Hs Hpos Hv) as [Hvq Hl].
  assert (Hnonneg : Forall (fun z => (0 <= z)%Z) v).
  { rewrite Hvq. apply mask_select_Forall.
    eapply Forall_impl; [|apply (scores_of_between snap)].
    unfold between. intros; lia. }
  unfold final_of. rewrite Hv.
  apply Nat.ltb_lt in Hpos. rewrite Hpos. apply Nat.ltb_lt in Hpos.
  destruct v as [|x v']; [cbn [List.length] in Hl; lia|].
  cbv zeta. rewrite all_true_mask.
  - rewrite Hl. apply boolean_index_all.
    apply stage_two_aligned. now apply scored_aligned.
  - destruct Hcase as [Hslider|Hzero].
    + eapply Forall_impl; [|exact Hnonneg]. intros z Hz. cbv beta in Hz.
      apply Z.leb_le. destruct (fold_left Z.max v' x =? 0)%Z; lia.
    + inversion Hzero as [|? ? Hx Hz']; subst.
      rewrite (fold_max_zero v' Hz'). cbn [Z.eqb].
      eapply Forall_impl; [|exact Hnonneg]. intros z Hz.
      now apply Z.leb_le.
Qed.

(** A run on the campaign table with the slider at 0: the two rows of
    the Stage-2 frame, one of them with score 0, are both kept. *)
Lemma score_threshold_inactive_witness :
  exists r,
    AppAdvanced.main campaign
      {| AppAdvanced.multiselect_date := [PStr "2024-01-01"; PStr "2024-01-02"];
         AppAdvanced.multiselect_country := [PStr "US"; PStr "JP"; PStr "BR"];
         AppAdvanced.number_input_install := 0;
         AppAdvanced.number_input_cpi := Fin (21 # 10);
         AppAdvanced.slider_score := 0 |} = Ok r /\
    get_col (AppAdvanced.df_base_filtered r) AppAdvanced.score_col =
    Some (IntSeries [0; 4]%Z) /\
    AppAdvanced.df_final r = AppAdvanced.df_base_filtered r.
Proof.
  assert (Hw : well_formed campaign)
    by (split; [reflexivity|repeat constructor]).
  match goal with
  | |- exists r, AppAdvanced.main campaign ?ui = Ok r /\ _ =>
      assert (Hr : AppAdvanced.main campaign ui = Ok (outcome_of campaign ui))
        by (vm_compute; reflexivity);
      exists (outcome_of campaign ui);
      pose proof (score_threshold_inactive campaign ui _ Hw Hr) as Hfinal
  end.
  split; [exact Hr|]. split; [reflexivity|].
  apply (Hfinal [0; 4]%Z);
    [reflexivity|apply Nat.ltb_lt; vm_compute; reflexivity|left; cbn; lia].
Defined.

Section EmptySelection.

Import AppAdvanced.

Lemma query_nothing_selected (df : DataFrame) (dates countries : list pyval) :
  (get_col df (field "date") <> None /\ dates = []) \/
  (get_col df (field "country") <> None /\ countries = []) ->
  Forall (fun b => b = false)
    (query_date_country df (widget df "date" dates) (widget df "country" countries)).
Proof.
  unfold query_date_country, widget.
  intros [[Hc ->]|[Hc ->]].
  - destruct (get_col df (field "date")) as [s|]; [|congruence].
    destruct (get_col df (field "country")) as [t|].
    + apply band_none_l, band_none_r, isin_nothing.
    + apply band_none_r, isin_nothing.
  - destruct (get_col df (field "country")) as [t|]; [|congruence].
    apply band_none_r, isin_nothing.
Qed.

Lemma stage_one_filtered (df : DataFrame) (dates countries : list pyval) :
  0 < nrows df \/ get_col df (field "date") <> None \/
  get_col df (field "country") <> None ->
  stage_one df dates countries = snapshot_of df dates countries.
Proof.
  unfold stage_one, snapshot_of, query_date_country_dtype, widget.
  intros H.
  destruct (get_col df (field "country")) as [t|]; [reflexivity|].
  destruct (get_col df (field "date")) as [s|]; [reflexivity|].
  destruct H as [H|[H|H]]; try congruence.
  destruct (nrows df); [lia|reflexivity].
Qed.

Lemma none_selected_accepted (df : DataFrame) (m : list bool) :
  Forall (fun b => b = false) m ->
  install_accepted (boolean_index df m) = true /\
  cpi_accepted (boolean_index df m) = true.
Proof.
  intros H. unfold install_accepted, cpi_accepted.
  rewrite !get_col_boolean_index. split.
  - destruct (get_col df (field "install")) as [s|]; cbn [option_map];
      [|reflexivity].
    now rewrite cleaned_values_select, mask_select_none.
  - destruct (get_col df (field "cpi")) as [s|]; cbn [option_map];
      [|reflexivity].
    now rewrite cleaned_values_select, mask_select_none.
Qed.

Lemma scored_empty (df1 : DataFrame) : nrows df1 = 0 -> scored df1 = df1.
Proof. intros H. unfold scored. now rewrite H. Qed.

End EmptySelection.

(** X9.  When the user clears the date selection (or the country
    selection) of a frame that has the column, the snapshot has no row,
    nothing is scored, there are no medians, and the final frame is the
    empty frame without columns. *)
Theorem empty_selection_gives_nothing (df : DataFrame) (ui : AppAdvanced.Sidebar) :
  well_formed df ->
  (get_col df (AppAdvanced.field "date") <> None /\
   AppAdvanced.multiselect_date ui = []) \/
  (get_col df (AppAdvanced.field "country") <> None /\
   AppAdvanced.multiselect_country ui = []) ->
  exists r,
    AppAdvanced.main df ui = Ok r /\
    nrows (AppAdvanced.df_date_country_filtered r) = 0 /\
    AppAdvanced.scores r = [] /\
    AppAdvanced.medians r = [] /\
    nrows (AppAdvanced.df_base_filtered r) = 0 /\
    AppAdvanced.df_final r = empty_frame.
Proof.
  intros [_ Ha] Hsel.
  pose proof (query_nothing_selected df _ _ Hsel) as Hq.
  assert (Hone : stage_one df (AppAdvanced.multiselect_date ui)
                   (AppAdvanced.multiselect_country ui) =
                 snapshot_of df (AppAdvanced.multiselect_date ui)
                   (AppAdvanced.multiselect_country ui)).
  { apply stage_one_filtered. right. destruct Hsel as [[H _]|[H _]]; tauto. }
  assert (Hn : nrows (snapshot_of df (AppAdvanced.multiselect_date ui)
                        (AppAdvanced.multiselect_country ui)) = 0).
  { unfold snapshot_of, nrows, boolean_index. cbn [index].
    now rewrite mask_select_none. }
  destruct (none_selected_accepted df _ Hq) as [Hi Hc].
  fold (snapshot_of df (AppAdvanced.multiselect_date ui)
          (AppAdvanced.multiselect_country ui)) in Hi, Hc.
  exists (outcome_of df ui). split.
  - apply main_ok; [assumption| |]; rewrite Hone, scored_empty by exact Hn;
      assumption.
  - unfold outcome_of.
    cbn [AppAdvanced.df_date_country_filtered AppAdvanced.scores
         AppAdvanced.medians AppAdvanced.df_base_filtered AppAdvanced.df_final].
    rewrite Hone.
    set (snap := snapshot_of df (AppAdvanced.multiselect_date ui)
                   (AppAdvanced.multiselect_country ui)) in *.
    assert (Hb : nrows (stage_two (scored snap)
                          (AppAdvanced.number_input_install ui)
                          (AppAdvanced.number_input_cpi ui)) = 0).
    { pose proof (nrows_stage_two (scored snap)
                    (AppAdvanced.number_input_install ui)
                    (AppAdvanced.number_input_cpi ui)) as Hle.
      rewrite nrows_scored in Hle. lia. }
    rewrite nrows_scored, Hn. cbn [Nat.ltb Nat.leb].
    split; [reflexivity|]. split; [reflexivity|]. split; [reflexivity|].
    split; [exact Hb|].
    unfold final_of. now rewrite Hb.
Qed.

(** The campaign table with no country selected. *)
Lemma empty_selection_gives_nothing_witness :
  exists r,
    AppAdvanced.main campaign
      {| AppAdvanced.multiselect_date := [PStr "2024-01-01"];
         AppAdvanced.multiselect_country := [];
         AppAdvanced.number_input_install := 0;
         AppAdvanced.number_input_cpi := Fin 3;
         AppAdvanced.slider_score := 0 |} = Ok r /\
    nrows (AppAdvanced.df_date_country_filtered r) = 0 /\
    AppAdvanced.scores r = [] /\
    AppAdvanced.medians r = [] /\
    nrows (AppAdvanced.df_base_filtered r) = 0 /\
    AppAdvanced.df_final r = empty_frame.
Proof.
  apply empty_selection_gives_nothing.
  - split; [reflexivity|repeat constructor].
  - right. split; [discriminate|reflexivity].
Defined.

(** X10.  In a run that completes, scoring adds the score column to the
    snapshot and changes nothing else: when the snapshot has rows its
    score column holds the scores returned, every other column is the
    selected part of the column of the frame read, and the row labels
    are the selected labels.  The one exception is a frame without rows
    and without date and country columns, whose snapshot has no column
    at all. *)
Theorem scoring_adds_one_column (df : DataFrame) (ui : AppAdvanced.Sidebar)
  (r : AppAdvanced.Outcome) :
  well_formed df ->
  AppAdvanced.main df ui = Ok r ->
  let mask :=
    AppAdvanced.query_date_country df
      (AppAdvanced.widget df "date" (AppAdvanced.multiselect_date ui))
      (AppAdvanced.widget df "country" (AppAdvanced.multiselect_country ui)) in
  index (AppAdvanced.df_date_country_filtered r) = mask_select mask (index df) /\
  (0 < nrows (AppAdvanced.df_date_country_filtered r) ->
   get_col (AppAdvanced.df_date_country_filtered r) AppAdvanced.score_col =
   Some (IntSeries (AppAdvanced.scores r))) /\
  (0 < nrows df \/ get_col df (AppAdvanced.field "date") <> None \/
   get_col df (AppAdvanced.field "country") <> None ->
   forall name,
     name <> AppAdvanced.score_col ->
     get_col (AppAdvanced.df_date_country_filtered r) name =
     option_map (series_select mask) (get_col df name)) /\
  (nrows df = 0 ->
   get_col df (AppAdvanced.field "date") = None ->
   get_col df (AppAdvanced.field "country") = None ->
   columns (AppAdvanced.df_date_country_filtered r) = []).
Proof.
  intros [_ Ha] Hr mask. subst mask. rewrite (main_returns df ui r Ha Hr).
  unfold outcome_of.
  cbn [AppAdvanced.df_date_country_filtered AppAdvanced.scores].
  rewrite nrows_scored, scored_index.
  split; [apply stage_one_index|]. split; [|split].
  - intros Hpos. apply Nat.ltb_lt in Hpos. unfold scored. rewrite Hpos.
    unfold get_col, set_col. cbn [columns]. apply lookup_assign_same.
  - intros Hcase name Hname. rewrite (stage_one_filtered df _ _ Hcase).
    unfold scored. destruct (0 <? nrows _).
    + unfold get_col at 1. unfold set_col. cbn [columns].
      rewrite lookup_assign_other by congruence.
      apply get_col_boolean_index.
    + apply get_col_boolean_index.
  - intros H0 Hd Hc.
    pose proof (nrows_stage_one df (AppAdvanced.multiselect_date ui)
                  (AppAdvanced.multiselect_country ui)) as Hle.
    rewrite scored_empty by lia.
    unfold stage_one, AppAdvanced.query_date_country_dtype, AppAdvanced.widget.
    rewrite Hd, Hc, H0. reflexivity.
Qed.

(** The score column of a run on the campaign table, and the install
    column of its snapshot. *)
Lemma scoring_adds_one_column_witness :
  exists r,
    AppAdvanced.main campaign
      {| AppAdvanced.multiselect_date := [PStr "2024-01-02"];
         AppAdvanced.multiselect_country := [PStr "US"; PStr "BR"];
         AppAdvanced.number_input_install := 0;
         AppAdvanced.number_input_cpi := Fin (21 # 10);
         AppAdvanced.slider_score := 0 |} = Ok r /\
    index (AppAdvanced.df_date_country_filtered r) = [2; 3] /\
    get_col (AppAdvanced.df_date_country_filtered r) AppAdvanced.score_col =
    Some (IntSeries (AppAdvanced.scores r)) /\
    get_col (AppAdvanced.df_date_country_filtered r) "Install(AF)" =
    Some (ObjSeries [Str "300"; Str "45"]).
Proof.
  assert (Hw : well_formed campaign)
    by (split; [reflexivity|repeat constructor]).
  match goal with
  | |- exists r, AppAdvanced.main campaign ?ui = Ok r /\ _ =>
      assert (Hr : AppAdvanced.main campaign ui = Ok (outcome_of campaign ui))
        by (vm_compute; reflexivity);
      exists (outcome_of campaign ui);
      pose proof (scoring_adds_one_column campaign ui _ Hw Hr)
        as [Hindex [Hscore [Hother _]]]
  end.
  split; [exact Hr|]. split; [exact Hindex|]. split.
  - apply Hscore. apply Nat.ltb_lt. vm_compute. reflexivity.
  - rewrite Hother.
    + reflexivity.
    + left. apply Nat.ltb_lt. vm_compute. reflexivity.
    + intros H. vm_compute in H. discriminate H.
Defined.

Section Monotone.

Import AppAdvanced.

Lemma mask_select_mono {A : Type} (m' m : list bool) (l : list A) :
  Forall2 implies m' m -> Sublist (mask_select m' l) (mask_select m l).
Proof.
  intros H. revert l. induction H as [|b' b m' m Hb H IH]; intros [|x l];
    cbn [mask_select]; try apply Sublist_nil.
  destruct b'.
  - rewrite (Hb eq_refl). apply Sublist_keep, IH.
  - destruct b; [apply Sublist_skip|]; apply IH.
Qed.

Lemma implies_band (a' a b' b : list bool) :
  Forall2 implies a' a -> Forall2 implies b' b ->
  Forall2 implies (band a' b') (band a b).
Proof.
  intros Ha. revert b' b. unfold band.
  induction Ha as [|x' x a' a Hx Ha IH]; intros b' b Hb.
  - destruct Hb; constructor.
  - destruct Hb as [|y' y b' b Hy Hb]; cbn; constructor.
    + unfold implies in *. intros H. apply andb_true_iff in H.
      destruct H as [H1 H2]. now rewrite (Hx H1), (Hy H2).
    + now apply IH.
Qed.

Lemma implies_map {A : Type} (p' p : A -> bool) (l : list A) :
  (forall x, p' x = true -> p x = true) ->
  Forall2 implies (map p' l) (map p l).
Proof.
  intros H. induction l as [|x l IH]; cbn; [constructor|].
  constructor; [exact (H x)|exact IH].
Qed.

Lemma implies_refl (m : list bool) : Forall2 implies m m.
Proof.
  induction m as [|b m IH]; [constructor|].
  constructor; [now intros H|assumption].
Qed.

Lemma base_mask_mono (df1 : DataFrame) (n n' : Z) (c c' : float64) :
  (n <= n')%Z -> fle c' c = true ->
  Forall2 implies
    (base_mask df1 (widget df1 "install" n') (widget df1 "cpi" c'))
    (base_mask df1 (widget df1 "install" n) (widget df1 "cpi" c)).
Proof.
  intros Hn Hc. unfold base_mask, widget.
  assert (H1 : Forall2 implies
                 (match get_col df1 (field "install") with
                  | Some s => band (repeat true (nrows df1))
                                (map (fun x => fge x (of_int n')) (cleaned_values s))
                  | None => repeat true (nrows df1)
                  end)
                 (match get_col df1 (field "install") with
                  | Some s => band (repeat true (nrows df1))
                                (map (fun x => fge x (of_int n)) (cleaned_values s))
                  | None => repeat true (nrows df1)
                  end)).
  { destruct (get_col df1 (field "install")) as [s|]; [|apply implies_refl].
    apply implies_band; [apply implies_refl|].
    apply implies_map. intros x Hx. unfold fge in *.
    apply fle_trans with (y := of_int n'); [|assumption].
    cbn. apply Qle_bool_iff. rewrite <- Zle_Qle. exact Hn. }
  destruct (get_col df1 (field "install")) as [s|];
    destruct (get_col df1 (field "cpi")) as [t|]; try exact H1;
    (apply implies_band; [exact H1|]);
    apply implies_map; intros x Hx; now apply fle_trans with (y := c').
Qed.

End Monotone.

(** X11.  A stricter Stage 2 never adds rows: of two runs that complete
    with the same selection of dates and countries, the one with the
    higher minimum install and the lower maximum CPI has a Stage-2 frame
    whose rows are rows of the other one, in the same order. *)
Theorem stricter_thresholds_remove_rows (df : DataFrame)
  (dates countries : list pyval) (install install' : Z) (cpi cpi' : float64)
  (slider slider' : Z) (r r' : AppAdvanced.Outcome) :
  well_formed df ->
  (install <= install')%Z -> fle cpi' cpi = true ->
  AppAdvanced.main df
    {| AppAdvanced.multiselect_date := dates;
       AppAdvanced.multiselect_country := countries;
       AppAdvanced.number_input_install := install;
       AppAdvanced.number_input_cpi := cpi;
       AppAdvanced.slider_score := slider |} = Ok r ->
  AppAdvanced.main df
    {| AppAdvanced.multiselect_date := dates;
       AppAdvanced.multiselect_country := countries;
       AppAdvanced.number_input_install := install';
       AppAdvanced.number_input_cpi := cpi';
       AppAdvanced.slider_score := slider' |} = Ok r' ->
  Sublist (rows (AppAdvanced.df_base_filtered r'))
          (rows (AppAdvanced.df_base_filtered r)).
Proof.
  intros [_ Ha] Hn Hc Hr Hr'.
  rewrite (main_returns _ _ _ Ha Hr), (main_returns _ _ _ Ha Hr').
  unfold outcome_of.
  cbn [AppAdvanced.df_base_filtered AppAdvanced.multiselect_date
       AppAdvanced.multiselect_country AppAdvanced.number_input_install
       AppAdvanced.number_input_cpi].
  rewrite !stage_two_rows. apply mask_select_mono.
  now apply base_mask_mono.
Qed.

(** Two runs on the campaign table, the second one stricter: it keeps
    one of the two rows the first one keeps. *)
Lemma stricter_thresholds_remove_rows_witness :
  exists r r',
    AppAdvanced.main campaign
      {| AppAdvanced.multiselect_date := [PStr "2024-01-01"; PStr "2024-01-02"];
         AppAdvanced.multiselect_country := [PStr "US"; PStr "JP"; PStr "BR"];
         AppAdvanced.number_input_install := 0;
         AppAdvanced.number_input_cpi := Fin (21 # 10);
         AppAdvanced.slider_score := 0 |} = Ok r /\
    AppAdvanced.main campaign
      {| AppAdvanced.multiselect_date := [PStr "2024-01-01"; PStr "2024-01-02"];
         AppAdvanced.multiselect_country := [PStr "US"; PStr "JP"; PStr "BR"];
         AppAdvanced.number_input_install := 100;
         AppAdvanced.number_input_cpi := Fin 2;
         AppAdvanced.slider_score := 1 |} = Ok r' /\
    index (AppAdvanced.df_base_filtered r) = [0; 3] /\
    index (AppAdvanced.df_base_filtered r') = [0] /\
    Sublist (rows (AppAdvanced.df_base_filtered r'))
            (rows (AppAdvanced.df_base_filtered r)).
Proof.
  assert (Hw : well_formed campaign)
    by (split; [reflexivity|repeat constructor]).
  match goal with
  | |- exists r r', AppAdvanced.main campaign ?ui = Ok r /\
                    AppAdvanced.main campaign ?ui' = Ok r' /\ _ =>
      assert (Hr : AppAdvanced.main campaign ui = Ok (outcome_of campaign ui))
        by (vm_compute; reflexivity);
      assert (Hr' : AppAdvanced.main campaign ui' = Ok (outcome_of campaign ui'))
        by (vm_compute; reflexivity);
      exists (outcome_of campaign ui), (outcome_of campaign ui')
  end.
  split; [exact Hr|]. split; [exact Hr'|].
  split; [reflexivity|]. split; [reflexivity|].
  assert (Hn : (0 <= 100)%Z) by lia.
  assert (Hc : fle (Fin 2) (Fin (21 # 10)) = true) by reflexivity.
  exact (stricter_thresholds_remove_rows campaign _ _ _ _ _ _ _ _ _ _ Hw Hn Hc Hr Hr').
Defined.

Section AbsentColumns.

Import AppAdvanced.

Lemma score_col_not_install : score_col <> field "install".
Proof. intros H. vm_compute in H. discriminate H. Qed.

Lemma score_col_not_cpi : score_col <> field "cpi".
Proof. intros H. vm_compute in H. discriminate H. Qed.

Lemma get_col_scored_other (df1 : DataFrame) (name : string) :
  score_col <> name -> get_col (scored df1) name = get_col df1 name.
Proof.
  intros H. unfold scored. destruct (0 <? nrows df1); [|reflexivity].
  unfold get_col, set_col. cbn [columns]. now apply lookup_assign_other.
Qed.

Lemma getitem_all (df1 : DataFrame) :
  aligned df1 -> (nrows df1 = 0 -> columns df1 = []) ->
  getitem df1 (ones_dtype (nrows df1)) (repeat true (nrows df1)) = df1.
Proof.
  intros Ha H0. destruct (nrows df1) eqn:E.
  - specialize (H0 eq_refl). destruct df1 as [idx cols]. cbn in *.
    now rewrite H0.
  - cbn [ones_dtype getitem]. rewrite <- E. now apply boolean_index_all.
Qed.

End AbsentColumns.

(** X12.  Filters on columns the frame does not have are skipped: a
    frame with none of the date, country, install and CPI columns goes
    through both stages with all its rows. *)
Theorem absent_columns_are_not_filtered (df : DataFrame) (ui : AppAdvanced.Sidebar) :
  well_formed df ->
  get_col df (AppAdvanced.field "date") = None ->
  get_col df (AppAdvanced.field "country") = None ->
  get_col df (AppAdvanced.field "install") = None ->
  get_col df (AppAdvanced.field "cpi") = None ->
  exists r,
    AppAdvanced.main df ui = Ok r /\
    index (AppAdvanced.df_date_country_filtered r) = index df /\
    AppAdvanced.df_base_filtered r = AppAdvanced.df_date_country_filtered r.
Proof.
  intros [_ Ha] Hd Hc Hi Hp.
  set (snap := stage_one df (AppAdvanced.multiselect_date ui)
                 (AppAdvanced.multiselect_country ui)).
  assert (Hs : snap = getitem df (ones_dtype (nrows df)) (repeat true (nrows df))).
  { unfold snap, stage_one, AppAdvanced.query_date_country_dtype,
      AppAdvanced.query_date_country, AppAdvanced.widget.
    now rewrite Hd, Hc. }
  assert (Hidx : index snap = index df).
  { rewrite Hs, getitem_index by apply ones_dtype_sound.
    apply mask_select_all. }
  assert (Hcols : forall name, get_col df name = None -> get_col snap name = None).
  { intros name Hname. rewrite Hs. destruct (nrows df); [reflexivity|].
    cbn [ones_dtype getitem]. now rewrite get_col_boolean_index, Hname. }
  assert (Hsa : aligned (scored snap))
    by (apply scored_aligned; now apply stage_one_aligned).
  assert (Hsi : get_col (scored snap) (AppAdvanced.field "install") = None).
  { rewrite get_col_scored_other by apply score_col_not_install. now apply Hcols. }
  assert (Hsp : get_col (scored snap) (AppAdvanced.field "cpi") = None).
  { rewrite get_col_scored_other by apply score_col_not_cpi. now apply Hcols. }
  assert (Hcol0 : nrows (scored snap) = 0 -> columns (scored snap) = []).
  { rewrite nrows_scored. intros H0. rewrite scored_empty by exact H0.
    assert (Hdf : nrows df = 0) by (unfold nrows in *; now rewrite <- Hidx).
    rewrite Hs, Hdf. reflexivity. }
  exists (outcome_of df ui). split.
  - apply main_ok; [assumption| |].
    + unfold install_accepted. fold snap. now rewrite Hsi.
    + unfold cpi_accepted. fold snap. now rewrite Hsp.
  - unfold outcome_of.
    cbn [AppAdvanced.df_date_country_filtered AppAdvanced.df_base_filtered].
    fold snap. split; [now rewrite scored_index|].
    unfold stage_two, AppAdvanced.query_base_dtype, base_mask, AppAdvanced.widget.
    rewrite Hsi, Hsp. now apply getitem_all.
Qed.

(** The three creatives have metrics only. *)
Lemma absent_columns_are_not_filtered_witness :
  exists r,
    AppAdvanced.main three_creatives
      {| AppAdvanced.multiselect_date := [];
         AppAdvanced.multiselect_country := [];
         AppAdvanced.number_input_install := 5;
         AppAdvanced.number_input_cpi := Fin 1;
         AppAdvanced.slider_score := 0 |} = Ok r /\
    index (AppAdvanced.df_date_country_filtered r) = index three_creatives /\
    AppAdvanced.df_base_filtered r = AppAdvanced.df_date_country_filtered r.
Proof.
  apply absent_columns_are_not_filtered; try reflexivity.
  split; [reflexivity|repeat constructor].
Defined.

Section Overview.

Lemma share_bounds (a b : nat) :
  a <= b -> 0 < b ->
  (0 <= inject_Z (Z.of_nat a) / inject_Z (Z.of_nat b) * 100 /\
   inject_Z (Z.of_nat a) / inject_Z (Z.of_nat b) * 100 <= 100)%Q.
Proof.
  intros Hab Hb.
  destruct (Z.of_nat b) as [|p|p] eqn:Eb; try lia.
  assert (Ha : (0 <= Z.of_nat a <= Z.pos p)%Z) by lia.
  unfold Qle, Qdiv, Qmult, Qinv, inject_Z. cbn.
  split; nia.
Qed.

End Overview.

(** X13.  In a run that completes, the counts shown in the overview
    never grow from one stage to the next, and the share of rows kept,
    computed only when the denominator is not zero, lies between 0 and
    100 percent; this holds for [app_advanced.py] and for [app.py]. *)
Theorem overview_counts_are_nested (df : DataFrame)
  (ui : AppAdvanced.Sidebar) (ui0 : App.Sidebar)
  (r : AppAdvanced.Outcome) (df_sel : DataFrame) :
  well_formed df ->
  (AppAdvanced.main df ui = Ok r ->
   exists total base final share,
     AppAdvanced.overview r = (total, base, final, share) /\
     final <= base /\ base <= total /\ total <= nrows df /\
     match share with
     | Some q => 0 < base /\ (0 <= q)%Q /\ (q <= 100)%Q
     | None => base = 0 /\ final = 0
     end) /\
  (App.main df ui0 = Ok df_sel ->
   exists share,
     App.overview df df_sel = (nrows df, nrows df_sel, share) /\
     nrows df_sel <= nrows df /\
     match share with
     | Some q => 0 < nrows df /\ (0 <= q)%Q /\ (q <= 100)%Q
     | None => nrows df = 0 /\ nrows df_sel = 0
     end).
Proof.
  intros [_ Ha]. split.
  - intros Hr. rewrite (main_returns df ui r Ha Hr). do 4 eexists.
    split; [reflexivity|].
    unfold outcome_of.
    cbn [AppAdvanced.df_date_country_filtered AppAdvanced.df_base_filtered
         AppAdvanced.df_final].
    set (snap := stage_one df (AppAdvanced.multiselect_date ui)
                   (AppAdvanced.multiselect_country ui)).
    set (base := stage_two (scored snap) _ _).
    pose proof (nrows_final_of base (AppAdvanced.slider_score ui)) as H1.
    assert (H2 : nrows base <= nrows (scored snap))
      by apply nrows_stage_two.
    assert (H3 : nrows (scored snap) <= nrows df)
      by (rewrite nrows_scored; apply nrows_stage_one).
    split; [exact H1|]. split; [exact H2|]. split; [exact H3|].
    destruct (0 <? nrows base) eqn:E.
    + apply Nat.ltb_lt in E. split; [exact E|]. now apply share_bounds.
    + apply Nat.ltb_ge in E. lia.
  - intros Hr. destruct (app_main_returns df ui0 df_sel Hr) as [d [q [_ [-> _]]]].
    eexists. split; [reflexivity|].
    pose proof (nrows_getitem df d q) as Hle.
    split; [exact Hle|].
    destruct (0 <? nrows df) eqn:E.
    + apply Nat.ltb_lt in E. split; [exact E|]. now apply share_bounds.
    + apply Nat.ltb_ge in E. lia.
Qed.

(** The overview of a run of each script on the campaign table: 4, 2
    and 1 rows with a share of 100/2 percent, and 3 rows of 4. *)
Lemma overview_counts_are_nested_witness :
  exists r df_sel,
    AppAdvanced.main campaign
      {| AppAdvanced.multiselect_date := [PStr "2024-01-01"; PStr "2024-01-02"];
         AppAdvanced.multiselect_country := [PStr "US"; PStr "JP"; PStr "BR"];
         AppAdvanced.number_input_install := 0;
         AppAdvanced.number_input_cpi := Fin (21 # 10);
         AppAdvanced.slider_score := 1 |} = Ok r /\
    App.main campaign
      {| App.multiselect_date := [PStr "2024-01-01"; PStr "2024-01-02"];
         App.multiselect_country := [PStr "US"; PStr "JP"; PStr "BR"];
         App.number_input_install := 0 |} = Ok df_sel /\
    AppAdvanced.overview r = (4, 2, 1, Some (100 # 2)) /\
    (exists total base final share,
       AppAdvanced.overview r = (total, base, final, share) /\
       final <= base /\ base <= total /\ total <= nrows campaign /\
       match share with
       | Some q => 0 < base /\ (0 <= q)%Q /\ (q <= 100)%Q
       | None => base = 0 /\ final = 0
       end) /\
    nrows df_sel = 3 /\
    (exists share,
       App.overview campaign df_sel = (nrows campaign, nrows df_sel, share) /\
       nrows df_sel <= nrows campaign /\
       match share with
       | Some q => 0 < nrows campaign /\ (0 <= q)%Q /\ (q <= 100)%Q
       | None => nrows campaign = 0 /\ nrows df_sel = 0
       end).
Proof.
  assert (Hw : well_formed campaign)
    by (split; [reflexivity|repeat constructor]).
  match goal with
  | |- exists r df_sel, AppAdvanced.main campaign ?ui = Ok r /\
                        App.main campaign ?ui0 = Ok df_sel /\ _ =>
      assert (Hr : AppAdvanced.main campaign ui = Ok (outcome_of campaign ui))
        by (vm_compute; reflexivity);
      assert (Hs : App.main campaign ui0 =
                   Ok (boolean_index campaign [true; false; true; true]))
        by (vm_compute; reflexivity);
      exists (outcome_of campaign ui),
             (boolean_index campaign [true; false; true; true]);
      pose proof (overview_counts_are_nested campaign ui ui0
                    (outcome_of campaign ui)
                    (boolean_index campaign [true; false; true; true]) Hw)
        as [Hadv Happ]
  end.
  split; [exact Hr|]. split; [exact Hs|].
  split; [vm_compute; reflexivity|].
  split; [exact (Hadv Hr)|].
  split; [reflexivity|exact (Happ Hs)].
Defined.

(** ** Sorting, distinct values and counts *)

Section SortBy.

Context {A : Type}.
Variable keep : A -> A -> bool.

Lemma insert_by_perm (x : A) (l : list A) :
  Permutation (insert_by keep x l) (x :: l).
Proof.
  induction l as [|y l IH]; cbn; [reflexivity|].
  destruct (keep x y); [reflexivity|].
  rewrite IH. apply perm_swap.
Qed.

Lemma sort_by_perm (l : list A) : Permutation (sort_by keep l) l.
Proof.
  induction l as [|x l IH]; cbn; [reflexivity|].
  rewrite insert_by_perm. now constructor.
Qed.

Hypothesis keep_total : forall x y, keep x y = false -> keep y x = true.

Lemma insert_by_sorted (x : A) (l : list A) :
  Sorted (fun a b => keep a b = true) l ->
  Sorted (fun a b => keep a b = true) (insert_by keep x l).
Proof.
  induction 1 as [|y l Hs IH Hd]; cbn.
  - repeat constructor.
  - destruct (keep x y) eqn:E.
    + constructor; [now constructor|now constructor].
    + constructor; [exact IH|].
      destruct l as [|z l]; cbn.
      * constructor. now apply keep_total.
      * destruct (keep x z); constructor;
          [now apply keep_total|now inversion Hd].
Qed.

Lemma sort_by_sorted (l : list A) :
  Sorted (fun a b => keep a b = true) (sort_by keep l).
Proof.
  induction l as [|x l IH]; cbn; [constructor|].
  now apply insert_by_sorted.
Qed.

End SortBy.

Section Unique.

Context {A : Type}.
Variable eqb : A -> A -> bool.

Lemma unique_from_subset (seen l : list A) (y : A) :
  In y (unique_from eqb seen l) -> In y l.
Proof.
  revert seen. induction l as [|x l IH]; intros seen; cbn; [trivial|].
  destruct (existsb (eqb x) seen).
  - intros H. right. eapply IH; eassumption.
  - intros [<-|H]; [now left|right; eapply IH; eassumption].
Qed.

Hypothesis eqb_refl : forall x, eqb x x = true.

(** Every value of the list has an equal one among those seen or among
    those kept. *)
Lemma unique_from_covers (seen l : list A) (z : A) :
  In z l ->
  existsb (eqb z) seen = true \/
  exists y, In y (unique_from eqb seen l) /\ eqb z y = true.
Proof.
  revert seen. induction l as [|x l IH]; intros seen; [intros []|].
  cbn [unique_from]. intros [<-|Hz].
  - destruct (existsb (eqb x) seen) eqn:E; [now left|].
    right. exists x. split; [now left|apply eqb_refl].
  - destruct (existsb (eqb x) seen) eqn:E.
    + now apply IH.
    + destruct (IH (x :: seen) Hz) as [H|[y [Hy Hzy]]].
      * cbn in H. apply orb_true_iff in H. destruct H as [H|H].
        -- right. exists x. split; [now left|assumption].
        -- now left.
      * right. exists y. split; [now right|assumption].
Qed.

Lemma unique_covers (l : list A) (z : A) :
  In z l -> exists y, In y (unique eqb l) /\ eqb z y = true.
Proof.
  intros H. destruct (unique_from_covers [] l z H) as [H0|H0];
    [discriminate|assumption].
Qed.

Hypothesis eqb_eq : forall x y, eqb x y = true -> x = y.

Lemma existsb_eqb_In (x : A) (seen : list A) :
  existsb (eqb x) seen = true <-> In x seen.
Proof.
  rewrite existsb_exists. split.
  - intros [y [Hy E]]. apply eqb_eq in E. now subst.
  - intros H. exists x. split; [assumption|apply eqb_refl].
Qed.

Lemma unique_from_In (seen l : list A) (y : A) :
  In y (unique_from eqb seen l) <-> In y l /\ ~ In y seen.
Proof.
  revert seen. induction l as [|x l IH]; intros seen; cbn [unique_from].
  - cbn. tauto.
  - destruct (existsb (eqb x) seen) eqn:E.
    + rewrite IH. apply existsb_eqb_In in E. cbn. split.
      * intros [H1 H2]. tauto.
      * intros [[<-|H1] H2]; [contradiction|tauto].
    + assert (Hx : ~ In x seen).
      { intros H. apply existsb_eqb_In in H. congruence. }
      cbn [In]. rewrite IH. cbn [In]. split.
      * intros [<-|[H1 H2]]; [tauto|]. split; [tauto|]. tauto.
      * intros [[<-|H1] H2]; [now left|].
        destruct (eqb x y) eqn:Exy.
        -- apply eqb_eq in Exy. now left.
        -- right. split; [assumption|]. intros [->|H]; [|contradiction].
           rewrite eqb_refl in Exy. discriminate.
Qed.

Lemma unique_from_NoDup (seen l : list A) : NoDup (unique_from eqb seen l).
Proof.
  revert seen. induction l as [|x l IH]; intros seen; cbn [unique_from];
    [constructor|].
  destruct (existsb (eqb x) seen); [apply IH|].
  constructor; [|apply IH].
  rewrite unique_from_In. cbn. tauto.
Qed.

Lemma unique_In (l : list A) (y : A) : In y (unique eqb l) <-> In y l.
Proof. unfold unique. rewrite unique_from_In. cbn. tauto. Qed.

Lemma unique_NoDup (l : list A) : NoDup (unique eqb l).
Proof. apply unique_from_NoDup. Qed.

(** Each element of a list is counted under exactly one of its distinct
    values. *)
Lemma list_sum_cons (n : nat) (l : list nat) :
  list_sum (n :: l) = n + list_sum l.
Proof. reflexivity. Qed.

Lemma no_key_matches (ks : list A) (x : A) :
  ~ In x ks ->
  list_sum (map (fun k => if eqb k x then 1 else 0) ks) = 0.
Proof.
  induction ks as [|k ks IH]; intros Hx; [reflexivity|].
  cbn [map]. rewrite list_sum_cons. destruct (eqb k x) eqn:E.
  - apply eqb_eq in E. subst. exfalso. apply Hx. now left.
  - rewrite IH; [reflexivity|]. intros H. apply Hx. now right.
Qed.

Lemma one_key_matches (ks : list A) (x : A) :
  NoDup ks -> In x ks ->
  list_sum (map (fun k => if eqb k x then 1 else 0) ks) = 1.
Proof.
  induction 1 as [|k ks Hk Hn IH]; [intros []|].
  cbn [map]. rewrite list_sum_cons. intros [->|Hx].
  - rewrite eqb_refl. now rewrite no_key_matches.
  - destruct (eqb k x) eqn:E.
    + apply eqb_eq in E. subst. contradiction.
    + now rewrite IH.
Qed.

Lemma counts_of_nil (ks : list A) :
  list_sum (map (fun k => count_of eqb k []) ks) = 0.
Proof.
  induction ks as [|k ks IH]; [reflexivity|].
  cbn [map]. rewrite list_sum_cons, IH. reflexivity.
Qed.

Lemma counts_of_cons (ks l : list A) (x : A) :
  list_sum (map (fun k => count_of eqb k (x :: l)) ks) =
  list_sum (map (fun k => if eqb k x then 1 else 0) ks) +
  list_sum (map (fun k => count_of eqb k l) ks).
Proof.
  induction ks as [|k ks IH]; [reflexivity|].
  cbn [map]. rewrite !list_sum_cons, IH. unfold count_of. cbn [filter].
  destruct (eqb k x); cbn [List.length]; lia.
Qed.

Lemma counts_total (ks l : list A) :
  NoDup ks -> incl l ks ->
  list_sum (map (fun k => count_of eqb k l) ks) = List.length l.
Proof.
  intros Hn. induction l as [|x l IH]; intros Hincl.
  - apply counts_of_nil.
  - assert (Hx : In x ks) by (apply Hincl; now left).
    assert (Hl : incl l ks) by (intros y Hy; apply Hincl; now right).
    rewrite counts_of_cons, (one_key_matches ks x Hn Hx), (IH Hl).
    reflexivity.
Qed.

Lemma unique_counts_total (l : list A) :
  list_sum (map (fun k => count_of eqb k l) (unique eqb l)) = List.length l.
Proof.
  apply counts_total; [apply unique_NoDup|].
  intros y Hy. now apply unique_In.
Qed.

End Unique.

Section Counts.

Lemma list_sum_perm (l l' : list nat) :
  Permutation l l' -> list_sum l = list_sum l'.
Proof.
  induction 1 as [| x l l' H IH | x y l | l l' l'' H1 IH1 H2 IH2].
  - reflexivity.
  - rewrite !list_sum_cons. now rewrite IH.
  - rewrite !list_sum_cons. lia.
  - congruence.
Qed.

Lemma strictly_sorted {A B : Type} (R R' : A -> A -> Prop) (f : A -> B)
  (l : list A) :
  (forall a b, R a b -> f a <> f b -> R' a b) ->
  Sorted R l -> NoDup (map f l) -> Sorted R' l.
Proof.
  intros H. induction 1 as [|a l Hs IH Hd]; intros Hn; [constructor|].
  cbn in Hn. inversion Hn as [|? ? Ha Hn']; subst.
  constructor; [now apply IH|].
  destruct Hd as [|b l Hab]; constructor.
  apply H; [assumption|]. intros E. apply Ha. cbn. now left.
Qed.

Lemma count_of_count_occ (k : Z) (v : list Z) :
  count_of Z.eqb k v = count_occ Z.eq_dec v k.
Proof.
  unfold count_of. induction v as [|x v IH]; [reflexivity|].
  cbn [filter count_occ]. destruct (Z.eqb_spec k x) as [->|Hne].
  - destruct (Z.eq_dec x x); [|contradiction]. cbn. now rewrite IH.
  - destruct (Z.eq_dec x k); [congruence|exact IH].
Qed.

Lemma Zeqb_eq (x y : Z) : Z.eqb x y = true -> x = y.
Proof. apply Z.eqb_eq. Qed.

(** The table of counts before it is ordered. *)
Lemma value_counts_perm {A : Type} (eqb : A -> A -> bool) (l : list A) :
  Permutation (value_counts eqb l)
    (map (fun k => (k, count_of eqb k l)) (unique eqb l)).
Proof. unfold value_counts. apply sort_by_perm. Qed.

Lemma keys_of_counts {A : Type} (eqb : A -> A -> bool) (l ks : list A) :
  map fst (map (fun k => (k, count_of eqb k l)) ks) = ks.
Proof. rewrite map_map. cbn. apply map_id. Qed.

Lemma sizes_of_counts {A : Type} (eqb : A -> A -> bool) (l ks : list A) :
  map snd (map (fun k => (k, count_of eqb k l)) ks) =
  map (fun k => count_of eqb k l) ks.
Proof. now rewrite map_map. Qed.

Lemma score_dist_perm (v : list Z) :
  Permutation (AppAdvanced.score_dist v)
    (map (fun k => (k, count_of Z.eqb k v)) (unique Z.eqb v)).
Proof.
  unfold AppAdvanced.score_dist, sort_index_descending.
  rewrite sort_by_perm. apply value_counts_perm.
Qed.

End Counts.

(** X14.  The score distribution lists each score that occurs in the
    Stage-2 frame once, from the highest to the lowest, with the number
    of rows that have it; the numbers add up to the number of rows. *)
Theorem score_distribution (v : list Z) :
  Sorted (fun a b => (fst b < fst a)%Z) (AppAdvanced.score_dist v) /\
  (forall k c,
     In (k, c) (AppAdvanced.score_dist v) <->
     In k v /\ c = count_occ Z.eq_dec v k) /\
  list_sum (map snd (AppAdvanced.score_dist v)) = List.length v.
Proof.
  pose proof (score_dist_perm v) as Hp.
  split; [|split].
  - apply strictly_sorted
      with (R := fun a b => (fst b <=? fst a)%Z = true) (f := fst).
    + intros a b Hab Hne. apply Z.leb_le in Hab. lia.
    + unfold AppAdvanced.score_dist, sort_index_descending.
      apply sort_by_sorted. intros x y H. apply Z.leb_gt in H.
      apply Z.leb_le. lia.
    + eapply Permutation_NoDup.
      * symmetry. apply Permutation_map. exact Hp.
      * rewrite keys_of_counts. apply unique_NoDup;
          [apply Z.eqb_refl|apply Zeqb_eq].
  - intros k c. split.
    + intros H. apply (Permutation_in _ Hp) in H.
      apply in_map_iff in H. destruct H as [k' [E Hk]].
      injection E as -> <-.
      apply unique_In in Hk; [|apply Z.eqb_refl|apply Zeqb_eq].
      split; [assumption|apply count_of_count_occ].
    + intros [Hk ->]. apply (Permutation_in _ (Permutation_sym Hp)).
      apply in_map_iff. exists k. split.
      * now rewrite count_of_count_occ.
      * apply unique_In; [apply Z.eqb_refl|apply Zeqb_eq|assumption].
  - rewrite (list_sum_perm _ _ (Permutation_map snd Hp)).
    rewrite sizes_of_counts.
    apply unique_counts_total; [apply Z.eqb_refl|apply Zeqb_eq].
Qed.

Section CountsUnderMap.

Context {A B : Type}.
Variable f : A -> B.
Variable eqbA : A -> A -> bool.
Variable eqbB : B -> B -> bool.
Hypothesis eqb_map : forall x y, eqbB (f x) (f y) = eqbA x y.

Lemma existsb_under_map (x : A) (l : list A) :
  existsb (eqbB (f x)) (map f l) = existsb (eqbA x) l.
Proof.
  induction l as [|y l IH]; [reflexivity|]. cbn. now rewrite eqb_map, IH.
Qed.

Lemma unique_from_under_map (seen l : list A) :
  unique_from eqbB (map f seen) (map f l) = map f (unique_from eqbA seen l).
Proof.
  revert seen. induction l as [|x l IH]; intros seen; [reflexivity|].
  cbn [map unique_from]. rewrite existsb_under_map.
  destruct (existsb (eqbA x) seen); [apply IH|].
  cbn [map]. f_equal. apply (IH (x :: seen)).
Qed.

Lemma count_of_under_map (k : A) (l : list A) :
  count_of eqbB (f k) (map f l) = count_of eqbA k l.
Proof.
  unfold count_of. induction l as [|x l IH]; [reflexivity|].
  cbn [map filter]. rewrite eqb_map.
  destruct (eqbA k x); cbn [List.length]; now rewrite IH.
Qed.

End CountsUnderMap.

Section TableUnderMap.

Context {A B : Type}.
Variable g : A -> B.
Variable keepA : A -> A -> bool.
Variable keepB : B -> B -> bool.
Hypothesis keep_map : forall x y, keepB (g x) (g y) = keepA x y.

Lemma insert_by_under_map (x : A) (l : list A) :
  insert_by keepB (g x) (map g l) = map g (insert_by keepA x l).
Proof.
  induction l as [|y l IH]; [reflexivity|].
  cbn [map insert_by]. rewrite keep_map.
  destruct (keepA x y); [reflexivity|]. cbn [map]. now rewrite IH.
Qed.

Lemma sort_by_under_map (l : list A) :
  sort_by keepB (map g l) = map g (sort_by keepA l).
Proof.
  induction l as [|x l IH]; [reflexivity|].
  cbn [map sort_by fold_right]. fold (sort_by keepB (map g l)).
  fold (sort_by keepA l). now rewrite IH, insert_by_under_map.
Qed.

End TableUnderMap.

Section AdCounts.

Lemma texts_In (v : list obj) (a : string) : In a (texts v) <-> In (Str a) v.
Proof.
  induction v as [|[b|] v IH]; cbn [texts In].
  - tauto.
  - rewrite IH. split; intros [H|H]; auto; left; congruence.
  - rewrite IH. split; [auto|]. intros [H|H]; [discriminate|assumption].
Qed.

Lemma tolist_dropna_texts (v : list obj) :
  tolist (series_dropna (ObjSeries v)) = map PStr (texts v).
Proof.
  cbn [series_dropna tolist].
  induction v as [|[b|] v IH]; cbn [filter map texts]; [reflexivity| |exact IH].
  now rewrite IH.
Qed.

(** The table of [ad_counts] for a text column, over the texts. *)
Lemma ad_counts_texts (v : list obj) :
  AppAdvanced.ad_counts (ObjSeries v) =
  map name_entry
    (sort_by (fun a b => snd b <=? snd a) (value_counts String.eqb (texts v))).
Proof.
  unfold AppAdvanced.ad_counts, sort_values_descending.
  rewrite tolist_dropna_texts.
  rewrite <- (sort_by_under_map name_entry (fun a b => snd b <=? snd a)
                (fun a b => snd b <=? snd a)) by reflexivity.
  f_equal. unfold value_counts.
  rewrite <- (sort_by_under_map name_entry (fun a b => snd b <=? snd a)
                (fun a b => snd b <=? snd a)) by reflexivity.
  f_equal. unfold unique.
  change (@nil pyval) with (map PStr []).
  rewrite (unique_from_under_map PStr String.eqb) by reflexivity.
  rewrite !map_map. apply map_ext. intros a. unfold name_entry. cbn [fst snd].
  f_equal. now apply (count_of_under_map PStr String.eqb).
Qed.

Lemma count_of_string (k : string) (l : list string) :
  count_of String.eqb k l = count_occ string_dec l k.
Proof.
  unfold count_of. induction l as [|x l IH]; [reflexivity|].
  cbn [filter count_occ]. destruct (String.eqb_spec k x) as [->|Hne].
  - destruct (string_dec x x); [|contradiction]. cbn. now rewrite IH.
  - destruct (string_dec x k); [congruence|exact IH].
Qed.

Lemma String_eqb_true (x y : string) : String.eqb x y = true -> x = y.
Proof. apply String.eqb_eq. Qed.

Lemma NoDup_map_PStr (l : list string) : NoDup l -> NoDup (map PStr l).
Proof.
  induction 1 as [|x l Hx Hn IH]; cbn; constructor; [|exact IH].
  intros H. apply in_map_iff in H. destruct H as [y [E Hy]].
  injection E as ->. contradiction.
Qed.

Lemma names_table_perm (l : list string) :
  Permutation
    (sort_by (fun a b => snd b <=? snd a) (value_counts String.eqb l))
    (map (fun k => (k, count_of String.eqb k l)) (unique String.eqb l)).
Proof. rewrite sort_by_perm. apply value_counts_perm. Qed.

End AdCounts.

(** X15.  For a text column of creative names, the table of the
    distinct creatives has one line per name that occurs, with the
    number of rows that carry it, the larger numbers first; empty fields
    are not counted, and the numbers add up to the rows with a name. *)
Theorem ad_counts_of_names (v : list obj) :
  Sorted (fun a b => snd b <= snd a) (AppAdvanced.ad_counts (ObjSeries v)) /\
  NoDup (map fst (AppAdvanced.ad_counts (ObjSeries v))) /\
  (forall p c,
     In (p, c) (AppAdvanced.ad_counts (ObjSeries v)) <->
     exists a, p = PStr a /\ In (Str a) v /\
               c = count_occ string_dec (texts v) a) /\
  list_sum (map snd (AppAdvanced.ad_counts (ObjSeries v))) =
  List.length (texts v).
Proof.
  rewrite ad_counts_texts.
  pose proof (names_table_perm (texts v)) as Hp.
  set (table := sort_by (fun a b => snd b <=? snd a)
                  (value_counts String.eqb (texts v))) in *.
  assert (Hkeys : NoDup (map fst table)).
  { eapply Permutation_NoDup.
    - symmetry. apply Permutation_map. exact Hp.
    - rewrite keys_of_counts.
      apply unique_NoDup; [apply String.eqb_refl|apply String_eqb_true]. }
  split; [|split; [|split]].
  - assert (Hs : Sorted (fun a b => (snd b <=? snd a) = true) table).
    { apply sort_by_sorted. intros x y H. apply Nat.leb_gt in H.
      apply Nat.leb_le. lia. }
    clear Hp Hkeys. induction Hs as [|a l Hs IH Hd]; cbn [map]; [constructor|].
    constructor; [exact IH|].
    destruct Hd as [|b l Hab]; cbn [map]; constructor.
    cbn. now apply Nat.leb_le.
  - assert (E : map fst (map name_entry table) = map PStr (map fst table))
      by (rewrite !map_map; apply map_ext; now intros [a c]).
    rewrite E. now apply NoDup_map_PStr.
  - intros p c. rewrite in_map_iff. split.
    + intros [[a c'] [E Hin]]. unfold name_entry in E. cbn in E.
      injection E as <- <-.
      apply (Permutation_in _ Hp) in Hin. apply in_map_iff in Hin.
      destruct Hin as [k [Ek Hk]]. injection Ek as -> <-.
      apply unique_In in Hk; [|apply String.eqb_refl|apply String_eqb_true].
      exists a. split; [reflexivity|]. split; [now apply texts_In|].
      apply count_of_string.
    + intros [a [-> [Hin ->]]]. exists (a, count_occ string_dec (texts v) a).
      split; [reflexivity|].
      apply (Permutation_in _ (Permutation_sym Hp)). apply in_map_iff.
      exists a. split; [now rewrite count_of_string|].
      apply unique_In; [apply String.eqb_refl|apply String_eqb_true|].
      now apply texts_In.
  - assert (E : map snd (map name_entry table) = map snd table)
      by (rewrite map_map; apply map_ext; now intros [a c]).
    rewrite E.
    rewrite (list_sum_perm _ _ (Permutation_map snd Hp)).
    rewrite sizes_of_counts.
    apply unique_counts_total; [apply String.eqb_refl|apply String_eqb_true].
Qed.

(** ** The options of the date and country widgets *)

Section Options.

Lemma py_insert_texts (x : string) (l : list string) :
  py_insert (PStr x) (map PStr l) = Ok (map PStr (insert_by text_in_order x l)).
Proof.
  induction l as [|y l IH]; [reflexivity|].
  cbn [map py_insert insert_by py_lt bind]. unfold text_in_order at 1.
  destruct (String.ltb y x); cbn [negb]; [|reflexivity].
  rewrite IH. reflexivity.
Qed.

Lemma sorted_texts (l : list string) :
  sorted (map PStr l) = Ok (map PStr (sort_by text_in_order l)).
Proof.
  induction l as [|x l IH]; [reflexivity|].
  cbn [map sorted]. rewrite IH. cbn [bind]. apply py_insert_texts.
Qed.

Lemma py_insert_numbers (x : float64) (l : list float64) :
  py_insert (PNum x) (map PNum l) = Ok (map PNum (insert_by number_in_order x l)).
Proof.
  induction l as [|y l IH]; [reflexivity|].
  cbn [map py_insert insert_by py_lt bind]. unfold number_in_order at 1.
  destruct (flt y x); cbn [negb]; [|reflexivity].
  rewrite IH. reflexivity.
Qed.

Lemma sorted_numbers (l : list float64) :
  sorted (map PNum l) = Ok (map PNum (sort_by number_in_order l)).
Proof.
  induction l as [|x l IH]; [reflexivity|].
  cbn [map sorted]. rewrite IH. cbn [bind]. apply py_insert_numbers.
Qed.

Lemma filter_texts (v : list obj) :
  filter (fun o => match o with Str _ => true | Null => false end) v =
  map Str (texts v).
Proof.
  induction v as [|[a|] v IH]; cbn [filter texts map]; [reflexivity| |exact IH].
  now rewrite IH.
Qed.

Lemma options_texts (v : list obj) :
  AppAdvanced.options (ObjSeries v) =
  Ok (map PStr (sort_by text_in_order (unique String.eqb (texts v)))).
Proof.
  unfold AppAdvanced.options. cbn [series_dropna series_unique tolist].
  rewrite filter_texts. unfold unique.
  change (@nil obj) with (map Str []).
  rewrite (unique_from_under_map Str String.eqb obj_eqb) by reflexivity.
  rewrite map_map. apply sorted_texts.
Qed.

Lemma options_numbers (v : list float64) :
  AppAdvanced.options (NumSeries v) =
  Ok (map PNum (sort_by number_in_order (unique float_same (dropna v)))).
Proof. unfold AppAdvanced.options. cbn. apply sorted_numbers. Qed.

Lemma options_integers (v : list Z) :
  AppAdvanced.options (IntSeries v) =
  Ok (map PNum (sort_by number_in_order (map of_int (unique Z.eqb v)))).
Proof.
  unfold AppAdvanced.options. cbn [series_dropna series_unique tolist].
  rewrite <- (map_map of_int PNum). apply sorted_numbers.
Qed.

Lemma float_same_refl (x : float64) : float_same x x = true.
Proof.
  destruct x as [q| | |]; try reflexivity. unfold float_same. cbn.
  rewrite orb_false_r. apply Qeq_bool_iff. reflexivity.
Qed.

Lemma text_order_total (x y : string) :
  text_in_order x y = false -> text_in_order y x = true.
Proof.
  unfold text_in_order, String.ltb. rewrite (String.compare_antisym x y).
  destruct (String.compare y x); cbn; congruence.
Qed.

Lemma text_order_strict (x y : string) :
  text_in_order x y = true -> x <> y -> String.ltb x y = true.
Proof.
  unfold text_in_order, String.ltb. rewrite (String.compare_antisym x y).
  destruct (String.compare y x) eqn:E; cbn; try congruence.
  intros _ H. apply String.compare_eq_iff in E. congruence.
Qed.

End Options.

(** X16.  Building the options of the date or country widget never
    raises, and with every option selected, which is the default, the
    filter keeps exactly the rows whose value in the column is not
    null: rows with an empty date or country are dropped even when
    nothing is deselected. *)
Theorem default_selection_keeps_non_null (s : Series) :
  exists opts,
    AppAdvanced.options s = Ok opts /\
    App.options s = Ok opts /\
    isin s opts = notna s.
Proof.
  destruct s as [v|v|v].
  - eexists. split; [apply options_texts|]. split; [apply options_texts|].
    cbn [isin notna]. apply map_ext_in. intros [a|] Ho.
    + apply existsb_exists. exists (PStr a). split; [|apply String.eqb_refl].
      apply in_map.
      apply (Permutation_in _ (Permutation_sym (sort_by_perm _ _))).
      apply unique_In; [apply String.eqb_refl|apply String_eqb_true|].
      now apply texts_In.
    + apply not_true_is_false. intros H. apply existsb_exists in H.
      destruct H as [p [Hp Hm]]. apply in_map_iff in Hp.
      destruct Hp as [b [<- _]]. discriminate.
  - eexists. split; [apply options_numbers|]. split; [apply options_numbers|].
    cbn [isin notna]. apply map_ext_in. intros x Hx.
    destruct (isna x) eqn:Ex; cbn [negb].
    + apply not_true_is_false. intros H. apply existsb_exists in H.
      destruct H as [p [Hp Hm]]. apply in_map_iff in Hp.
      destruct Hp as [y [<- Hy]].
      apply (Permutation_in _ (sort_by_perm _ _)) in Hy.
      apply unique_from_subset in Hy. apply dropna_In in Hy.
      destruct Hy as [_ Hy]. destruct x; try discriminate.
      cbn in Hm. congruence.
    + assert (Hd : In x (dropna v)) by (apply dropna_In; now split).
      destruct (unique_covers float_same float_same_refl _ _ Hd)
        as [y [Hy Hxy]].
      apply existsb_exists. exists (PNum y). split; [|exact Hxy].
      apply in_map.
      now apply (Permutation_in _ (Permutation_sym (sort_by_perm _ _))).
  - eexists. split; [apply options_integers|].
    split; [apply options_integers|].
    cbn [isin notna]. apply map_ext_in. intros n Hn.
    apply existsb_exists. exists (PNum (of_int n)). split.
    + apply in_map.
      apply (Permutation_in _ (Permutation_sym (sort_by_perm _ _))).
      apply in_map.
      apply unique_In; [apply Z.eqb_refl|apply Zeqb_eq|assumption].
    + apply (float_same_refl (of_int n)).
Qed.

(** X17.  For a text column the options are its distinct texts in
    strictly increasing order, each once, empty fields left out. *)
Theorem text_options_sorted (v : list obj) :
  exists l,
    AppAdvanced.options (ObjSeries v) = Ok (map PStr l) /\
    Sorted (fun a b => String.ltb a b = true) l /\
    forall a, In a l <-> In (Str a) v.
Proof.
  exists (sort_by text_in_order (unique String.eqb (texts v))).
  split; [apply options_texts|].
  pose proof (sort_by_perm text_in_order (unique String.eqb (texts v))) as Hp.
  split.
  - apply strictly_sorted
      with (R := fun a b => text_in_order a b = true) (f := fun a => a).
    + intros a b. apply text_order_strict.
    + apply sort_by_sorted. apply text_order_total.
    + rewrite map_id. eapply Permutation_NoDup; [symmetry; exact Hp|].
      apply unique_NoDup; [apply String.eqb_refl|apply String_eqb_true].
  - intros a. rewrite <- texts_In. split; intros H.
    + apply (Permutation_in _ Hp) in H.
      exact (proj1 (unique_In String.eqb String.eqb_refl String_eqb_true
                      (texts v) a) H).
    + apply (Permutation_in _ (Permutation_sym Hp)).
      exact (proj2 (unique_In String.eqb String.eqb_refl String_eqb_true
                      (texts v) a) H).
Qed.

(** ** What is displayed *)

Section Display.

Lemma filter_sublist {A : Type} (p : A -> bool) (l : list A) :
  Sublist (filter p l) l.
Proof.
  induction l as [|x l IH]; cbn; [constructor|].
  destruct (p x); [now apply Sublist_keep|now apply Sublist_skip].
Qed.

Lemma filter_absent (name : string) (l : list string) :
  ~ In name l -> filter (fun c => negb (String.eqb c name)) l = l.
Proof.
  induction l as [|x l IH]; intros H; [reflexivity|]. cbn.
  destruct (String.eqb_spec x name) as [->|Hne].
  - exfalso. apply H. now left.
  - cbn. rewrite IH; [reflexivity|]. intros Hin. apply H. now right.
Qed.

Lemma score_first_perm (name : string) (l : list string) :
  NoDup l -> In name l ->
  Permutation (name :: filter (fun c => negb (String.eqb c name)) l) l.
Proof.
  induction 1 as [|x l Hx Hn IH]; [intros []|].
  intros Hin. cbn [filter].
  destruct (String.eqb_spec x name) as [->|Hne]; cbn [negb].
  - now rewrite filter_absent.
  - destruct Hin as [->|Hin]; [contradiction|].
    rewrite perm_swap. constructor. now apply IH.
Qed.

Lemma existsb_score_col (name : string) (l : list string) :
  existsb (String.eqb name) l = true <-> In name l.
Proof.
  rewrite existsb_exists. split.
  - intros [y [Hy E]]. apply String.eqb_eq in E. now subst.
  - intros H. exists name. split; [assumption|apply String.eqb_refl].
Qed.



End Display.

(** X18.  When the column names of the final frame are distinct, the
    columns displayed are the same columns with the score column moved
    to the front and the others in their order; without a score column
    the order is unchanged. *)
Theorem display_cols_puts_score_first (all_cols : list string) :
  NoDup all_cols ->
  Permutation (AppAdvanced.display_cols all_cols) all_cols /\
  (In AppAdvanced.score_col all_cols ->
   exists rest,
     AppAdvanced.display_cols all_cols = AppAdvanced.score_col :: rest /\
     Sublist rest all_cols /\
     forall c, In c rest <-> In c all_cols /\ c <> AppAdvanced.score_col) /\
  (~ In AppAdvanced.score_col all_cols ->
   AppAdvanced.display_cols all_cols = all_cols).
Proof.
  intros Hn. unfold AppAdvanced.display_cols.
  destruct (existsb (String.eqb AppAdvanced.score_col) all_cols) eqn:E.
  - apply existsb_score_col in E. split; [now apply score_first_perm|].
    split; [|contradiction].
    intros _. eexists. split; [reflexivity|]. split; [apply filter_sublist|].
    intros c. rewrite filter_In, negb_true_iff, String.eqb_neq. tauto.
  - assert (Hni : ~ In AppAdvanced.score_col all_cols).
    { intros H. apply existsb_score_col in H. congruence. }
    split; [reflexivity|]. split; [contradiction|reflexivity].
Qed.

(** The columns of a scored frame. *)
Lemma display_cols_puts_score_first_witness :
  Permutation (AppAdvanced.display_cols ["CTR"; "CPM"; AppAdvanced.score_col])
    ["CTR"; "CPM"; AppAdvanced.score_col].
Proof.
  apply display_cols_puts_score_first.
  repeat constructor; cbn; intuition discriminate.
Defined.


(** ** Which rows each filter keeps *)

Section KeptRows.

Import AppAdvanced.

Lemma nth_error_band (a b : list bool) (i : nat) :
  nth_error (band a b) i = Some true <->
  nth_error a i = Some true /\ nth_error b i = Some true.
Proof.
  unfold band. revert b i. induction a as [|x a IH]; intros [|y b] [|i]; cbn;
    try (split; [discriminate|intros [H1 H2]; discriminate]).
  - split.
    + intros [= H]. apply andb_true_iff in H. destruct H as [-> ->]. now split.
    + intros [[= ->] [= ->]]. reflexivity.
  - apply IH.
Qed.

Lemma nth_error_all_true (n i : nat) :
  nth_error (repeat true n) i = Some true <-> i < n.
Proof.
  split.
  - intros H. rewrite <- (repeat_length true n). apply nth_error_Some.
    congruence.
  - apply nth_error_repeat_lt.
Qed.

Lemma nth_error_test {A : Type} (p : A -> bool) (l : list A) (i : nat) :
  nth_error (map p l) i = Some true <->
  exists x, nth_error l i = Some x /\ p x = true.
Proof.
  rewrite nth_error_map. destruct (nth_error l i) as [x|]; cbn.
  - split.
    + intros [= H]. now exists x.
    + intros [y [[= ->] H]]. now rewrite H.
  - split; [discriminate|]. intros [y [H _]]. discriminate.
Qed.

Lemma mask_select_test {A : Type} (p : A -> bool) (l : list A) :
  mask_select (map p l) l = filter p l.
Proof.
  induction l as [|x l IH]; [reflexivity|]. cbn.
  destruct (p x); now rewrite IH.
Qed.

Lemma fold_max_ge (l : list Z) :
  forall x z, In z (x :: l) -> (z <= fold_left Z.max l x)%Z.
Proof.
  induction l as [|y l IH]; intros x z Hz.
  - destruct Hz as [<-|[]]. cbn. lia.
  - cbn [fold_left]. destruct Hz as [<-|[<-|Hz]].
    + etransitivity; [|apply (IH (Z.max x y) (Z.max x y)); now left]. lia.
    + etransitivity; [|apply (IH (Z.max x y) (Z.max x y)); now left]. lia.
    + apply IH. now right.
Qed.

End KeptRows.

(** X20.  On a snapshot that has the install and CPI columns, Stage 2
    keeps exactly the rows whose normalized install count is at least
    the minimum and whose normalized CPI is at most the maximum. *)
Theorem stage_two_keeps_exactly (df1 : DataFrame) (n : Z) (c : float64)
  (s t : Series) (xs ys : list float64) :
  aligned df1 ->
  get_col df1 (AppAdvanced.field "install") = Some s ->
  clean_numeric_column s = Ok xs ->
  get_col df1 (AppAdvanced.field "cpi") = Some t ->
  clean_numeric_column t = Ok ys ->
  exists q,
    AppAdvanced.query_base df1 (Some n) (Some c) = Ok q /\
    forall i,
      nth_error q i = Some true <->
      exists x y,
        nth_error xs i = Some x /\ nth_error ys i = Some y /\
        fge x (of_int n) = true /\ fle y c = true.
Proof.
  intros Ha Hs Hx Ht Hy.
  rewrite clean_numeric_column_ok in Hx, Hy.
  injection Hx as <-. injection Hy as <-.
  rewrite query_base_ok. eexists. split; [reflexivity|].
  intros i. unfold base_mask. rewrite Hs, Ht.
  rewrite !nth_error_band, nth_error_all_true.
  rewrite (nth_error_test (fun x => fge x (of_int n))).
  rewrite (nth_error_test (fun x => fle x c)).
  assert (Hl : List.length (cleaned_values s) = nrows df1).
  { rewrite cleaned_values_length. eapply aligned_col; eassumption. }
  split.
  - intros [[_ [x [Hx Hxn]]] [y [Hy Hyc]]]. now exists x, y.
  - intros [x [y [Hx [Hy [Hxn Hyc]]]]]. split; [split|].
    + rewrite <- Hl. apply nth_error_Some. congruence.
    + now exists x.
    + now exists y.
Qed.

(** Stage 2 of the campaign table. *)
Lemma stage_two_keeps_exactly_witness :
  exists q,
    AppAdvanced.query_base campaign (Some 100%Z) (Some (Fin 2)) = Ok q /\
    forall i,
      nth_error q i = Some true <->
      exists x y,
        nth_error [Fin 1200; NaN; Fin 300; Fin 45] i = Some x /\
        nth_error [Fin (3 # 2); Fin (4 # 5); NaN; Fin (21 # 10)] i = Some y /\
        fge x (of_int 100) = true /\ fle y (Fin 2) = true.
Proof.
  apply (stage_two_keeps_exactly campaign 100%Z (Fin 2)
           (ObjSeries [Str "1,200"; Str "n/a"; Str "300"; Str "45"])
           (ObjSeries [Str "$1.50"; Str "$0.80"; Null; Str "$2.10"])).
  - repeat constructor.
  - reflexivity.
  - vm_compute. reflexivity.
  - reflexivity.
  - vm_compute. reflexivity.
Defined.

(** X21.  In a run that completes, when some row of the Stage-2 frame
    has a score other than 0, the score column of the final frame holds
    exactly the Stage-2 scores that reach the slider value, in their
    order: every row kept meets the threshold and no row that meets it
    is lost. *)
Theorem final_frame_meets_threshold (df : DataFrame) (ui : AppAdvanced.Sidebar)
  (r : AppAdvanced.Outcome) :
  well_formed df ->
  AppAdvanced.main df ui = Ok r ->
  forall v,
    get_col (AppAdvanced.df_base_filtered r) AppAdvanced.score_col =
    Some (IntSeries v) ->
    (exists z, In z v /\ z <> 0%Z) ->
    get_col (AppAdvanced.df_final r) AppAdvanced.score_col =
    Some (IntSeries (filter (fun z => (AppAdvanced.slider_score ui <=? z)%Z) v)).
Proof.
  intros [_ Ha] Hr. rewrite (main_returns df ui r Ha Hr).
  unfold outcome_of.
  cbn [AppAdvanced.df_base_filtered AppAdvanced.df_final].
  set (snap := stage_one df (AppAdvanced.multiselect_date ui)
                 (AppAdvanced.multiselect_country ui)).
  set (base := stage_two (scored snap) _ _).
  intros v Hv [z [Hz Hz0]].
  assert (Hs : aligned snap) by (now apply stage_one_aligned).
  assert (Hbase : aligned base)
    by (apply stage_two_aligned; now apply scored_aligned).
  assert (Hlen : List.length v = nrows base).
  { pose proof (aligned_col _ _ _ Hbase Hv) as H. unfold len in H.
    cbn in H. now rewrite length_map in H. }
  assert (Hpos : 0 < nrows base).
  { rewrite <- Hlen. destruct v; [destruct Hz|cbn; lia]. }
  destruct (score_values_of_base snap _ _ v Hs Hpos Hv) as [Hvq _].
  assert (Hnonneg : Forall (fun y => (0 <= y)%Z) v).
  { rewrite Hvq. apply mask_select_Forall.
    eapply Forall_impl; [|apply (scores_of_between snap)].
    unfold between. intros; lia. }
  unfold final_of. rewrite Hv.
  apply Nat.ltb_lt in Hpos. rewrite Hpos.
  destruct v as [|x v']; [destruct Hz|]. cbv zeta.
  assert (Hmax : (fold_left Z.max v' x =? 0)%Z = false).
  { apply Z.eqb_neq. pose proof (fold_max_ge v' x z Hz) as Hge.
    rewrite Forall_forall in Hnonneg. specialize (Hnonneg z Hz).
    cbv beta in Hnonneg. lia. }
  rewrite Hmax, get_col_boolean_index, Hv. cbn [option_map series_select].
  now rewrite mask_select_test.
Qed.

(** A run on the campaign table with the slider at 2: of the scores 0
    and 4 of the Stage-2 frame the final frame keeps the 4. *)
Lemma final_frame_meets_threshold_witness :
  exists r,
    AppAdvanced.main campaign
      {| AppAdvanced.multiselect_date := [PStr "2024-01-01"; PStr "2024-01-02"];
         AppAdvanced.multiselect_country := [PStr "US"; PStr "JP"; PStr "BR"];
         AppAdvanced.number_input_install := 0;
         AppAdvanced.number_input_cpi := Fin (21 # 10);
         AppAdvanced.slider_score := 2 |} = Ok r /\
    get_col (AppAdvanced.df_base_filtered r) AppAdvanced.score_col =
    Some (IntSeries [0; 4]%Z) /\
    get_col (AppAdvanced.df_final r) AppAdvanced.score_col = Some (IntSeries [4%Z]).
Proof.
  assert (Hw : well_formed campaign)
    by (split; [reflexivity|repeat constructor]).
  match goal with
  | |- exists r, AppAdvanced.main campaign ?ui = Ok r /\ _ =>
      assert (Hr : AppAdvanced.main campaign ui = Ok (outcome_of campaign ui))
        by (vm_compute; reflexivity);
      exists (outcome_of campaign ui);
      pose proof (final_frame_meets_threshold campaign ui _ Hw Hr) as Hfinal
  end.
  split; [exact Hr|]. split; [reflexivity|].
  apply (Hfinal [0; 4]%Z); [reflexivity|].
  exists 4%Z. split; [cbn; tauto|lia].
Defined.

Section StageOneRows.

Lemma text_selected (a : string) (sel : list pyval) :
  existsb (obj_matches (Str a)) sel = true <-> In (PStr a) sel.
Proof.
  rewrite existsb_exists. split.
  - intros [[b|x] [Hin Hm]]; cbn in Hm; [|discriminate].
    apply String.eqb_eq in Hm. now subst.
  - intros H. exists (PStr a). split; [assumption|apply String.eqb_refl].
Qed.

Lemma null_not_selected (sel : list pyval) :
  forallb is_text sel = true -> existsb (obj_matches Null) sel = false.
Proof.
  intros H. apply not_true_is_false. intros E. apply existsb_exists in E.
  destruct E as [p [Hin Hm]]. rewrite forallb_forall in H.
  specialize (H p Hin). now destruct p.
Qed.

Lemma isin_texts (v : list obj) (sel : list pyval) (i : nat) :
  forallb is_text sel = true ->
  (nth_error (isin (ObjSeries v) sel) i = Some true <->
   exists a, nth_error v i = Some (Str a) /\ In (PStr a) sel).
Proof.
  intros Hsel. cbn [isin].
  rewrite (nth_error_test (fun o => existsb (obj_matches o) sel)). split.
  - intros [[a|] [Hi Hm]].
    + exists a. split; [assumption|now apply text_selected].
    + rewrite null_not_selected in Hm by assumption. discriminate.
  - intros [a [Hi Hin]]. exists (Str a). split; [assumption|].
    now apply text_selected.
Qed.

End StageOneRows.

(** X22.  On a frame whose date and country columns are text, Stage 1
    keeps exactly the rows whose date is one of the selected dates and
    whose country is one of the selected countries; a row with an empty
    date or country is never kept. *)
Theorem stage_one_keeps_exactly (df : DataFrame) (dv cv : list obj)
  (dates countries : list pyval) :
  aligned df ->
  get_col df (AppAdvanced.field "date") = Some (ObjSeries dv) ->
  get_col df (AppAdvanced.field "country") = Some (ObjSeries cv) ->
  forallb is_text dates = true -> forallb is_text countries = true ->
  forall i,
    nth_error
      (AppAdvanced.query_date_country df
         (AppAdvanced.widget df "date" dates)
         (AppAdvanced.widget df "country" countries)) i = Some true <->
    exists d c,
      nth_error dv i = Some (Str d) /\ nth_error cv i = Some (Str c) /\
      In (PStr d) dates /\ In (PStr c) countries.
Proof.
  intros Ha Hd Hc Hsd Hsc i.
  unfold AppAdvanced.query_date_country, AppAdvanced.widget. rewrite Hd, Hc.
  rewrite !nth_error_band, nth_error_all_true.
  rewrite (isin_texts dv dates i Hsd), (isin_texts cv countries i Hsc).
  assert (Hl : List.length dv = nrows df).
  { pose proof (aligned_col _ _ _ Ha Hd) as H. unfold len in H. cbn in H.
    now rewrite length_map in H. }
  split.
  - intros [[_ [d [H1 H2]]] [c [H3 H4]]]. now exists d, c.
  - intros [d [c [H1 [H3 [H2 H4]]]]]. split; [split|].
    + rewrite <- Hl. apply nth_error_Some. congruence.
    + now exists d.
    + now exists c.
Qed.

(** Stage 1 of the campaign table. *)
Lemma stage_one_keeps_exactly_witness :
  nth_error
    (AppAdvanced.query_date_country campaign
       (AppAdvanced.widget campaign "date" [PStr "2024-01-02"])
       (AppAdvanced.widget campaign "country" [PStr "US"; PStr "BR"])) 2 =
  Some true.
Proof.
  apply (stage_one_keeps_exactly campaign
           [Str "2024-01-01"; Str "2024-01-01"; Str "2024-01-02"; Str "2024-01-02"]
           [Str "US"; Str "JP"; Str "US"; Str "BR"]
           [PStr "2024-01-02"] [PStr "US"; PStr "BR"]);
    try reflexivity.
  - repeat constructor.
  - exists "2024-01-02", "US". cbn. tauto.
Defined.

(** ** Cleaned texts *)

Section CleanedText.

Lemma without_symbols_list (s : string) :
  list_ascii_of_string (without_symbols s) =
  filter (fun c => negb (is_symbol c)) (list_ascii_of_string s).
Proof.
  induction s as [|c s IH]; [reflexivity|]. cbn.
  destruct (is_symbol c); cbn; now rewrite IH.
Qed.

Lemma drop_spaces_idem (l : list ascii) :
  drop_spaces (drop_spaces l) = drop_spaces l.
Proof.
  induction l as [|c l IH]; [reflexivity|]. cbn.
  destruct (isspace c) eqn:E; [exact IH|]. cbn. now rewrite E.
Qed.

Lemma drop_spaces_incl (l : list ascii) (c : ascii) :
  In c (drop_spaces l) -> In c l.
Proof.
  induction l as [|x l IH]; [trivial|]. cbn.
  destruct (isspace x); [intros H; right; now apply IH|trivial].
Qed.

(** Dropping the spaces at the end of a list that starts with no space
    leaves a list that starts with no space. *)
Lemma drop_end_keeps_start (l : list ascii) :
  drop_spaces l = l ->
  drop_spaces (rev (drop_spaces (rev l))) = rev (drop_spaces (rev l)).
Proof.
  destruct l as [|x l]; [reflexivity|]. cbn [drop_spaces rev].
  intros H. assert (Hx : isspace x = false).
  { destruct (isspace x) eqn:E; [|reflexivity]. exfalso.
    assert (Hl : List.length (drop_spaces l) <= List.length l).
    { clear. induction l as [|y l IH]; cbn; [lia|].
      destruct (isspace y); cbn; lia. }
    rewrite H in Hl. cbn in Hl. lia. }
  rewrite drop_spaces_snoc.
  destruct (drop_spaces (rev l)) as [|y r].
  - rewrite Hx. cbn. now rewrite Hx.
  - rewrite rev_app_distr. cbn. now rewrite Hx.
Qed.

Lemma trimmed_list (s : string) :
  list_ascii_of_string (trimmed s) =
  rev (drop_spaces (rev (drop_spaces (list_ascii_of_string s)))).
Proof. unfold trimmed. apply list_ascii_of_string_of_list_ascii. Qed.

Lemma trimmed_incl (s : string) (c : ascii) :
  In c (list_ascii_of_string (trimmed s)) -> In c (list_ascii_of_string s).
Proof.
  rewrite trimmed_list. intros H. apply in_rev in H.
  apply drop_spaces_incl in H. apply in_rev in H.
  now apply drop_spaces_incl in H.
Qed.

Lemma trimmed_idem (s : string) : trimmed (trimmed s) = trimmed s.
Proof.
  unfold trimmed at 1. rewrite trimmed_list.
  rewrite drop_end_keeps_start by apply drop_spaces_idem.
  rewrite rev_involutive.
  rewrite drop_end_keeps_start by apply drop_spaces_idem.
  reflexivity.
Qed.

Lemma without_symbols_clean (s : string) :
  (forall c, In c (list_ascii_of_string s) -> is_symbol c = false) ->
  without_symbols s = s.
Proof.
  induction s as [|c s IH]; intros H; [reflexivity|]. cbn.
  rewrite (H c (or_introl eq_refl)). f_equal. apply IH.
  intros x Hx. apply H. now right.
Qed.

Lemma clean_text_no_symbol (s : string) (c : ascii) :
  In c (list_ascii_of_string (clean_text s)) -> is_symbol c = false.
Proof.
  rewrite clean_text_spec. intros H. apply trimmed_incl in H.
  rewrite without_symbols_list in H. apply filter_In in H.
  destruct H as [_ H]. now apply negb_true_iff in H.
Qed.

End CleanedText.

(** X23.  A cleaned text holds none of '%', '$' and ',' and has no
    white space around it, so cleaning it again, or stripping it again,
    changes nothing. *)
Theorem clean_text_is_clean (s : string) :
  (forall c, In c (list_ascii_of_string (clean_text s)) -> is_symbol c = false) /\
  strip (clean_text s) = clean_text s /\
  clean_text (clean_text s) = clean_text s.
Proof.
  split; [apply clean_text_no_symbol|].
  assert (Hstrip : strip (clean_text s) = clean_text s).
  { rewrite strip_trimmed, clean_text_spec. apply trimmed_idem. }
  split; [exact Hstrip|].
  rewrite (clean_text_spec (clean_text s)).
  rewrite without_symbols_clean by apply clean_text_no_symbol.
  now rewrite <- strip_trimmed.
Qed.

(** ** When a run completes *)

Section Completion.

Import AppAdvanced.




End Completion.


